(** * DAGwikiextractor: the streaming reader of [main.py]

    A shallow embedding of the tag scanner ([tagRE]), the header reader of
    [process_dump], the template collector ([load_templates]), the page
    collector ([collect_pages]), the dispatcher / worker / reducer
    pipeline, the page writer ([get_safe_filename], [PageWriter]) and
    [get_version] of [setup.py], with the properties the specification
    states about them and further properties of the code.

    Conventions of the embedding.
    - A Python [str] is a [string]; a character is a code point below 256.
      [\w] is Python's Unicode word class restricted to that range.
    - A file object iterated line by line is the [list string] of its lines.
    - Module globals ([templateNamespace], [knownNamespaces], ...) are fields
      of an explicit record threaded through the functions that touch them.
    - A read of an unbound local raises; such a run is the [Raise] outcome. *)

From Stdlib Require Import ZArith Lia Ascii.
From stdpp Require Import base strings gmap list.

Local Open Scope Z_scope.

(** ** Python string operations used by the source *)

Module Py.

(** [c in s] for a one-character [c]. *)
Fixpoint has_char (c : ascii) (s : string) : bool :=
  match s with
  | EmptyString => false
  | String d s' => if Ascii.eqb c d then true else has_char c s'
  end.

(** [s.startswith(p)]. *)
Fixpoint startswith (s p : string) : bool :=
  match p with
  | EmptyString => true
  | String c p' =>
      match s with
      | EmptyString => false
      | String d s' => if Ascii.eqb c d then startswith s' p' else false
      end
  end.

(** [sub in s]; also [re.search(sub, s)] for a pattern without
    metacharacters. *)
Fixpoint has_sub (sub s : string) : bool :=
  if startswith s sub then true
  else match s with
       | EmptyString => false
       | String _ s' => has_sub sub s'
       end.

(** [s.find(c)]: index of the first [c], or [-1]. *)
Fixpoint find (c : ascii) (s : string) : Z :=
  match s with
  | EmptyString => -1
  | String d s' =>
      if Ascii.eqb c d then 0
      else let i := find c s' in if i <? 0 then -1 else i + 1
  end.

(** [s.rfind(c)]: index of the last [c], or [-1]. *)
Fixpoint rfind (c : ascii) (s : string) : Z :=
  match s with
  | EmptyString => -1
  | String d s' =>
      let i := rfind c s' in
      if 0 <=? i then i + 1
      else if Ascii.eqb c d then 0 else -1
  end.

(** The first [n] characters of [s] (all of [s] when it is shorter). *)
Fixpoint take (n : nat) (s : string) : string :=
  match n, s with
  | S n', String c s' => String c (take n' s')
  | _, _ => EmptyString
  end.

(** [s[:i]] with Python's treatment of a negative bound: it counts from
    the end and is clipped at the start of the string. *)
Definition slice_to (s : string) (i : Z) : string :=
  let n := Z.of_nat (String.length s) in
  let j := if i <? 0 then Z.max 0 (i + n) else i in
  take (Z.to_nat j) s.

(** [''.join(l)]. *)
Fixpoint join (l : list string) : string :=
  match l with
  | [] => EmptyString
  | x :: l' => x +:+ join l'
  end.

(** Truth value of a [str]: the empty string is false. *)
Definition truthy (s : string) : bool :=
  match s with EmptyString => false | _ => true end.

End Py.

(** ** The tag scanner

    [tagRE] is the compiled pattern, written here with blanks between its
    items: [( .*? ) < ( /? \w+ ) [^>]* > (?: ( [^<]* ) ( < .*? > )? )?]

    The pattern is kept as a syntax tree and run by a backtracking matcher
    with the priorities of Python's [re]: a greedy repetition tries the
    longest run first, a lazy one the shortest, an optional item is tried
    before it is skipped, and the first alternative that lets the rest of
    the pattern succeed wins. *)

Module Re.

Inductive charset : Type :=
| Dot                 (* [.]  : anything but a newline *)
| Word                (* [\w] *)
| Not (c : ascii).    (* [[^c]] *)

Inductive regex : Type :=
| Eps
| Chr (c : ascii)
| Star (cs : charset)          (* [cs*]  greedy *)
| StarLazy (cs : charset)      (* [cs*?] *)
| Plus (cs : charset)          (* [cs+]  greedy *)
| Opt (r : regex)              (* [r?]   greedy *)
| Seq (r1 r2 : regex)
| Group (n : nat) (r : regex). (* capturing group number [n] *)

Definition newline : ascii := Ascii.ascii_of_nat 10.

Definition between (lo hi n : nat) : bool :=
  (Nat.leb lo n && Nat.leb n hi)%bool.

(** Code points below 256 for which Python's [str.isalnum] holds, and
    the underscore. *)
Definition is_word (c : ascii) : bool :=
  let n := Ascii.nat_of_ascii c in
  (between 48 57 n || between 65 90 n || Nat.eqb n 95 || between 97 122 n
   || Nat.eqb n 170 || between 178 179 n || Nat.eqb n 181
   || between 185 186 n || between 188 190 n
   || between 192 214 n || between 216 246 n || between 248 255 n)%bool.

Definition in_charset (cs : charset) (c : ascii) : bool :=
  match cs with
  | Dot => negb (Ascii.eqb c newline)
  | Word => is_word c
  | Not d => negb (Ascii.eqb c d)
  end.

(** Capture table: group number to captured text. *)
Definition caps : Type := nat -> option string.

Definition no_caps : caps := fun _ => None.

Definition set_cap (n : nat) (v : string) (g : caps) : caps :=
  fun m => if Nat.eqb m n then Some v else g m.

(** The text consumed between position [s] and the later position [s']
    (both given as the remaining input). *)
Definition consumed (s s' : string) : string :=
  Py.take (String.length s - String.length s') s.

Section Matcher.
Context {A : Type}.

Fixpoint star_greedy (cs : charset) (s : string)
    (k : string -> option A) : option A :=
  match s with
  | String c s' =>
      if in_charset cs c then
        match star_greedy cs s' k with
        | Some r => Some r
        | None => k s
        end
      else k s
  | EmptyString => k s
  end.

Fixpoint star_lazy (cs : charset) (s : string)
    (k : string -> option A) : option A :=
  match k s with
  | Some r => Some r
  | None =>
      match s with
      | String c s' => if in_charset cs c then star_lazy cs s' k else None
      | EmptyString => None
      end
  end.
End Matcher.

(** [rmatch r s g k]: match [r] at [s] with captures [g], then continue
    with [k] on the remaining input; [None] when every alternative
    fails. *)
Fixpoint rmatch (r : regex) (s : string) (g : caps)
    (k : string -> caps -> option caps) : option caps :=
  match r with
  | Eps => k s g
  | Chr c =>
      match s with
      | String d s' => if Ascii.eqb c d then k s' g else None
      | EmptyString => None
      end
  | Star cs => star_greedy cs s (fun s' => k s' g)
  | StarLazy cs => star_lazy cs s (fun s' => k s' g)
  | Plus cs =>
      match s with
      | String c s' =>
          if in_charset cs c then star_greedy cs s' (fun s'' => k s'' g)
          else None
      | EmptyString => None
      end
  | Opt r' =>
      match rmatch r' s g k with
      | Some x => Some x
      | None => k s g
      end
  | Seq r1 r2 => rmatch r1 s g (fun s' g' => rmatch r2 s' g' k)
  | Group n r' =>
      rmatch r' s g (fun s' g' => k s' (set_cap n (consumed s s') g'))
  end.

Definition match_here (r : regex) (s : string) : option caps :=
  rmatch r s no_caps (fun _ g => Some g).

(** [pattern.search(s)]: the match at the leftmost start position that
    has one. *)
Fixpoint search (r : regex) (s : string) : option caps :=
  match match_here r s with
  | Some g => Some g
  | None =>
      match s with
      | String _ s' => search r s'
      | EmptyString => None
      end
  end.

End Re.

(** The four groups of a [tagRE] match. Groups 1 to 3 take part in every
    match of the pattern (lemma [tagRE_groups] below), group 4 may not;
    [m.lastindex == 4] holds exactly when it does. For a match [m] of
    [line], [line[m.start(3):m.end(3)]] is [m.group(3)]. *)
Record Match : Type := mkMatch {
  group1 : string;
  group2 : string;
  group3 : string;
  group4 : option string
}.

Definition lastindex (m : Match) : Z :=
  match group4 m with Some _ => 4 | None => 3 end.

Definition tagRE : Re.regex :=
  Re.Seq (Re.Group 1 (Re.StarLazy Re.Dot))
 (Re.Seq (Re.Chr "<")
 (Re.Seq (Re.Group 2 (Re.Seq (Re.Opt (Re.Chr "/")) (Re.Plus Re.Word)))
 (Re.Seq (Re.Star (Re.Not ">"))
 (Re.Seq (Re.Chr ">")
         (Re.Opt (Re.Seq (Re.Group 3 (Re.Star (Re.Not "<")))
                         (Re.Opt (Re.Group 4
                            (Re.Seq (Re.Chr "<")
                            (Re.Seq (Re.StarLazy Re.Dot) (Re.Chr ">"))))))))))).

Definition to_Match (g : Re.caps) : Match :=
  {| group1 := default EmptyString (g 1%nat);
     group2 := default EmptyString (g 2%nat);
     group3 := default EmptyString (g 3%nat);
     group4 := g 4%nat |}.

(** [tagRE.search(line)]. *)
Definition tagRE_search (line : string) : option Match :=
  to_Match <$> Re.search tagRE line.

Definition nl : string := String Re.newline EmptyString.


(** [if '<' not in line] : the test both collectors make before they call
    the scanner. *)
Definition has_angle (line : string) : bool := Py.has_char "<" line.

(** ** The page collector: [collect_pages]

    The generator is a loop over the lines; its locals are the fields of
    [CState]. [title] is the one local that is not assigned before the
    loop, so it is [None] until a [title] line binds it. *)

(** The tuple [(id, revid, title, page)] the generator yields. *)
Record PageRecord : Type := mkPage {
  rec_id : string;
  rec_revid : string;
  rec_title : string;
  rec_page : list string
}.

Module CollectPages.

Record CState : Type := mkC {
  page : list string;
  id : string;
  revid : string;
  last_id : string;
  inText : bool;
  redirect : bool;
  title : option string
}.

Definition init : CState :=
  mkC [] EmptyString EmptyString EmptyString false false None.

(** What one iteration of the loop does: go on with a new state, having
    yielded a record or not, or fail on the read of an unbound [title]. *)
Inductive step_result : Type :=
| Next (st : CState) (y : option PageRecord)
| Unbound.

Definition append_line (st : CState) (l : string) : CState :=
  mkC (page st ++ [l]) (id st) (revid st) (last_id st) (inText st)
      (redirect st) (title st).

Section Step.
(** [acceptedNamespaces] is imported from [extract]; [templateNamespace]
    is the module global, read at every [/page]. *)
Variable acceptedNamespaces : gset string.
Variable templateNamespace : string.
(** The scanner called on a line that has an angle bracket. *)
Variable search : string -> option Match.

(** The condition of the [if] in the [/page] branch, [t] being the
    bound title. *)
Definition yield_test (st : CState) (t : string) : bool :=
  let colon := Py.find ":" t in
  ((colon <? 0) || bool_decide (Py.slice_to t colon ∈ acceptedNamespaces))
  && negb (String.eqb (id st) (last_id st))
  && negb (redirect st)
  && negb (Py.startswith t templateNamespace).

Definition end_page (st : CState) : step_result :=
  match title st with
  | None => Unbound
  | Some t =>
      if yield_test st t then
        Next (mkC [] EmptyString EmptyString (id st) false false (title st))
             (Some (mkPage (id st) (revid st) t (page st)))
      else
        Next (mkC [] EmptyString EmptyString (last_id st) false false
                  (title st))
             None
  end.

Definition on_tag (st : CState) (line : string) (m : Match)
    : step_result :=
  let tag := group2 m in
  if String.eqb tag "page" then
    Next (mkC [] (id st) (revid st) (last_id st) (inText st) false
              (title st)) None
  else if String.eqb tag "id" && negb (Py.truthy (id st)) then
    Next (mkC (page st) (group3 m) (revid st) (last_id st) (inText st)
              (redirect st) (title st)) None
  else if String.eqb tag "id" && Py.truthy (id st) then
    Next (mkC (page st) (id st) (group3 m) (last_id st) (inText st)
              (redirect st) (title st)) None
  else if String.eqb tag "title" then
    Next (mkC (page st) (id st) (revid st) (last_id st) (inText st)
              (redirect st) (Some (group3 m))) None
  else if String.eqb tag "redirect" then
    Next (mkC (page st) (id st) (revid st) (last_id st) (inText st)
              true (title st)) None
  else if String.eqb tag "text" then
    Next (mkC (page st ++ [group3 m]) (id st) (revid st) (last_id st)
              (negb (lastindex m =? 4)) (redirect st) (title st)) None
  else if String.eqb tag "/text" then
    Next (mkC (if Py.truthy (group1 m) then page st ++ [group1 m]
               else page st)
              (id st) (revid st) (last_id st) false (redirect st)
              (title st)) None
  else if inText st then Next (append_line st line) None
  else if String.eqb tag "/page" then end_page st
  else Next st None.

(** The body of [for line in text]. *)
Definition step_with (st : CState) (line : string) : step_result :=
  if negb (has_angle line) then
    Next (if inText st then append_line st line else st) None
  else
    match search line with
    | None => Next st None
    | Some m => on_tag st line m
    end.
End Step.

(** How the generator ends: exhausted in state [st], or by the error. *)
Inductive ending : Type :=
| Exhausted (st : CState)
| Raised.

Definition step (acceptedNamespaces : gset string)
    (templateNamespace : string) : CState -> string -> step_result :=
  step_with acceptedNamespaces templateNamespace tagRE_search.

(** The records yielded from state [st] on, in order, and the ending. *)
Fixpoint run (acceptedNamespaces : gset string) (templateNamespace : string)
    (st : CState) (text : list string) : list PageRecord * ending :=
  match text with
  | [] => ([], Exhausted st)
  | line :: rest =>
      match step acceptedNamespaces templateNamespace st line with
      | Unbound => ([], Raised)
      | Next st' y =>
          let r := run acceptedNamespaces templateNamespace st' rest in
          (match y with Some p => p :: fst r | None => fst r end, snd r)
      end
  end.

End CollectPages.

Definition collect_pages (acceptedNamespaces : gset string)
    (templateNamespace : string) (text : list string)
    : list PageRecord * CollectPages.ending :=
  CollectPages.run acceptedNamespaces templateNamespace CollectPages.init text.

(** ** Module globals and the template store *)

Record Globals : Type := mkG {
  (* [acceptedNamespaces], imported from [extract] (and rebound by [main]
     when the namespaces option is given) *)
  acceptedNamespaces : gset string;
  knownNamespaces : gset string;
  templateNamespace : string;
  moduleNamespace : string;
  modulePrefix : string;
  (* [Extractor.templatePrefix], a class attribute of [extract] *)
  templatePrefix : string;
  (* the definitions kept by [define_template] *)
  template_store : gmap string (list string)
}.

(** Modelled from the spec: [define_template] of the [extract] module, which
    is not among the sources. The specification's template collector
    inserts (title -> buffer) into the store, the buffer being the raw body
    lines of the page. *)
Definition define_template (title : string) (page : list string)
    (store : gmap string (list string)) : gmap string (list string) :=
  <[title := page]> store.

(** The globals when [main.py] is loaded, for given values of the two
    names it imports from [extract]. [modulePrefix] has no value yet; it is
    assigned before it is read. *)
Definition initial_globals (accepted : gset string) (prefix : string)
    : Globals :=
  mkG accepted {[ "Template" ]} EmptyString EmptyString EmptyString prefix ∅.

(** Truth value of an optional file name: [None] and [''] are false. *)
Definition truthy_name (f : option string) : bool :=
  match f with
  | Some p => Py.truthy p
  | None => false
  end.

(** ** The template collector: [load_templates] *)

(** The text the [/page] branch writes to the mirror file for one page. *)
Definition mirror_page (title : string) (page : list string) : string :=
  ("<page>" +:+ nl)
  +:+ ("   <title>" +:+ title +:+ "</title>" +:+ nl)
  +:+ ("   <ns>10</ns>" +:+ nl)
  +:+ "   <text>"
  +:+ Py.join page
  +:+ ("   </text>" +:+ nl)
  +:+ ("</page>" +:+ nl).

Module LoadTemplates.

Record LState : Type := mkL {
  articles : Z;
  templates : Z;
  page : list string;
  inText : bool;
  title : option string;
  (* everything written to [output] so far *)
  output : string;
  globals : Globals
}.

Definition init (g : Globals) : LState :=
  mkL 0 0 [] false None EmptyString
      (mkG (acceptedNamespaces g) (knownNamespaces g) (templateNamespace g)
           (moduleNamespace g)
           (moduleNamespace g +:+ ":") (templatePrefix g)
           (template_store g)).

Inductive step_result : Type :=
| Next (st : LState)
| Unbound.

Definition set_page (st : LState) (p : list string) (t : bool) : LState :=
  mkL (articles st) (templates st) p t (title st) (output st) (globals st).

Section Step.
(** Truth value of the [output_file] argument. *)
Variable out_requested : bool.
Variable search : string -> option Match.

(** The [title] branch: bind the title and, when no mirror is written
    and the template namespace is still unknown, take the namespace
    from the title. *)
Definition on_title (st : LState) (t : string) : LState :=
  let g := globals st in
  let colon := Py.find ":" t in
  let g' :=
    if negb out_requested && negb (Py.truthy (templateNamespace g))
       && (colon >? 1)
    then mkG (acceptedNamespaces g) (knownNamespaces g) (Py.slice_to t colon)
             (moduleNamespace g) (modulePrefix g)
             (Py.slice_to t (colon + 1)) (template_store g)
    else g in
  mkL (articles st) (templates st) (page st) (inText st) (Some t)
      (output st) g'.

Definition end_page (st : LState) : step_result :=
  match title st with
  | None => Unbound
  | Some t =>
      let g := globals st in
      let is_template := Py.startswith t (templatePrefix g) in
      let g' :=
        if is_template
        then mkG (acceptedNamespaces g) (knownNamespaces g)
                 (templateNamespace g)
                 (moduleNamespace g) (modulePrefix g) (templatePrefix g)
                 (define_template t (page st) (template_store g))
        else g in
      let out' :=
        if out_requested
           && (is_template || Py.startswith t (modulePrefix g))
        then output st +:+ mirror_page t (page st)
        else output st in
      Next (mkL (articles st + 1)
                (if is_template then templates st + 1 else templates st)
                [] (inText st) (title st) out' g')
  end.

Definition on_tag (st : LState) (line : string) (m : Match)
    : step_result :=
  let tag := group2 m in
  if String.eqb tag "page" then Next (set_page st [] (inText st))
  else if String.eqb tag "title" then Next (on_title st (group3 m))
  else if String.eqb tag "text" then
    Next (set_page st (page st ++ [group3 m]) (negb (lastindex m =? 4)))
  else if String.eqb tag "/text" then
    Next (set_page st
            (if Py.truthy (group1 m) then page st ++ [group1 m]
             else page st)
            false)
  else if inText st then Next (set_page st (page st ++ [line]) true)
  else if String.eqb tag "/page" then end_page st
  else Next st.

(** The body of [for line in file]. *)
Definition step_with (st : LState) (line : string) : step_result :=
  if negb (has_angle line) then
    Next (if inText st then set_page st (page st ++ [line]) true else st)
  else
    match search line with
    | None => Next st
    | Some m => on_tag st line m
    end.
End Step.

Definition step (out_requested : bool) : LState -> string -> step_result :=
  step_with out_requested tagRE_search.

(** How the call ends: it returns in state [st], or a [/page] read an
    unbound [title] in state [st]. *)
Inductive ending : Type :=
| Returned (st : LState)
| Raised (st : LState).

Fixpoint run (out_requested : bool) (st : LState) (file : list string)
    : ending :=
  match file with
  | [] => Returned st
  | line :: rest =>
      match step out_requested st line with
      | Unbound => Raised st
      | Next st' => run out_requested st' rest
      end
  end.

End LoadTemplates.

(** [load_templates(file, output_file)] run with globals [g]: the final
    state holds the returned count ([templates]), the globals as the call
    leaves them and the text of the mirror file. *)
Definition load_templates (g : Globals) (file : list string)
    (output_file : option string) : LoadTemplates.ending :=
  LoadTemplates.run (truthy_name output_file) (LoadTemplates.init g) file.

(** The lines a text file with content [s] is read as: each line keeps its
    newline, the last one may lack it. *)
Fixpoint file_lines (s : string) : list string :=
  match s with
  | EmptyString => []
  | String c s' =>
      if Ascii.eqb c Re.newline then String c EmptyString :: file_lines s'
      else match file_lines s' with
           | [] => [String c EmptyString]
           | l :: ls => String c l :: ls
           end
  end.

(** ** The header reader: the first loop of [process_dump] *)

Module Header.

Record HState : Type := mkH {
  urlbase : string;
  globals : Globals
}.

Definition dquote : ascii := Ascii.ascii_of_nat 34.

(** The patterns [key="10"] and [key="828"], which have no
    metacharacter: [re.search] on them is a substring test. *)
Definition key_attr (k : string) : string :=
  "key=" +:+ String dquote (k +:+ String dquote EmptyString).

(** [urlbase = base[:base.rfind("/")]]. *)
Definition base_url (base : string) : string :=
  Py.slice_to base (Py.rfind "/" base).

Definition on_namespace (g : Globals) (line name : string) : Globals :=
  let known := {[ name ]} ∪ knownNamespaces g in
  if Py.has_sub (key_attr "10") line then
    mkG (acceptedNamespaces g) known name (moduleNamespace g)
        (modulePrefix g) (name +:+ ":") (template_store g)
  else if Py.has_sub (key_attr "828") line then
    mkG (acceptedNamespaces g) known (templateNamespace g) name
        (name +:+ ":") (templatePrefix g) (template_store g)
  else
    mkG (acceptedNamespaces g) known (templateNamespace g)
        (moduleNamespace g) (modulePrefix g) (templatePrefix g)
        (template_store g).

(** One iteration: the new state, and whether the loop breaks. *)
Definition on_line (h : HState) (line : string) : HState * bool :=
  match tagRE_search line with
  | None => (h, false)
  | Some m =>
      let tag := group2 m in
      if String.eqb tag "base" then
        (mkH (base_url (group3 m)) (globals h), false)
      else if String.eqb tag "namespace" then
        (mkH (urlbase h) (on_namespace (globals h) line (group3 m)), false)
      else if String.eqb tag "/siteinfo" then (h, true)
      else (h, false)
  end.

(** The loop: the state it ends in and the lines left unread in the
    input. *)
Fixpoint read (h : HState) (input : list string) : HState * list string :=
  match input with
  | [] => (h, [])
  | line :: rest =>
      let '(h', stop) := on_line h line in
      if stop then (h', rest) else read h' rest
  end.

End Header.

(** ** The pipeline of [process_dump] *)

(** The tuple [(id, revid, urlbase, title, page, ordinal)]. *)
Record Job : Type := mkJob {
  job_id : string;
  job_revid : string;
  job_urlbase : string;
  job_title : string;
  job_page : list string;
  job_ordinal : Z
}.

(** The tuple [(ordinal, id, title, text)]. *)
Record Result : Type := mkResult {
  res_ordinal : Z;
  res_id : string;
  res_title : string;
  res_text : string
}.

(** What the main line of control does to the processes and the two
    queues, in program order. [None] on a queue is the sentinel. *)
Inductive action : Type :=
| StartReduce
| StartWorker (w : nat)
| PutJob (j : option Job)
| JoinWorker (w : nat)
| PutOutput (r : option Result)
| JoinReduce.

Inductive error : Type :=
| FileNotFoundError
| ValueError
| UnboundLocalError.

(** The files [decode_open] can open, by name, with their decoded text. *)
Definition decode_open (fs : gmap string string) (filename : string)
    : option (list string) :=
  file_lines <$> fs !! filename.

(** [os.path.exists]. *)
Definition exists_file (fs : gmap string string) (filename : string) : bool :=
  bool_decide (is_Some (fs !! filename)).

(** The jobs built from the yielded records: [ordinal] counts from 0. *)
Fixpoint jobs_from (urlbase : string) (ordinal : Z) (pages : list PageRecord)
    : list Job :=
  match pages with
  | [] => []
  | p :: ps =>
      mkJob (rec_id p) (rec_revid p) urlbase (rec_title p) (rec_page p) ordinal
      :: jobs_from urlbase (ordinal + 1) ps
  end.

(** [range(max(1, process_count))]: the workers, by index. *)
Definition worker_ids (process_count : Z) : list nat :=
  seq 0 (Z.to_nat (Z.max 1 process_count)).

(** What a call of [process_dump] leaves behind. *)
Record Run : Type := mkRun {
  run_globals : Globals;
  run_fs : gmap string string;
  run_actions : list action;
  run_error : option error
}.

(** The map/reduce part, from [reduce.start()] on, reading the pages from
    [input]. *)
Definition dispatch (g : Globals) (fs : gmap string string)
    (urlbase : string) (input : list string) (process_count : Z) : Run :=
  let ws := worker_ids process_count in
  let '(pages, ending) :=
    collect_pages (acceptedNamespaces g) (templateNamespace g) input in
  let start := StartReduce :: (StartWorker <$> ws) in
  let puts := (fun j => PutJob (Some j)) <$> jobs_from urlbase 0 pages in
  match ending with
  | CollectPages.Raised =>
      mkRun g fs (start ++ puts) (Some UnboundLocalError)
  | CollectPages.Exhausted _ =>
      mkRun g fs
        (start ++ puts
         ++ ((fun _ => PutJob None) <$> ws)
         ++ (JoinWorker <$> ws)
         ++ [PutOutput None; JoinReduce])
        None
  end.

Definition with_globals (st : LoadTemplates.LState) : Globals :=
  LoadTemplates.globals st.

(** [template_file and os.path.exists(template_file)]. *)
Definition usable_template (fs : gmap string string)
    (template_file : option string) : bool :=
  match template_file with
  | Some tf => Py.truthy tf && exists_file fs tf
  | None => false
  end.

(** The files after [load_templates] wrote [text] to the mirror
    [output_file] (when that name is true). *)
Definition write_mirror (fs : gmap string string)
    (output_file : option string) (text : string) : gmap string string :=
  match output_file with
  | Some tf => if Py.truthy tf then <[tf := text]> fs else fs
  | None => fs
  end.

(** [process_dump(input_file, template_file, out_dir, process_count,
    html_safe, expand_templates)], run with globals [g] and files [fs].
    [out_dir] and [html_safe] only reach the page writer and the
    converter, which are outside this model. *)
Definition process_dump (g : Globals) (fs : gmap string string)
    (input_file : string) (template_file : option string)
    (process_count : Z) (expand_templates : bool) : Run :=
  match decode_open fs input_file with
  | None => mkRun g fs [] (Some FileNotFoundError)
  | Some input =>
      let '(h, rest) := Header.read (Header.mkH EmptyString g) input in
      let g1 := Header.globals h in
      let urlbase := Header.urlbase h in
      if expand_templates then
        if usable_template fs template_file then
          match template_file ≫= decode_open fs with
          | None => mkRun g1 fs [] (Some FileNotFoundError)
          | Some file =>
              match load_templates g1 file None with
              | LoadTemplates.Raised st =>
                  mkRun (with_globals st) fs [] (Some UnboundLocalError)
              | LoadTemplates.Returned st =>
                  dispatch (with_globals st) fs urlbase rest process_count
              end
          end
        else if String.eqb input_file "-" then
          mkRun g1 fs [] (Some ValueError)
        else
          match load_templates g1 rest template_file with
          | LoadTemplates.Raised st =>
              mkRun (with_globals st)
                    (write_mirror fs template_file (LoadTemplates.output st))
                    [] (Some UnboundLocalError)
          | LoadTemplates.Returned st =>
              let fs' :=
                write_mirror fs template_file (LoadTemplates.output st) in
              match decode_open fs' input_file with
              | None => mkRun (with_globals st) fs' [] (Some FileNotFoundError)
              | Some input' =>
                  dispatch (with_globals st) fs' urlbase input' process_count
              end
          end
      else dispatch g1 fs urlbase rest process_count
  end.

(** ** The processes and the queues

    The main line of control runs its actions in order; the workers run
    [extract_process] and the reducer [reduce_process]. A step of the
    system is a step of one of them, chosen by the scheduler; a step that
    would block (a full queue on [put], an empty one on [get], a [join] of
    a live process) is not enabled. *)

Module Pipeline.

(** A worker between two queue operations. *)
Inductive worker : Type :=
| NotStarted
| Idle                 (* about to call [jobs_queue.get()] *)
| Busy (r : Result)    (* about to call [output_queue.put(r)] *)
| Exited.

Inductive reducer : Type :=
| RNotStarted
| RRunning
| RStopped.

Record Sys : Type := mkSys {
  main : list action;
  jobs_queue : list (option Job);
  output_queue : list (option Result);
  workers : list worker;
  reduce : reducer;
  (* the calls [page_writer.write_page(id, title, text)] made so far *)
  written : list (string * string * string)
}.

Inductive choice : Type :=
| CMain
| CWorker (w : nat)
| CReduce.

Inductive event : Type :=
| EMain (a : action)
| EGet (w : nat) (j : option Job)
| EPut (w : nat) (r : Result)
| EPop (x : option Result).

(** [Queue(maxsize)]: bounded when [maxsize] is positive. *)
Definition full {A : Type} (maxsize : Z) (q : list A) : bool :=
  (0 <? maxsize) && (maxsize <=? Z.of_nat (length q)).

Section Semantics.
(** The text the converter produces for a job. *)
Variable extract : Job -> string.
(** [maxsize = 10 * process_count]. *)
Variable maxsize : Z.

Definition set_worker (s : Sys) (w : nat) (x : worker) : Sys :=
  mkSys (main s) (jobs_queue s) (output_queue s) (<[w := x]> (workers s))
        (reduce s) (written s).

Definition main_step (s : Sys) : option (event * Sys) :=
  match main s with
  | [] => None
  | a :: rest =>
      let continue (s' : Sys) := Some (EMain a, s') in
      match a with
      | StartReduce =>
          continue (mkSys rest (jobs_queue s) (output_queue s)
                          (workers s) RRunning (written s))
      | StartWorker w =>
          continue (mkSys rest (jobs_queue s) (output_queue s)
                          (workers s ++ [Idle]) (reduce s) (written s))
      | PutJob j =>
          if full maxsize (jobs_queue s) then None
          else continue (mkSys rest (jobs_queue s ++ [j]) (output_queue s)
                               (workers s) (reduce s) (written s))
      | JoinWorker w =>
          match workers s !! w with
          | Some Exited =>
              continue (mkSys rest (jobs_queue s) (output_queue s)
                              (workers s) (reduce s) (written s))
          | _ => None
          end
      | PutOutput r =>
          if full maxsize (output_queue s) then None
          else continue (mkSys rest (jobs_queue s) (output_queue s ++ [r])
                               (workers s) (reduce s) (written s))
      | JoinReduce =>
          match reduce s with
          | RStopped =>
              continue (mkSys rest (jobs_queue s) (output_queue s)
                              (workers s) (reduce s) (written s))
          | _ => None
          end
      end
  end.

(** [extract_process]: get a job; on a job, convert it and put the
    result; on the sentinel, leave the loop. *)
Definition worker_step (s : Sys) (w : nat) : option (event * Sys) :=
  match workers s !! w with
  | Some Idle =>
      match jobs_queue s with
      | [] => None
      | j :: q =>
          let s' := mkSys (main s) q (output_queue s) (workers s)
                          (reduce s) (written s) in
          match j with
          | Some job =>
              Some (EGet w j,
                    set_worker s' w
                      (Busy (mkResult (job_ordinal job) (job_id job)
                                      (job_title job) (extract job))))
          | None => Some (EGet w j, set_worker s' w Exited)
          end
      end
  | Some (Busy r) =>
      if full maxsize (output_queue s) then None
      else Some (EPut w r,
                 set_worker
                   (mkSys (main s) (jobs_queue s)
                          (output_queue s ++ [Some r]) (workers s)
                          (reduce s) (written s))
                   w Idle)
  | _ => None
  end.

(** [reduce_process]: get an item; on the sentinel, leave the loop;
    otherwise write the page. *)
Definition reduce_step (s : Sys) : option (event * Sys) :=
  match reduce s with
  | RRunning =>
      match output_queue s with
      | [] => None
      | x :: q =>
          match x with
          | None =>
              Some (EPop x,
                    mkSys (main s) (jobs_queue s) q (workers s) RStopped
                          (written s))
          | Some r =>
              Some (EPop x,
                    mkSys (main s) (jobs_queue s) q (workers s) RRunning
                          (written s
                           ++ [(res_id r, res_title r, res_text r)]))
          end
      end
  | _ => None
  end.

Definition step (s : Sys) (c : choice) : option (event * Sys) :=
  match c with
  | CMain => main_step s
  | CWorker w => worker_step s w
  | CReduce => reduce_step s
  end.

(** An execution under a schedule: the events in order and the state
    reached, or [None] when the schedule picks a blocked process. *)
Fixpoint exec (s : Sys) (schedule : list choice)
    : option (list event * Sys) :=
  match schedule with
  | [] => Some ([], s)
  | c :: cs =>
      match step s c with
      | None => None
      | Some (e, s') =>
          match exec s' cs with
          | None => None
          | Some (tr, s'') => Some (e :: tr, s'')
          end
      end
  end.
End Semantics.

(** The system when [process_dump] reaches [reduce.start()]. *)
Definition initial (script : list action) : Sys :=
  mkSys script [] [] [] RNotStarted [].

End Pipeline.

(** ** The page writer: [get_safe_filename] and [PageWriter] *)

Definition backslash : ascii := Ascii.ascii_of_nat 92.

(** Code points below 256 that [\s] matches in a [str] pattern. *)
Definition is_space (c : ascii) : bool :=
  let n := Ascii.nat_of_ascii c in
  (Re.between 9 13 n || Re.between 28 32 n || Nat.eqb n 133
   || Nat.eqb n 160)%bool.

(** The character class of the pattern in [get_safe_filename]: slash,
    backslash, question mark, percent, star, colon, bar, double quote, the
    two angle brackets and white space. *)
Definition unsafe_char (c : ascii) : bool :=
  (Ascii.eqb c "/" || Ascii.eqb c backslash || Ascii.eqb c "?"
   || Ascii.eqb c "%" || Ascii.eqb c "*" || Ascii.eqb c ":"
   || Ascii.eqb c "|" || Ascii.eqb c Header.dquote || Ascii.eqb c "<"
   || Ascii.eqb c ">" || is_space c)%bool.

(** [re.sub(pattern, repl, s)] for a pattern that is one character class
    and a replacement of one character: every character of the class is
    replaced. *)
Fixpoint sub_class (p : ascii -> bool) (repl : ascii) (s : string) : string :=
  match s with
  | EmptyString => EmptyString
  | String c s' => String (if p c then repl else c) (sub_class p repl s')
  end.

Definition get_safe_filename (title : string) : string :=
  let safe_name := sub_class unsafe_char "_" title in
  let safe_name :=
    if 200 <? Z.of_nat (String.length safe_name)
    then Py.slice_to safe_name 200 else safe_name in
  safe_name +:+ ".md".

(** [s.endswith(c)] for a one-character [c]. *)
Fixpoint ends_with (c : ascii) (s : string) : bool :=
  match s with
  | EmptyString => false
  | String d EmptyString => Ascii.eqb c d
  | String _ s' => ends_with c s'
  end.

(** [os.path.join(a, b)] of [posixpath]. *)
Definition path_join (a b : string) : string :=
  if Py.startswith b "/" then b
  else if negb (Py.truthy a) || ends_with "/" a then a +:+ b
  else a +:+ String "/" b.

Record PageWriter : Type := mkPageWriter {
  output_dir : string
}.

(** [write_page(id, title, text)], on a file system that lets
    [open(path, 'w')] succeed for the paths that satisfy [can_open] (a name
    within the limit of the file system, a directory that is there, ...).
    When the open succeeds the file is created, or its content is
    replaced, and the path is returned; when it raises ([OSError]) nothing
    is written and the call does not return: the result is [None]. *)
Definition write_page (self : PageWriter) (can_open : string -> bool)
    (fs : gmap string string) (id title text : string)
    : option (gmap string string * string) :=
  let filename := get_safe_filename title in
  let filepath := path_join (output_dir self) filename in
  if can_open filepath then Some (<[filepath := text]> fs, filepath)
  else None.

(** The calls of [write_page] the reducer makes, in order: the files they
    leave, and whether every call returned. The reducer does not catch the
    error of a call, so the first call that raises is its last. *)
Fixpoint write_pages (self : PageWriter) (can_open : string -> bool)
    (fs : gmap string string) (calls : list (string * string * string))
    : gmap string string * bool :=
  match calls with
  | [] => (fs, true)
  | (id, title, text) :: rest =>
      match write_page self can_open fs id title text with
      | Some (fs', _) => write_pages self can_open fs' rest
      | None => (fs, false)
      end
  end.

(** A file system whose one limit is on the length of a file name, counted
    in the bytes of its UTF-8 form: a code point below 128 takes one byte,
    one from 128 to 255 takes two. *)
Fixpoint utf8_length (s : string) : nat :=
  match s with
  | EmptyString => 0
  | String c s' =>
      ((if Nat.ltb (Ascii.nat_of_ascii c) 128 then 1 else 2)
       + utf8_length s')%nat
  end.

(** [os.path.basename(p)]: what follows the last slash. *)
Fixpoint basename (p : string) : string :=
  match p with
  | EmptyString => EmptyString
  | String c p' =>
      if Py.has_char "/" p' then basename p'
      else if Ascii.eqb c "/" then p' else p
  end.

Definition name_limit (limit : nat) (path : string) : bool :=
  Nat.leb (utf8_length (basename path)) limit.

(** ** The version of the package: [get_version] of [setup.py] *)

Module Setup.

(** Code points below 256 that [\d] matches in a [str] pattern. *)
Definition is_digit (c : ascii) : bool :=
  Re.between 48 57 (Ascii.nat_of_ascii c).

(** The longest run of digits at the start of [s], and what follows it. *)
Fixpoint digits (s : string) : string * string :=
  match s with
  | String c s' =>
      if is_digit c then let '(a, r) := digits s' in (String c a, r)
      else (EmptyString, s)
  | EmptyString => (EmptyString, EmptyString)
  end.

(** Whether [re.match] finds the pattern [^ \d+ \. \d+ $] (written here
    with blanks between its items) in [version]. Each [\d+] is followed by
    an item no digit satisfies, so only the longest run of digits can let
    the rest succeed; [$] holds at the end of the string and before a
    newline that ends it. *)
Definition version_re (version : string) : bool :=
  match digits version with
  | (String _ _, String "." r) =>
      match digits r with
      | (String _ _, r') => String.eqb r' EmptyString || String.eqb r' nl
      | _ => false
      end
  | _ => false
  end.

Definition get_version (version : string) : string :=
  if version_re version then version +:+ ".0" else version.

End Setup.

(** * Vocabulary of the properties *)

(** ** States and lines of the page collector *)

(** The state a [/page] leaves, [last] being the new [last_id]. *)
Definition after_page (st : CollectPages.CState) (last : string)
    : CollectPages.CState :=
  CollectPages.mkC [] EmptyString EmptyString last false false
    (CollectPages.title st).


(** Conditions (a), (c) and (d) of the yield test: what makes a page
    qualify apart from the comparison of ids. *)
Definition qualifies (acc : gset string) (tn : string)
    (st : CollectPages.CState) (t : string) : bool :=
  let colon := Py.find ":" t in
  ((colon <? 0) || bool_decide (Py.slice_to t colon ∈ acc))
  && negb (CollectPages.redirect st)
  && negb (Py.startswith t tn).


(** No id in [ids] equals the one before it, [last] standing before the
    first. *)
Fixpoint no_repeat (last : string) (ids : list string) : Prop :=
  match ids with
  | [] => True
  | i :: rest => last <> i /\ no_repeat i rest
  end.


(** The yield test in the specification's words: its last condition
    compares the title with the template prefix, the namespace name
    followed by a colon, as [load_templates] does. *)
Definition spec_yield_test (acc : gset string) (tn : string)
    (st : CollectPages.CState) (t : string) : bool :=
  let colon := Py.find ":" t in
  ((colon <? 0) || bool_decide (Py.slice_to t colon ∈ acc))
  && negb (String.eqb (CollectPages.id st) (CollectPages.last_id st))
  && negb (CollectPages.redirect st)
  && negb (Py.startswith t (tn +:+ ":")).

(** The tag a collector sees on a line: none when the line has no angle
    bracket or the pattern does not match. *)
Definition tag_of (line : string) : option string :=
  if has_angle line then group2 <$> tagRE_search line else None.

(** Whether a call of [load_templates] ended on the unbound [title]. *)
Definition raised (e : LoadTemplates.ending) : bool :=
  match e with
  | LoadTemplates.Raised _ => true
  | LoadTemplates.Returned _ => false
  end.

(** ** The header *)

(** [u] is the part of [b] before its last slash. *)
Definition path_up_to_last_slash (b u : string) : Prop :=
  exists rest, b = u +:+ String "/" rest /\ Py.has_char "/" rest = false.

(** ** Concrete inputs *)

(** An article whose title begins with the word "Template" but is in no
    namespace. *)
Definition template_like_page : list string :=
  [ "<page>" +:+ nl;
    "<title>Template metaprogramming</title>" +:+ nl;
    "<id>1</id>" +:+ nl;
    "<text>body</text>" +:+ nl ].

(** The state of the collector before the closing tag of that page. *)
Definition template_like_state : CollectPages.CState :=
  CollectPages.mkC ["body"] "1" EmptyString EmptyString false false
    (Some "Template metaprogramming").

(** A header line [<namespace key=k>name</namespace>], with the quotes of
    the dump around [k]. *)
Definition namespace_line (k name : string) : string :=
  "<namespace " +:+ Header.key_attr k +:+ ">" +:+ name +:+ "</namespace>"
  +:+ nl.

(** A dump whose header declares the namespace "Category" and whose only
    page is "Category:Foo". *)
Definition category_dump : string :=
  ("<mediawiki>" +:+ nl)
  +:+ ("<siteinfo>" +:+ nl)
  +:+ ("<base>http://x.org/wiki/Main_Page</base>" +:+ nl)
  +:+ namespace_line "10" "Template"
  +:+ namespace_line "14" "Category"
  +:+ ("</siteinfo>" +:+ nl)
  +:+ ("<page>" +:+ nl)
  +:+ ("<title>Category:Foo</title>" +:+ nl)
  +:+ ("<id>1</id>" +:+ nl)
  +:+ ("<text>body</text>" +:+ nl)
  +:+ ("</page>" +:+ nl).

(** The globals after a header that names "Template" as the template
    namespace. *)
Definition template_globals : Globals :=
  mkG ∅ {[ "Template" ]} "Template" EmptyString EmptyString "Template:" ∅.

(** ** Executions of the pipeline *)

(** The actions of the main line of control among the events of an
    execution, in order. *)
Definition main_events (tr : list Pipeline.event) : list action :=
  omap (fun e => match e with Pipeline.EMain a => Some a | _ => None end) tr.

(** The actions of a run of [process_dump] that reaches the end of the
    function, for the workers [ws] and the jobs built from the pages. *)
Definition pipeline_script (ws : list nat) (jobs : list Job) : list action :=
  StartReduce
  :: (StartWorker <$> ws)
  ++ ((fun j => PutJob (Some j)) <$> jobs)
  ++ ((fun _ => PutJob None) <$> ws)
  ++ (JoinWorker <$> ws)
  ++ [PutOutput None; JoinReduce].

(** The puts of a sentinel on the job queue and on the result queue. *)
Definition is_job_sentinel (a : action) : bool :=
  match a with PutJob None => true | _ => false end.

Definition is_output_sentinel (a : action) : bool :=
  match a with PutOutput None => true | _ => false end.

(** What holds of the events so far and the state reached, in every
    execution of the actions [script]. *)
Record inv (script : list action) (tr : list Pipeline.event)
    (s : Pipeline.Sys) : Prop := mkInv {
  inv_main : script = main_events tr ++ Pipeline.main s;
  inv_exited :
    forall w, Pipeline.EGet w None ∈ tr
              <-> Pipeline.workers s !! w = Some Pipeline.Exited;
  inv_joined :
    forall w,
      Pipeline.EMain (JoinWorker w) ∈ tr -> Pipeline.EGet w None ∈ tr;
  inv_stopped :
    Pipeline.reduce s = Pipeline.RStopped <-> Pipeline.EPop None ∈ tr;
  inv_sentinel :
    None ∈ Pipeline.output_queue s \/ Pipeline.EPop None ∈ tr ->
    Pipeline.EMain (PutOutput None) ∈ tr;
  inv_started :
    Pipeline.reduce s <> Pipeline.RNotStarted -> StartReduce ∉ Pipeline.main s
}.

(** The state [s'] is reached from [s] under [schedule]. *)
Definition reaches (extract : Job -> string) (maxsize : Z) (s : Pipeline.Sys)
    (schedule : list Pipeline.choice) (s' : Pipeline.Sys) : Prop :=
  exists tr, Pipeline.exec extract maxsize s schedule = Some (tr, s').

(** The result a worker puts for a job, and what the reducer writes for
    it. *)
Definition result_of (extract : Job -> string) (j : Job) : Result :=
  mkResult (job_ordinal j) (job_id j) (job_title j) (extract j).

Definition written_of (extract : Job -> string) (j : Job)
    : string * string * string :=
  (job_id j, job_title j, extract j).

(** The schedule for one job: the main line puts it, worker 0 gets it and
    puts the result, the reducer pops the result. *)
Definition job_round : list Pipeline.choice :=
  [Pipeline.CMain; Pipeline.CWorker 0; Pipeline.CWorker 0; Pipeline.CReduce].

(** The schedule for the sentinel of worker [w]: the main line puts it,
    the worker gets it and leaves its loop. *)
Definition sentinel_round (w : nat) : list Pipeline.choice :=
  [Pipeline.CMain; Pipeline.CWorker w].

(** ** Lines of a known shape under the scanner *)

(** Every character of [s] satisfies [p]. *)
Fixpoint all_chars (p : ascii -> bool) (s : string) : bool :=
  match s with
  | EmptyString => true
  | String c s' => p c && all_chars p s'
  end.

(** The parts of [tagRE]: the closed tag of group 4, the payload with
    what follows it, the tag name, and the pattern from the angle bracket
    on. *)
Definition re_close : Re.regex :=
  Re.Seq (Re.Chr "<") (Re.Seq (Re.StarLazy Re.Dot) (Re.Chr ">")).

Definition re_payload : Re.regex :=
  Re.Opt (Re.Seq (Re.Group 3 (Re.Star (Re.Not "<")))
                 (Re.Opt (Re.Group 4 re_close))).

Definition re_name : Re.regex :=
  Re.Seq (Re.Opt (Re.Chr "/")) (Re.Plus Re.Word).

Definition re_tag : Re.regex :=
  Re.Seq (Re.Chr "<")
    (Re.Seq (Re.Group 2 re_name)
       (Re.Seq (Re.Star (Re.Not ">")) (Re.Seq (Re.Chr ">") re_payload))).

(** The continuation at the end of the pattern. *)
Definition final : string -> Re.caps -> option Re.caps := fun _ g => Some g.

(** A tag name: a word character [w0], more word characters [w], and a
    slash before them for a closing tag. *)
Definition tag_name (slash : bool) (w0 : ascii) (w : string) : string :=
  if slash then String "/" (String w0 w) else String w0 w.

(** A line made of leading text, a tag with its attributes, a payload and
    what follows it. *)
Definition tag_line (pre : string) (slash : bool) (w0 : ascii)
    (w attrs payload tail : string) : string :=
  pre +:+ String "<"
            (tag_name slash w0 w
             +:+ (attrs +:+ String ">" (payload +:+ tail))).

(** The captures of the scanner on such a line. *)
Definition tag_caps (pre : string) (slash : bool) (w0 : ascii)
    (w payload : string) (g4 : option string) : Re.caps :=
  let g := Re.set_cap 2 (tag_name slash w0 w) (Re.set_cap 1 pre Re.no_caps) in
  match g4 with
  | Some x => Re.set_cap 4 x (Re.set_cap 3 payload g)
  | None => Re.set_cap 3 payload g
  end.

(** ** Version strings *)

(** [v] is two runs of digits with a dot between them, and perhaps a
    newline at the end. *)
Definition two_numbers (v : string) : Prop :=
  exists a b,
    a <> EmptyString /\ b <> EmptyString
    /\ all_chars Setup.is_digit a = true /\ all_chars Setup.is_digit b = true
    /\ (v = a +:+ String "." b \/ v = a +:+ String "." (b +:+ nl)).

(** What follows the run [Setup.digits] takes: nothing, or a character
    that is no digit. *)
Definition no_digit_ahead (r : string) : Prop :=
  match r with
  | EmptyString => True
  | String c _ => Setup.is_digit c = false
  end.

(** ** Lines by their tag *)

(** The tags the page collector has a branch for. *)
Definition collector_tag (t : string) : bool :=
  String.eqb t "page" || String.eqb t "id" || String.eqb t "title"
  || String.eqb t "redirect" || String.eqb t "text" || String.eqb t "/text"
  || String.eqb t "/page".

(** A line the page collector passes over outside a text element: no tag,
    or a tag it has no branch for. *)
Definition passed_over (line : string) : bool :=
  match tag_of line with
  | Some t => negb (collector_tag t)
  | None => true
  end.

(** [line] has an angle bracket and the scanner finds [m] in it. *)
Definition scans (line : string) (m : Match) : Prop :=
  has_angle line = true /\ tagRE_search line = Some m.

(** The part of the yield test that looks at the title alone: no colon or
    an accepted namespace before it, and no template namespace name at
    its start. *)
Definition title_accepted (acc : gset string) (tn : string) (t : string)
    : bool :=
  let colon := Py.find ":" t in
  ((colon <? 0) || bool_decide (Py.slice_to t colon ∈ acc))
  && negb (Py.startswith t tn).

(** The lines kept for a text element: the rest of the opening line, the
    lines between, and what stands before the closing tag when that is not
    empty. *)
Definition text_lines (first : string) (body : list string) (last : string)
    : list string :=
  first :: body ++ (if Py.truthy last then [last] else []).

(** The lines of a page in the layout of a dump: the opening line, the
    title, the id of the page, the id of the revision, the text element
    from its opening line to its closing line, and the closing line of the
    page, with other lines between them. *)
Definition page_layout (l_page l_title l_id l_rev l_open l_close l_end : string)
    (skip1 skip2 skip3 skip4 skip5 body : list string) : list string :=
  l_page :: skip1 ++ l_title :: skip2 ++ l_id :: skip3 ++ l_rev
  :: skip4 ++ l_open :: body ++ l_close :: skip5 ++ [l_end].

(** ** Globals of the two collectors *)

(** When the template namespace has a name, the template prefix is that
    name followed by a colon. *)
Definition prefix_agrees (g : Globals) : Prop :=
  Py.truthy (templateNamespace g) = true ->
  templatePrefix g = templateNamespace g +:+ ":".

(** The state [load_templates] ends in, returning or raising. *)
Definition ending_state (e : LoadTemplates.ending) : LoadTemplates.LState :=
  match e with
  | LoadTemplates.Returned st => st
  | LoadTemplates.Raised st => st
  end.

(** ** States of the pipeline *)

(** The number of items of [l] that satisfy [p]. *)
Definition count {A : Type} (p : A -> bool) (l : list A) : nat :=
  length (List.filter p l).

Definition is_sentinel {A : Type} (x : option A) : bool :=
  match x with None => true | Some _ => false end.

Definition is_start_worker (a : action) : bool :=
  match a with StartWorker _ => true | _ => false end.



Definition exited (x : Pipeline.worker) : bool :=
  match x with Pipeline.Exited => true | _ => false end.

Definition busy (x : Pipeline.worker) : bool :=
  match x with Pipeline.Busy _ => true | _ => false end.

(** What the reducer writes for a result. *)
Definition write_of (r : Result) : string * string * string :=
  (res_id r, res_title r, res_text r).

(** The pages still to be written, where they are: results on the result
    queue, results in the hands of the workers, jobs on the job queue and
    jobs the main line of control has yet to put. *)
Definition ready (oq : list (option Result))
    : list (string * string * string) :=
  omap (fun x => write_of <$> x) oq.

Definition in_hand (ws : list Pipeline.worker)
    : list (string * string * string) :=
  omap (fun x => match x with
                 | Pipeline.Busy r => Some (write_of r)
                 | _ => None
                 end) ws.

Definition queued (extract : Job -> string) (jq : list (option Job))
    : list (string * string * string) :=
  omap (fun x => written_of extract <$> x) jq.

Definition to_put (extract : Job -> string) (m : list action)
    : list (string * string * string) :=
  omap (fun a => match a with
                 | PutJob (Some j) => Some (written_of extract j)
                 | _ => None
                 end) m.

(** The pages written and the pages still to be written, from the oldest
    to the newest when there is one worker. *)
Definition pages (extract : Job -> string) (s : Pipeline.Sys)
    : list (string * string * string) :=
  Pipeline.written s ++ ready (Pipeline.output_queue s)
  ++ in_hand (Pipeline.workers s)
  ++ queued extract (Pipeline.jobs_queue s)
  ++ to_put extract (Pipeline.main s).


(** A step of the system, whoever takes it. *)
Inductive trans (extract : Job -> string) (maxsize : Z)
    : Pipeline.Sys -> Pipeline.Sys -> Prop :=
| t_start_reduce m jq oq ws r wr :
    trans extract maxsize
      (Pipeline.mkSys (StartReduce :: m) jq oq ws r wr)
      (Pipeline.mkSys m jq oq ws Pipeline.RRunning wr)
| t_start_worker w m jq oq ws r wr :
    trans extract maxsize
      (Pipeline.mkSys (StartWorker w :: m) jq oq ws r wr)
      (Pipeline.mkSys m jq oq (ws ++ [Pipeline.Idle]) r wr)
| t_put_job j m jq oq ws r wr :
    Pipeline.full maxsize jq = false ->
    trans extract maxsize
      (Pipeline.mkSys (PutJob j :: m) jq oq ws r wr)
      (Pipeline.mkSys m (jq ++ [j]) oq ws r wr)
| t_join_worker w m jq oq ws r wr :
    ws !! w = Some Pipeline.Exited ->
    trans extract maxsize
      (Pipeline.mkSys (JoinWorker w :: m) jq oq ws r wr)
      (Pipeline.mkSys m jq oq ws r wr)
| t_put_output x m jq oq ws r wr :
    Pipeline.full maxsize oq = false ->
    trans extract maxsize
      (Pipeline.mkSys (PutOutput x :: m) jq oq ws r wr)
      (Pipeline.mkSys m jq (oq ++ [x]) ws r wr)
| t_join_reduce m jq oq ws wr :
    trans extract maxsize
      (Pipeline.mkSys (JoinReduce :: m) jq oq ws Pipeline.RStopped wr)
      (Pipeline.mkSys m jq oq ws Pipeline.RStopped wr)
| t_get_job w j m jq oq ws r wr :
    ws !! w = Some Pipeline.Idle ->
    trans extract maxsize
      (Pipeline.mkSys m (Some j :: jq) oq ws r wr)
      (Pipeline.mkSys m jq oq
         (<[w := Pipeline.Busy (result_of extract j)]> ws) r wr)
| t_get_sentinel w m jq oq ws r wr :
    ws !! w = Some Pipeline.Idle ->
    trans extract maxsize
      (Pipeline.mkSys m (None :: jq) oq ws r wr)
      (Pipeline.mkSys m jq oq (<[w := Pipeline.Exited]> ws) r wr)
| t_put_result w x m jq oq ws r wr :
    ws !! w = Some (Pipeline.Busy x) ->
    Pipeline.full maxsize oq = false ->
    trans extract maxsize
      (Pipeline.mkSys m jq oq ws r wr)
      (Pipeline.mkSys m jq (oq ++ [Some x]) (<[w := Pipeline.Idle]> ws) r wr)
| t_pop_result x m jq oq ws wr :
    trans extract maxsize
      (Pipeline.mkSys m jq (Some x :: oq) ws Pipeline.RRunning wr)
      (Pipeline.mkSys m jq oq ws Pipeline.RRunning (wr ++ [write_of x]))
| t_pop_sentinel m jq oq ws wr :
    trans extract maxsize
      (Pipeline.mkSys m jq (None :: oq) ws Pipeline.RRunning wr)
      (Pipeline.mkSys m jq oq ws Pipeline.RStopped wr).

(** The place of an action in the program order of [process_dump]. *)
Definition rank (a : action) : nat :=
  match a with
  | StartReduce => 0
  | StartWorker _ => 1
  | PutJob (Some _) => 2
  | PutJob None => 3
  | JoinWorker _ => 4
  | PutOutput _ => 5
  | JoinReduce => 6
  end.

(** [b] may come after [a]: its place is not an earlier one, and after
    the put on the result queue only the join of the reducer comes. *)
Definition follows (a b : action) : Prop :=
  (rank a <= rank b)%nat /\ (rank a = 5%nat -> rank b = 6%nat).

Fixpoint in_order (l : list action) : Prop :=
  match l with
  | [] => True
  | a :: l' => Forall (follows a) l' /\ in_order l'
  end.

(** The main line of control puts no result on the result queue, only
    the sentinel. *)
Definition script_action (a : action) : Prop :=
  match a with PutOutput (Some _) => False | _ => True end.

(** On the job queue the jobs come before the sentinels. *)
Fixpoint jobs_first (q : list (option Job)) : Prop :=
  match q with
  | [] => True
  | Some _ :: q' => jobs_first q'
  | None :: q' => Forall (eq None) q'
  end.

Definition no_job_left (m : list action) : Prop :=
  forall j, PutJob (Some j) ∉ m.

(** What holds of every state the pipeline reaches with [n] workers. *)
Record pipe_inv (n : nat) (s : Pipeline.Sys) : Prop := mkPipeInv {
  pi_order : in_order (Pipeline.main s);
  pi_script : Forall script_action (Pipeline.main s);
  pi_joins :
    forall w, (w < n)%nat ->
      Pipeline.workers s !! w = Some Pipeline.Exited
      \/ JoinWorker w ∈ Pipeline.main s;
  pi_join_ids : forall w, JoinWorker w ∈ Pipeline.main s -> (w < n)%nat;
  pi_workers :
    (length (Pipeline.workers s) + count is_start_worker (Pipeline.main s)
     = n)%nat;
  pi_started :
    Forall (fun x => x <> Pipeline.NotStarted) (Pipeline.workers s);
  pi_sentinels :
    (count exited (Pipeline.workers s)
     + count is_sentinel (Pipeline.jobs_queue s)
     + count is_job_sentinel (Pipeline.main s) = n)%nat;
  pi_jobs_first : jobs_first (Pipeline.jobs_queue s);
  pi_jq_none :
    None ∈ Pipeline.jobs_queue s -> no_job_left (Pipeline.main s);
  pi_exited :
    (exists w, Pipeline.workers s !! w = Some Pipeline.Exited) ->
    Forall (eq None) (Pipeline.jobs_queue s)
    /\ no_job_left (Pipeline.main s);
  pi_out_put :
    Pipeline.reduce s = Pipeline.RStopped \/ None ∈ Pipeline.output_queue s ->
    PutOutput None ∉ Pipeline.main s;
  pi_out_left :
    PutOutput None ∈ Pipeline.main s
    \/ Forall (eq JoinReduce) (Pipeline.main s);
  pi_out_shape :
    PutOutput None ∉ Pipeline.main s ->
    (Pipeline.reduce s = Pipeline.RStopped /\ Pipeline.output_queue s = [])
    \/ (Pipeline.reduce s <> Pipeline.RStopped
        /\ exists rs, Pipeline.output_queue s = (Some <$> rs) ++ [None]);
  pi_reduce :
    Pipeline.reduce s = Pipeline.RNotStarted ->
    exists rest, Pipeline.main s = StartReduce :: rest;
  pi_join_reduce :
    JoinReduce ∈ Pipeline.main s \/ Pipeline.reduce s = Pipeline.RStopped
}.

(** Both queues hold at most [maxsize] items. *)
Definition within_bound (maxsize : Z) (s : Pipeline.Sys) : Prop :=
  Z.of_nat (length (Pipeline.jobs_queue s)) <= maxsize
  /\ Z.of_nat (length (Pipeline.output_queue s)) <= maxsize.

(** The path of the file [write_page] writes for a title. *)
Definition page_path (self : PageWriter) (title : string) : string :=
  path_join (output_dir self) (get_safe_filename title).

(** An execution with two workers in which the second job overtakes the
    first: worker 0 gets the first job, worker 1 the second, and worker 1
    is the first to put its result. *)
Definition overtaking : list Pipeline.choice :=
  [ Pipeline.CMain; Pipeline.CMain; Pipeline.CMain; Pipeline.CMain;
    Pipeline.CMain;
    Pipeline.CWorker 0; Pipeline.CWorker 1;
    Pipeline.CWorker 1; Pipeline.CWorker 0;
    Pipeline.CReduce; Pipeline.CReduce;
    Pipeline.CMain; Pipeline.CMain;
    Pipeline.CWorker 0; Pipeline.CWorker 1;
    Pipeline.CMain; Pipeline.CMain; Pipeline.CMain;
    Pipeline.CReduce; Pipeline.CMain ].

(** A job and a complete schedule for it with one worker. *)
Definition sample_job : Job :=
  mkJob "1" EmptyString "http://x.org/wiki" "Hello" ["body"] 0.

Definition sample_schedule : list Pipeline.choice :=
  [ Pipeline.CMain; Pipeline.CMain; Pipeline.CMain; Pipeline.CMain;
    Pipeline.CWorker 0; Pipeline.CWorker 0; Pipeline.CWorker 0;
    Pipeline.CMain; Pipeline.CMain;
    Pipeline.CReduce; Pipeline.CReduce; Pipeline.CMain ].

Definition sample_extract (j : Job) : string := Py.join (job_page j).

Definition sample_final : Pipeline.Sys :=
  Pipeline.mkSys [] [] [] [Pipeline.Exited] Pipeline.RStopped
    [("1", "Hello", "body")].

Definition sample_trace : list Pipeline.event :=
  [ Pipeline.EMain StartReduce; Pipeline.EMain (StartWorker 0);
    Pipeline.EMain (PutJob (Some sample_job)); Pipeline.EMain (PutJob None);
    Pipeline.EGet 0 (Some sample_job);
    Pipeline.EPut 0 (mkResult 0 "1" "Hello" "body");
    Pipeline.EGet 0 None; Pipeline.EMain (JoinWorker 0);
    Pipeline.EMain (PutOutput None);
    Pipeline.EPop (Some (mkResult 0 "1" "Hello" "body"));
    Pipeline.EPop None; Pipeline.EMain JoinReduce ].

(** The path of the file a call [write_page(id, title, text)] writes. *)
Definition call_path (self : PageWriter) (c : string * string * string)
    : string :=
  page_path self c.1.2.

(** The files after the calls [calls] when every one of them returns. *)
Definition written_files (self : PageWriter) (fs : gmap string string)
    (calls : list (string * string * string)) : gmap string string :=
  foldl (fun fs' c => <[call_path self c := c.2]> fs') fs calls.

(** [n] times the character [c]. *)
Fixpoint repeated (n : nat) (c : ascii) : string :=
  match n with
  | O => EmptyString
  | S n' => String c (repeated n' c)
  end.

(** A title of 130 letters e with an acute accent: 130 characters, 260
    bytes. *)
Definition accented_title : string := repeated 130 (Ascii.ascii_of_nat 233).

(** ** The mirror of the templates *)

(** The text of the mirror for the pages [blocks], each a title and its
    buffered lines. *)
Definition mirror_of (blocks : list (string * list string)) : string :=
  Py.join ((fun b => mirror_page b.1 b.2) <$> blocks).

(** The page a line closes when it is read in state [st]: the title and
    the buffered lines, when the line has the tag [/page], is read outside
    a text element and the title is bound. *)
Definition closed_page (st : LoadTemplates.LState) (line : string)
    : option (string * list string) :=
  match tag_of line with
  | Some tag =>
      if String.eqb tag "/page" && negb (LoadTemplates.inText st)
      then (fun t => (t, LoadTemplates.page st)) <$> LoadTemplates.title st
      else None
  | None => None
  end.

(** The pages [load_templates] closes on the lines [file], read from
    state [st] on, in the order of the file. *)
Fixpoint closed_pages (out : bool) (st : LoadTemplates.LState)
    (file : list string) : list (string * list string) :=
  match file with
  | [] => []
  | line :: rest =>
      match LoadTemplates.step out st line with
      | LoadTemplates.Unbound => []
      | LoadTemplates.Next st' =>
          option_list (closed_page st line) ++ closed_pages out st' rest
      end
  end.

(** The pages that go to the mirror: those whose title starts with the
    template prefix or with the module prefix. *)
Definition mirrored (template_prefix module_prefix : string)
    (b : string * list string) : bool :=
  Py.startswith b.1 template_prefix || Py.startswith b.1 module_prefix.

(** * Properties *)

(** ** The scanner on concrete lines *)

Example scan_open_close :
  tagRE_search ("<text>bar</text>" +:+ nl)
  = Some (mkMatch EmptyString "text" "bar" (Some "</text>")).
Proof. vm_compute. reflexivity. Qed.

Example scan_open_only :
  tagRE_search ("      <text bytes=" +:+ String Header.dquote "5"
                +:+ String Header.dquote ">line1" +:+ nl)
  = Some (mkMatch "      " "text" ("line1" +:+ nl) None).
Proof. vm_compute. reflexivity. Qed.

Example scan_close :
  tagRE_search ("line3</text>" +:+ nl)
  = Some (mkMatch "line3" "/text" nl None).
Proof. vm_compute. reflexivity. Qed.

Example scan_no_tag : tagRE_search ("a < b" +:+ nl) = None.
Proof. vm_compute. reflexivity. Qed.

(** ** Lines without an angle bracket *)

Section FastReject.
Import CollectPages.

Lemma collect_step_no_angle acc tn search st line :
  has_angle line = false ->
  step_with acc tn search st line
  = Next (if inText st then append_line st line else st) None.
Proof. intros H. unfold step_with. rewrite H. reflexivity. Qed.
End FastReject.

Lemma load_step_no_angle out search st line :
  has_angle line = false ->
  LoadTemplates.step_with out search st line
  = LoadTemplates.Next
      (if LoadTemplates.inText st
       then LoadTemplates.set_page st (LoadTemplates.page st ++ [line]) true
       else st).
Proof. intros H. unfold LoadTemplates.step_with. rewrite H. reflexivity. Qed.

(** ** The yield test of the page collector *)

Section CollectFacts.
Import CollectPages.
Variable acc : gset string.
Variable tn : string.


(** Only the [/page] branch yields, and only when its test holds. *)
Lemma step_with_yield_inv search st line st' p :
  step_with acc tn search st line = Next st' (Some p) ->
  exists t,
    title st = Some t /\ yield_test acc tn st t = true
    /\ inText st = false
    /\ p = mkPage (id st) (revid st) t (page st)
    /\ st' = after_page st (id st).
Proof.
  unfold step_with, on_tag, end_page. intros H.
  repeat case_match; simplify_eq.
  eexists; repeat split; eauto.
  unfold after_page. congruence.
Qed.

Lemma step_with_keeps_last_id search st line st' :
  step_with acc tn search st line = Next st' None ->
  last_id st' = last_id st.
Proof.
  unfold step_with, on_tag, end_page, append_line. intros H.
  repeat case_match; simplify_eq; reflexivity.
Qed.

Lemma step_with_sets_last_id search st line st' p :
  step_with acc tn search st line = Next st' (Some p) ->
  last_id st' = rec_id p.
Proof.
  intros H. apply step_with_yield_inv in H as (t & _ & _ & _ & -> & ->).
  reflexivity.
Qed.
End CollectFacts.

Lemma startswith_empty s : Py.startswith s EmptyString = true.
Proof. destruct s; reflexivity. Qed.

Lemma yield_test_no_template_name acc st t :
  CollectPages.yield_test acc EmptyString st t = false.
Proof.
  unfold CollectPages.yield_test. rewrite startswith_empty.
  rewrite andb_false_r. reflexivity.
Qed.

Lemma run_no_template_name acc st text :
  fst (CollectPages.run acc EmptyString st text) = [].
Proof.
  revert st. induction text as [|line rest IH]; intros st; [reflexivity|].
  cbn [CollectPages.run]. unfold CollectPages.step.
  destruct (CollectPages.step_with _ _ _ st line) as [st' [p|]|] eqn:E;
    [|apply IH|reflexivity].
  apply step_with_yield_inv in E as (t & _ & Hy & _).
  rewrite yield_test_no_template_name in Hy. discriminate.
Qed.

(** C9. With the empty string as template namespace name, [collect_pages]
    yields no record, whatever the accepted namespaces and the input are:
    every title starts with the empty string, so the last conjunct of the
    yield test is false at every [/page]. *)
Theorem empty_template_namespace_yields_nothing
    (acceptedNamespaces : gset string) (text : list string) :
  fst (collect_pages acceptedNamespaces EmptyString text) = [].
Proof. apply run_no_template_name. Qed.

Example empty_template_namespace_drops_article :
  collect_pages ∅ EmptyString
    [ "<page>" +:+ nl; "<title>Hello</title>" +:+ nl; "<id>1</id>" +:+ nl;
      "<text>body</text>" +:+ nl; "</page>" +:+ nl ]
  = ([], CollectPages.Exhausted
           (CollectPages.mkC [] EmptyString EmptyString EmptyString false
              false (Some "Hello"))).
Proof. vm_compute. reflexivity. Qed.

(** ** Titles that begin with the template namespace name *)

(** C1. On the page titled "Template metaprogramming", with "Template" as
    template namespace name, the four conditions of the specification hold
    at the closing tag (no colon, an id unlike the last yielded one, no
    redirect, a title that does not start with "Template:"), and yet
    [collect_pages] yields nothing: its test compares the title with the
    bare namespace name. *)
Theorem template_like_title_is_dropped :
  CollectPages.run ∅ "Template" CollectPages.init template_like_page
  = ([], CollectPages.Exhausted template_like_state)
  /\ spec_yield_test ∅ "Template" template_like_state
       "Template metaprogramming" = true
  /\ CollectPages.yield_test ∅ "Template" template_like_state
       "Template metaprogramming" = false
  /\ fst (collect_pages ∅ "Template"
            (template_like_page ++ ["</page>" +:+ nl])) = [].
Proof. repeat split; vm_compute; reflexivity. Qed.

(** The same page is yielded when its title does not start with the
    namespace name. *)
Example other_title_is_yielded :
  fst (collect_pages ∅ "Template"
         [ "<page>" +:+ nl; "<title>Metaprogramming</title>" +:+ nl;
           "<id>1</id>" +:+ nl; "<text>body</text>" +:+ nl;
           "</page>" +:+ nl ])
  = [mkPage "1" EmptyString "Metaprogramming" ["body"]].
Proof. vm_compute. reflexivity. Qed.

(** ** The duplicate filter *)

Section Dedup.
Import CollectPages.
Variable acc : gset string.
Variable tn : string.

Lemma yield_test_split st t :
  yield_test acc tn st t
  = qualifies acc tn st t && negb (String.eqb (id st) (last_id st)).
Proof.
  unfold yield_test, qualifies.
  repeat match goal with |- context [negb ?b] => destruct (negb b) end;
    repeat match goal with |- context [?a || ?b] => destruct (a || b) end;
    reflexivity.
Qed.




Lemma run_app st a b :
  run acc tn st (a ++ b)
  = match run acc tn st a with
    | (ys, Exhausted st') =>
        (ys ++ fst (run acc tn st' b), snd (run acc tn st' b))
    | (ys, Raised) => (ys, Raised)
    end.
Proof.
  revert st. induction a as [|x a IH]; intros st.
  - cbn. destruct (run acc tn st b); reflexivity.
  - cbn [app run]. destruct (step acc tn st x) as [st' y|]; [|reflexivity].
    rewrite IH. destruct (run acc tn st' a) as [ys [s|]]; destruct y;
      reflexivity.
Qed.

(** The ids of the records yielded from [st] on: none equals the id
    yielded before it, nor the first one [last_id st]. *)
Lemma yielded_ids_no_repeat st text :
  no_repeat (last_id st) (rec_id <$> fst (run acc tn st text)).
Proof.
  revert st. induction text as [|x text IH]; intros st; [exact I|].
  cbn [run]. unfold step.
  destruct (step_with acc tn tagRE_search st x) as [s1 [p|]|] eqn:E;
    [| |exact I].
  - cbn [fst fmap list_fmap no_repeat].
    pose proof (step_with_sets_last_id _ _ _ _ _ _ _ E) as Hl.
    apply step_with_yield_inv in E as (t & _ & Hy & _ & -> & _).
    cbn [rec_id] in *. split.
    + rewrite yield_test_split in Hy. apply andb_true_iff in Hy as [_ Hy].
      apply negb_true_iff, String.eqb_neq in Hy. congruence.
    + rewrite <- Hl. apply IH.
  - cbn [fst]. rewrite <- (step_with_keeps_last_id _ _ _ _ _ _ E). apply IH.
Qed.
End Dedup.



(** ** The read of [title] at a [/page] *)

Lemma tag_of_Some line tag :
  tag_of line = Some tag ->
  has_angle line = true
  /\ exists m, tagRE_search line = Some m /\ group2 m = tag.
Proof.
  unfold tag_of. destruct (has_angle line); [|discriminate].
  destruct (tagRE_search line) as [m|]; [|discriminate].
  intros [= <-]. eauto.
Qed.

Lemma tag_of_matched line m :
  has_angle line = true -> tagRE_search line = Some m ->
  tag_of line = Some (group2 m).
Proof. intros Ha Hm. unfold tag_of. rewrite Ha, Hm. reflexivity. Qed.

Ltac tag_cases :=
  repeat match goal with
    | H : String.eqb _ _ = true |- _ => apply String.eqb_eq in H
    | H : String.eqb _ _ = false |- _ => apply String.eqb_neq in H
    | H : negb _ = false |- _ => apply negb_false_iff in H
    | H : negb _ = true |- _ => apply negb_true_iff in H
    end.

Section CollectTitle.
Import CollectPages.
Variable acc : gset string.
Variable tn : string.

Lemma collect_step_unbound st line :
  step acc tn st line = Unbound <->
  tag_of line = Some "/page" /\ inText st = false /\ title st = None.
Proof.
  split.
  - unfold step, step_with, on_tag, end_page. intros H.
    repeat case_match; simplify_eq. tag_cases.
    erewrite tag_of_matched by eassumption. repeat split; congruence.
  - intros (Ht & Hi & Hn). apply tag_of_Some in Ht as (Ha & m & Hm & Hg).
    unfold step, step_with, on_tag, end_page.
    rewrite Ha, Hm, Hg, Hi, Hn. reflexivity.
Qed.

Lemma collect_step_title st line :
  tag_of line = Some "title" ->
  exists st', step acc tn st line = Next st' None /\ is_Some (title st').
Proof.
  intros Ht. apply tag_of_Some in Ht as (Ha & m & Hm & Hg).
  unfold step, step_with, on_tag. rewrite Ha, Hm, Hg. cbn.
  eexists. split; [reflexivity|]. cbn. eauto.
Qed.

Lemma collect_step_keeps_title st line st' y :
  step acc tn st line = Next st' y ->
  is_Some (title st) -> is_Some (title st').
Proof.
  unfold step, step_with, on_tag, end_page, append_line. intros H Hs.
  repeat case_match; simplify_eq; cbn; eauto.
Qed.

Lemma collect_step_other st line st' y :
  tag_of line <> Some "title" ->
  step acc tn st line = Next st' y -> title st' = title st.
Proof.
  unfold step, step_with, on_tag, end_page, append_line. intros Hn H.
  repeat case_match; simplify_eq; cbn; try reflexivity; try congruence.
  tag_cases. exfalso. apply Hn.
  erewrite tag_of_matched by eassumption. congruence.
Qed.

Lemma collect_bound_never_raises st text :
  is_Some (title st) -> snd (run acc tn st text) <> Raised.
Proof.
  revert st. induction text as [|x text IH]; intros st Hs; [discriminate|].
  cbn [run]. destruct (step acc tn st x) as [st' y|] eqn:E.
  - cbn. eapply IH, collect_step_keeps_title; eassumption.
  - apply collect_step_unbound in E as (_ & _ & E).
    rewrite E in Hs. destruct Hs; discriminate.
Qed.

Lemma collect_no_close_tag st pre :
  Forall (fun x => tag_of x <> Some "/page") pre ->
  exists ys st', run acc tn st pre = (ys, Exhausted st').
Proof.
  intros H. revert st. induction H as [|x pre Hx _ IH]; intros st.
  - cbn. eauto.
  - cbn [run]. destruct (step acc tn st x) as [st' y|] eqn:E.
    + destruct (IH st') as (ys & st'' & ->). cbn. eauto.
    + apply collect_step_unbound in E as (E & _). contradiction.
Qed.

Lemma collect_no_title_line st pre ys st' :
  Forall (fun x => tag_of x <> Some "title") pre ->
  run acc tn st pre = (ys, Exhausted st') -> title st' = title st.
Proof.
  intros H. revert st ys. induction H as [|x pre Hx _ IH]; intros st ys.
  - cbn. intros [= _ ->]. reflexivity.
  - cbn [run]. destruct (step acc tn st x) as [s1 y|] eqn:E; [|discriminate].
    destruct (run acc tn s1 pre) as [ys1 e1] eqn:R. cbn. intros [= _ ->].
    erewrite IH by eassumption. eapply collect_step_other; eassumption.
Qed.

(** A title line before the first [/page] line: no read of [title] is
    unbound. *)
Lemma collect_title_first pre l post :
  tag_of l = Some "title" ->
  Forall (fun x => tag_of x <> Some "/page") pre ->
  snd (collect_pages acc tn (pre ++ l :: post)) <> Raised.
Proof.
  intros Hl Hpre. unfold collect_pages. rewrite run_app.
  destruct (collect_no_close_tag init pre Hpre) as (ys & st & ->).
  cbn [run snd].
  destruct (collect_step_title st l Hl) as (st' & -> & Hs). cbn.
  apply collect_bound_never_raises. exact Hs.
Qed.

(** A [/page] line read outside a text element before any title line:
    the read of [title] fails. *)
Lemma collect_page_end_first pre l post :
  tag_of l = Some "/page" ->
  Forall (fun x => tag_of x <> Some "title") pre ->
  match collect_pages acc tn pre with
  | (_, Exhausted st) => inText st = false
  | (_, Raised) => True
  end ->
  snd (collect_pages acc tn (pre ++ l :: post)) = Raised.
Proof.
  intros Hl Hpre. unfold collect_pages. rewrite run_app.
  destruct (run acc tn init pre) as [ys [st|]] eqn:R; [|reflexivity].
  intros Hi. cbn [run snd].
  assert (Hu : step acc tn st l = Unbound).
  { apply collect_step_unbound. repeat split; try assumption.
    erewrite collect_no_title_line by eassumption. reflexivity. }
  rewrite Hu. reflexivity.
Qed.
End CollectTitle.

Section LoadTitle.
Import LoadTemplates.
Variable out : bool.

Lemma load_run_app st a b :
  run out st (a ++ b)
  = match run out st a with
    | Returned st' => run out st' b
    | Raised st' => Raised st'
    end.
Proof.
  revert st. induction a as [|x a IH]; intros st; [reflexivity|].
  cbn [app run]. destruct (step out st x); [apply IH|reflexivity].
Qed.

Lemma load_step_unbound st line :
  step out st line = Unbound <->
  tag_of line = Some "/page" /\ inText st = false /\ title st = None.
Proof.
  split.
  - unfold step, step_with, on_tag, end_page. intros H.
    repeat case_match; simplify_eq. tag_cases.
    erewrite tag_of_matched by eassumption. repeat split; congruence.
  - intros (Ht & Hi & Hn). apply tag_of_Some in Ht as (Ha & m & Hm & Hg).
    unfold step, step_with, on_tag, end_page.
    rewrite Ha, Hm, Hg, Hi, Hn. reflexivity.
Qed.

Lemma load_step_title st line :
  tag_of line = Some "title" ->
  exists st', step out st line = Next st' /\ is_Some (title st').
Proof.
  intros Ht. apply tag_of_Some in Ht as (Ha & m & Hm & Hg).
  unfold step, step_with, on_tag. rewrite Ha, Hm, Hg. cbn.
  eexists. split; [reflexivity|]. cbn. eauto.
Qed.

Lemma load_step_keeps_title st line st' :
  step out st line = Next st' ->
  is_Some (title st) -> is_Some (title st').
Proof.
  unfold step, step_with, on_tag, end_page, on_title, set_page.
  intros H Hs. repeat case_match; simplify_eq; cbn; eauto.
Qed.

Lemma load_step_other st line st' :
  tag_of line <> Some "title" ->
  step out st line = Next st' -> title st' = title st.
Proof.
  unfold step, step_with, on_tag, end_page, set_page. intros Hn H.
  repeat case_match; simplify_eq; cbn; try reflexivity; try congruence.
  tag_cases. exfalso. apply Hn.
  erewrite tag_of_matched by eassumption. congruence.
Qed.

Lemma load_bound_never_raises st text :
  is_Some (title st) -> raised (run out st text) = false.
Proof.
  revert st. induction text as [|x text IH]; intros st Hs; [reflexivity|].
  cbn [run]. destruct (step out st x) as [st'|] eqn:E.
  - eapply IH, load_step_keeps_title; eassumption.
  - apply load_step_unbound in E as (_ & _ & E).
    rewrite E in Hs. destruct Hs; discriminate.
Qed.

Lemma load_no_close_tag st pre :
  Forall (fun x => tag_of x <> Some "/page") pre ->
  exists st', run out st pre = Returned st'.
Proof.
  intros H. revert st. induction H as [|x pre Hx _ IH]; intros st.
  - cbn. eauto.
  - cbn [run]. destruct (step out st x) as [st'|] eqn:E; [apply IH|].
    apply load_step_unbound in E as (E & _). contradiction.
Qed.

Lemma load_no_title_line st pre st' :
  Forall (fun x => tag_of x <> Some "title") pre ->
  run out st pre = Returned st' -> title st' = title st.
Proof.
  intros H. revert st. induction H as [|x pre Hx _ IH]; intros st.
  - cbn. intros [= ->]. reflexivity.
  - cbn [run]. destruct (step out st x) as [s1|] eqn:E; [|discriminate].
    intros R. erewrite IH by eassumption.
    eapply load_step_other; eassumption.
Qed.

Lemma load_title_first st pre l post :
  tag_of l = Some "title" ->
  Forall (fun x => tag_of x <> Some "/page") pre ->
  raised (run out st (pre ++ l :: post)) = false.
Proof.
  intros Hl Hpre. rewrite load_run_app.
  destruct (load_no_close_tag st pre Hpre) as (s1 & ->).
  cbn [run]. destruct (load_step_title s1 l Hl) as (s2 & -> & Hs).
  apply load_bound_never_raises. exact Hs.
Qed.

Lemma load_page_end_first st pre l post :
  title st = None ->
  tag_of l = Some "/page" ->
  Forall (fun x => tag_of x <> Some "title") pre ->
  match run out st pre with
  | Returned st' => inText st' = false
  | Raised _ => True
  end ->
  raised (run out st (pre ++ l :: post)) = true.
Proof.
  intros Hn Hl Hpre. rewrite load_run_app.
  destruct (run out st pre) as [s1|s1] eqn:R; [|reflexivity].
  intros Hi. cbn [run].
  assert (Hu : step out s1 l = Unbound).
  { apply load_step_unbound. repeat split; try assumption.
    erewrite load_no_title_line by eassumption. exact Hn. }
  rewrite Hu. reflexivity.
Qed.
End LoadTitle.

(** C10. In both collectors the read of [title] in the [/page] branch is
    defined whenever a line with tag [title] comes before the first line
    with tag [/page]: the run does not fail. It fails when a line with tag
    [/page] comes before every line with tag [title] and is not read
    inside an open text element. *)
Theorem title_read_at_page_end
    (acc : gset string) (tn : string) (g : Globals)
    (output_file : option string) (pre : list string) (l : string)
    (post : list string) :
  (tag_of l = Some "title" ->
   Forall (fun x => tag_of x <> Some "/page") pre ->
   snd (collect_pages acc tn (pre ++ l :: post)) <> CollectPages.Raised
   /\ raised (load_templates g (pre ++ l :: post) output_file) = false)
  /\ (tag_of l = Some "/page" ->
      Forall (fun x => tag_of x <> Some "title") pre ->
      (match collect_pages acc tn pre with
       | (_, CollectPages.Exhausted st) => CollectPages.inText st = false
       | (_, CollectPages.Raised) => True
       end ->
       snd (collect_pages acc tn (pre ++ l :: post)) = CollectPages.Raised)
      /\ (match load_templates g pre output_file with
          | LoadTemplates.Returned st => LoadTemplates.inText st = false
          | LoadTemplates.Raised _ => True
          end ->
          raised (load_templates g (pre ++ l :: post) output_file) = true)).
Proof.
  split.
  - intros Hl Hpre. split.
    + apply collect_title_first; assumption.
    + apply load_title_first; assumption.
  - intros Hl Hpre. split.
    + apply collect_page_end_first; assumption.
    + apply load_page_end_first; [reflexivity|assumption..].
Qed.

Lemma title_read_at_page_end_witness :
  (snd (collect_pages ∅ "Template"
          (["<page>"] ++ "<title>T</title>" :: ["</page>"]))
   <> CollectPages.Raised
   /\ raised (load_templates (initial_globals ∅ "Template:")
                (["<page>"] ++ "<title>T</title>" :: ["</page>"]) None)
      = false)
  /\ snd (collect_pages ∅ "Template" (["<page>"] ++ "</page>" :: []))
     = CollectPages.Raised
  /\ raised (load_templates (initial_globals ∅ "Template:")
               (["<page>"] ++ "</page>" :: []) None) = true.
Proof.
  split; [|split].
  - apply (proj1 (title_read_at_page_end ∅ "Template"
                    (initial_globals ∅ "Template:") None
                    ["<page>"] "<title>T</title>" ["</page>"])).
    + vm_compute; reflexivity.
    + repeat constructor. intros H. vm_compute in H. discriminate.
  - apply (proj2 (title_read_at_page_end ∅ "Template"
                    (initial_globals ∅ "Template:") None
                    ["<page>"] "</page>" [])).
    + vm_compute; reflexivity.
    + repeat constructor. intros H. vm_compute in H. discriminate.
    + vm_compute; reflexivity.
  - apply (proj2 (title_read_at_page_end ∅ "Template"
                    (initial_globals ∅ "Template:") None
                    ["<page>"] "</page>" [])).
    + vm_compute; reflexivity.
    + repeat constructor. intros H. vm_compute in H. discriminate.
    + vm_compute; reflexivity.
Defined.

(** The last clause of C10 as it is worded (a first [/page] line before
    any title line makes the run fail) does not hold when that line is
    read inside an open text element: it is buffered as body text. *)
Lemma page_end_inside_text_is_buffered :
  let text := ["<text>body" +:+ nl; "</page>" +:+ nl] in
  tag_of ("</page>" +:+ nl) = Some "/page"
  /\ Forall (fun x => tag_of x <> Some "title") text
  /\ collect_pages ∅ "Template" text
     = ([], CollectPages.Exhausted
              (CollectPages.mkC ["body" +:+ nl; "</page>" +:+ nl]
                 EmptyString EmptyString EmptyString true false None))
  /\ raised (load_templates (initial_globals ∅ "Template:") text None)
     = false.
Proof.
  intros text. split; [vm_compute; reflexivity|].
  split; [repeat constructor; intros H; vm_compute in H; discriminate|].
  split; vm_compute; reflexivity.
Qed.

(** ** The base URL *)

Lemma rfind_found c s : 0 <= Py.rfind c s <-> Py.has_char c s = true.
Proof.
  induction s as [|d s IH]; cbn [Py.rfind Py.has_char].
  - split; [lia|discriminate].
  - destruct (0 <=? Py.rfind c s) eqn:E.
    + apply Z.leb_le in E. split; [intros _|lia].
      destruct (Ascii.eqb c d); [reflexivity|]. apply IH. exact E.
    + apply Z.leb_gt in E. destruct (Ascii.eqb c d).
      * split; [reflexivity|lia].
      * split; [lia|]. intros H. apply IH in H. lia.
Qed.

Lemma rfind_split c s :
  Py.has_char c s = true ->
  exists rest,
    s = Py.take (Z.to_nat (Py.rfind c s)) s +:+ String c rest
    /\ Py.has_char c rest = false.
Proof.
  induction s as [|d s IH]; [discriminate|].
  intros H. cbn [Py.rfind].
  destruct (0 <=? Py.rfind c s) eqn:E.
  - apply Z.leb_le in E.
    destruct (IH (proj1 (rfind_found c s) E)) as (rest & Hs & Hr).
    exists rest. split; [|exact Hr].
    replace (Z.to_nat (Py.rfind c s + 1)) with (S (Z.to_nat (Py.rfind c s)))
      by lia.
    cbn [Py.take].
    change (String d s
            = String d (Py.take (Z.to_nat (Py.rfind c s)) s +:+ String c rest)).
    f_equal. exact Hs.
  - apply Z.leb_gt in E. cbn [Py.has_char] in H.
    destruct (Ascii.eqb c d) eqn:Ecd.
    + apply Ascii.eqb_eq in Ecd as <-. exists s. split; [reflexivity|].
      destruct (Py.has_char c s) eqn:Hc; [|reflexivity].
      apply rfind_found in Hc. lia.
    + apply rfind_found in H. lia.
Qed.

Lemma base_url_with_slash b :
  Py.has_char "/" b = true -> path_up_to_last_slash b (Header.base_url b).
Proof.
  intros H. destruct (rfind_split _ _ H) as (rest & Hs & Hr).
  exists rest. split; [|exact Hr].
  unfold Header.base_url, Py.slice_to.
  pose proof (proj2 (rfind_found "/" b) H) as Hpos.
  destruct (Py.rfind "/" b <? 0) eqn:E; [apply Z.ltb_lt in E; lia|].
  exact Hs.
Qed.

Lemma on_line_base h line m :
  tagRE_search line = Some m -> group2 m = "base" ->
  Header.on_line h line
  = (Header.mkH (Header.base_url (group3 m)) (Header.globals h), false).
Proof. intros Hm Hg. unfold Header.on_line. rewrite Hm, Hg. reflexivity. Qed.

(** C7. On a header line whose tag is [base] and whose payload [b] has a
    slash, the header reader sets the base URL to the part of [b] before
    its last slash. *)
Theorem base_url_is_path_up_to_last_slash
    (h : Header.HState) (line : string) (m : Match) :
  tagRE_search line = Some m ->
  group2 m = "base" ->
  Py.has_char "/" (group3 m) = true ->
  path_up_to_last_slash (group3 m)
    (Header.urlbase (fst (Header.on_line h line))).
Proof.
  intros Hm Hg Hs. rewrite (on_line_base _ _ _ Hm Hg). cbn.
  apply base_url_with_slash. exact Hs.
Qed.

Lemma base_url_is_path_up_to_last_slash_witness :
  path_up_to_last_slash "http://en.wikipedia.org/wiki/Main_Page"
    (Header.urlbase
       (fst (Header.on_line
               (Header.mkH EmptyString (initial_globals ∅ EmptyString))
               "<base>http://en.wikipedia.org/wiki/Main_Page</base>"))).
Proof.
  apply (base_url_is_path_up_to_last_slash
           (Header.mkH EmptyString (initial_globals ∅ EmptyString))
           "<base>http://en.wikipedia.org/wiki/Main_Page</base>"
           (mkMatch EmptyString "base"
              "http://en.wikipedia.org/wiki/Main_Page" (Some "</base>"))).
  - vm_compute; reflexivity.
  - reflexivity.
  - vm_compute; reflexivity.
Defined.

Example base_url_of_dump :
  Header.base_url "http://en.wikipedia.org/wiki/Main_Page"
  = "http://en.wikipedia.org/wiki".
Proof. vm_compute. reflexivity. Qed.

(** For a payload without a slash the claim of C7 fails: [rfind] gives
    [-1] and the slice drops the last character of the payload. *)
Lemma base_without_slash_loses_last_character :
  let h := Header.mkH EmptyString (initial_globals ∅ EmptyString) in
  tagRE_search "<base>abc</base>"
  = Some (mkMatch EmptyString "base" "abc" (Some "</base>"))
  /\ Header.urlbase (fst (Header.on_line h "<base>abc</base>")) = "ab"
  /\ ~ path_up_to_last_slash "abc"
         (Header.urlbase (fst (Header.on_line h "<base>abc</base>"))).
Proof.
  intros h. split; [vm_compute; reflexivity|].
  assert (E : Header.urlbase (fst (Header.on_line h "<base>abc</base>"))
              = "ab") by (vm_compute; reflexivity).
  split; [exact E|]. rewrite E. intros (rest & Hb & _).
  cbn in Hb. discriminate.
Qed.

(** ** Namespaces of the header *)

Lemma on_namespace_accepted g line name :
  acceptedNamespaces (Header.on_namespace g line name) = acceptedNamespaces g.
Proof. unfold Header.on_namespace. repeat case_match; reflexivity. Qed.

Lemma on_namespace_known g line name :
  knownNamespaces (Header.on_namespace g line name)
  = {[ name ]} ∪ knownNamespaces g.
Proof. unfold Header.on_namespace. repeat case_match; reflexivity. Qed.

Lemma on_namespace_store g line name :
  template_store (Header.on_namespace g line name) = template_store g.
Proof. unfold Header.on_namespace. repeat case_match; reflexivity. Qed.

Lemma on_line_accepted h line :
  acceptedNamespaces (Header.globals (fst (Header.on_line h line)))
  = acceptedNamespaces (Header.globals h).
Proof.
  unfold Header.on_line. repeat case_match; cbn; try reflexivity.
  apply on_namespace_accepted.
Qed.

Lemma on_line_store h line :
  template_store (Header.globals (fst (Header.on_line h line)))
  = template_store (Header.globals h).
Proof.
  unfold Header.on_line. repeat case_match; cbn; try reflexivity.
  apply on_namespace_store.
Qed.

Lemma read_accepted h input :
  acceptedNamespaces (Header.globals (fst (Header.read h input)))
  = acceptedNamespaces (Header.globals h).
Proof.
  revert h. induction input as [|line rest IH]; intros h; [reflexivity|].
  cbn [Header.read]. pose proof (on_line_accepted h line) as E.
  destruct (Header.on_line h line) as [h' stop]. cbn in E.
  destruct stop; [exact E|]. rewrite IH. exact E.
Qed.

Lemma read_store h input :
  template_store (Header.globals (fst (Header.read h input)))
  = template_store (Header.globals h).
Proof.
  revert h. induction input as [|line rest IH]; intros h; [reflexivity|].
  cbn [Header.read]. pose proof (on_line_store h line) as E.
  destruct (Header.on_line h line) as [h' stop]. cbn in E.
  destruct stop; [exact E|]. rewrite IH. exact E.
Qed.

Lemma yield_test_needs_accepted acc tn st t :
  0 <= Py.find ":" t ->
  Py.slice_to t (Py.find ":" t) ∉ acc ->
  CollectPages.yield_test acc tn st t = false.
Proof.
  intros Hc Hn. unfold CollectPages.yield_test.
  destruct (Py.find ":" t <? 0) eqn:E; [apply Z.ltb_lt in E; lia|].
  rewrite bool_decide_eq_false_2 by exact Hn. reflexivity.
Qed.

(** C5. A name harvested from a [namespace] tag of the header is added to
    [knownNamespaces]. The accepted-namespace set is another set: the
    header reader leaves it as it was, on that line and over the whole
    header, and the page collector consults only it, so that a title whose
    prefix is not in the accepted set fails the yield test whether or not
    the header declared the prefix. *)
Theorem header_namespace_is_known_not_accepted
    (h : Header.HState) (line : string) (m : Match) :
  tagRE_search line = Some m ->
  group2 m = "namespace" ->
  group3 m ∈ knownNamespaces (Header.globals (fst (Header.on_line h line)))
  /\ acceptedNamespaces (Header.globals (fst (Header.on_line h line)))
     = acceptedNamespaces (Header.globals h)
  /\ (forall input,
        acceptedNamespaces (Header.globals (fst (Header.read h input)))
        = acceptedNamespaces (Header.globals h))
  /\ (forall tn st t,
        0 <= Py.find ":" t ->
        Py.slice_to t (Py.find ":" t)
          ∉ acceptedNamespaces (Header.globals h) ->
        CollectPages.yield_test
          (acceptedNamespaces (Header.globals (fst (Header.on_line h line))))
          tn st t = false).
Proof.
  intros Hm Hg. split; [|split; [|split]].
  - unfold Header.on_line. rewrite Hm, Hg. cbn.
    rewrite on_namespace_known. set_solver.
  - apply on_line_accepted.
  - apply read_accepted.
  - intros tn st t Hc Hn. rewrite on_line_accepted.
    apply yield_test_needs_accepted; assumption.
Qed.

Lemma header_namespace_is_known_not_accepted_witness :
  let h := Header.mkH EmptyString (initial_globals ∅ EmptyString) in
  let line := namespace_line "14" "Category" in
  let m := mkMatch EmptyString "namespace" "Category" (Some "</namespace>") in
  group3 m ∈ knownNamespaces (Header.globals (fst (Header.on_line h line)))
  /\ acceptedNamespaces (Header.globals (fst (Header.on_line h line)))
     = acceptedNamespaces (Header.globals h).
Proof.
  intros h line m.
  pose proof (header_namespace_is_known_not_accepted h line m) as H.
  assert (Hm : tagRE_search line = Some m) by (vm_compute; reflexivity).
  destruct (H Hm eq_refl) as (H1 & H2 & _). split; assumption.
Defined.

(** C5 as it is worded fails: with the accepted namespaces of the
    configuration (here "w", "wiktionary" and "wikt"), the declared name
    "Category" is known but not accepted after the header, and the page
    "Category:Foo" is not dispatched: the only job put on the queue is the
    sentinel. *)
Lemma declared_namespace_is_not_accepted :
  let accepted : gset string := {[ "w"; "wiktionary"; "wikt" ]} in
  let r := process_dump (initial_globals accepted EmptyString)
             {[ "dump.xml" := category_dump ]} "dump.xml" None 1 false in
  bool_decide ("Category" ∈ knownNamespaces (run_globals r)) = true
  /\ bool_decide ("Category" ∈ acceptedNamespaces (run_globals r)) = false
  /\ templateNamespace (run_globals r) = "Template"
  /\ run_error r = None
  /\ run_actions r
     = [StartReduce; StartWorker 0; PutJob None; JoinWorker 0;
        PutOutput None; JoinReduce].
Proof. intros accepted r. repeat split; vm_compute; reflexivity. Qed.

Example accepted_namespace_is_dispatched :
  run_actions
    (process_dump (initial_globals {[ "Category" ]} EmptyString)
       {[ "dump.xml" := category_dump ]} "dump.xml" None 1 false)
  = [StartReduce; StartWorker 0;
     PutJob (Some (mkJob "1" EmptyString "http://x.org/wiki" "Category:Foo"
                     ["body"] 0));
     PutJob None; JoinWorker 0; PutOutput None; JoinReduce].
Proof. vm_compute. reflexivity. Qed.

(** ** Templates from a stream that cannot be read twice *)

(** C6. With template expansion on, ['-'] as input and no usable template
    file, [process_dump] ends with an error and has done nothing but read
    the header: no process is started, nothing is put on a queue, no file
    is written and no template is stored. When the input can be opened the
    error is the [ValueError] of the configuration check. *)
Theorem stdin_without_template_file_fails
    (g : Globals) (fs : gmap string string) (template_file : option string)
    (process_count : Z) :
  usable_template fs template_file = false ->
  let r := process_dump g fs "-" template_file process_count true in
  is_Some (run_error r)
  /\ (is_Some (fs !! "-") -> run_error r = Some ValueError)
  /\ run_actions r = []
  /\ run_fs r = fs
  /\ template_store (run_globals r) = template_store g.
Proof.
  intros Hu r. subst r. unfold process_dump, decode_open.
  destruct (fs !! "-") as [text|] eqn:E; cbn [fmap option_fmap option_map].
  - pose proof (read_store (Header.mkH EmptyString g) (file_lines text)) as Hs.
    destruct (Header.read _ (file_lines text)) as [h rest].
    rewrite Hu. cbn in *. repeat split; eauto.
  - cbn. repeat split; eauto. intros [x Hx]. discriminate.
Qed.

Lemma stdin_without_template_file_fails_witness :
  let g := initial_globals ∅ EmptyString in
  let fs : gmap string string := {[ "-" := category_dump ]} in
  let r := process_dump g fs "-" None 4 true in
  is_Some (run_error r)
  /\ (is_Some (fs !! "-") -> run_error r = Some ValueError)
  /\ run_actions r = []
  /\ run_fs r = fs
  /\ template_store (run_globals r) = template_store g.
Proof.
  intros g fs.
  exact (stdin_without_template_file_fails g fs None 4 eq_refl).
Defined.

Example stdin_without_template_file :
  run_error
    (process_dump (initial_globals ∅ EmptyString)
       {[ "-" := category_dump ]} "-" None 4 true)
  = Some ValueError.
Proof. vm_compute. reflexivity. Qed.

(** With a template file that exists the same input is processed. *)
Example stdin_with_template_file :
  run_error
    (process_dump (initial_globals ∅ EmptyString)
       {[ "-" := category_dump; "templates.xml" := EmptyString ]}
       "-" (Some "templates.xml") 4 true)
  = None.
Proof. vm_compute. reflexivity. Qed.

(** ** The sentinels of the pipeline *)

Lemma main_events_app tr1 tr2 :
  main_events (tr1 ++ tr2) = main_events tr1 ++ main_events tr2.
Proof. apply omap_app. Qed.

Lemma elem_of_main_events a tr :
  a ∈ main_events tr <-> Pipeline.EMain a ∈ tr.
Proof.
  unfold main_events. rewrite list_elem_of_omap. split.
  - intros (e & He & Ha). destruct e; simplify_eq. exact He.
  - intros H. exists (Pipeline.EMain a). split; [exact H|reflexivity].
Qed.

Section PipelineSafety.
Import Pipeline.
Variable extract : Job -> string.
Variable maxsize : Z.
Variable script tail : list action.
Hypothesis script_head : script = StartReduce :: tail.
Hypothesis script_tail : StartReduce ∉ tail.

Lemma inv_initial : inv script [] (initial script).
Proof.
  constructor; cbn.
  - reflexivity.
  - intros w. split; [intros H; inversion H|discriminate].
  - intros w H. inversion H.
  - split; [discriminate|intros H; inversion H].
  - intros [H|H]; inversion H.
  - congruence.
Qed.

Lemma first_start_reduce tr rest :
  script = main_events tr ++ StartReduce :: rest -> StartReduce ∉ rest.
Proof.
  rewrite script_head. destruct (main_events tr) as [|a l]; cbn.
  - intros [= <-]. exact script_tail.
  - intros [= <- Ht]. exfalso. apply script_tail. rewrite Ht.
    set_solver.
Qed.

Lemma lookup_snoc_exited (ws : list worker) (w : nat) (x : worker) :
  x <> Exited -> ((ws ++ [x]) !! w = Some Exited <-> ws !! w = Some Exited).
Proof.
  intros Hx. destruct (decide (w < length ws)%nat) as [Hlt|Hge].
  - rewrite lookup_app_l by exact Hlt. reflexivity.
  - rewrite lookup_app_r by lia. rewrite (lookup_ge_None_2 ws w) by lia.
    destruct (w - length ws)%nat as [|n]; simpl.
    + split; [intros [= ->]; contradiction|discriminate].
    + split; discriminate.
Qed.

Lemma lookup_set_exited (ws : list worker) (w0 w : nat) (x y : worker) :
  ws !! w0 = Some x ->
  (<[w0 := y]> ws !! w = Some Exited
   <-> if decide (w = w0) then y = Exited else ws !! w = Some Exited).
Proof.
  intros H0. destruct (decide (w = w0)) as [->|Hne].
  - rewrite list_lookup_insert_eq by (eapply lookup_lt_Some; exact H0).
    split; congruence.
  - rewrite list_lookup_insert_ne by congruence. reflexivity.
Qed.

Lemma elem_of_snoc {A} (x e : A) (l : list A) :
  x ∈ l ++ [e] <-> x ∈ l \/ x = e.
Proof. rewrite elem_of_app, list_elem_of_singleton. reflexivity. Qed.

Lemma elem_of_snoc_ne {A} (x e : A) (l : list A) :
  x <> e -> (x ∈ l ++ [e] <-> x ∈ l).
Proof. rewrite elem_of_snoc. intuition congruence. Qed.

Ltac snoc_simpl :=
  repeat match goal with
    | |- context [?x ∈ ?l ++ [?e]] =>
        rewrite (elem_of_snoc_ne x e l) by discriminate
    end.

Ltac inv_fields I2 I3 I4 I5 :=
  try solve [let w := fresh "w" in intros w; snoc_simpl; apply I2];
  try solve [let w := fresh "w" in intros w; snoc_simpl; apply I3];
  try solve [snoc_simpl; exact I4];
  try solve [snoc_simpl; exact I5].

Lemma inv_step tr s c e s' :
  inv script tr s ->
  step extract maxsize s c = Some (e, s') ->
  inv script (tr ++ [e]) s'.
Proof.
  intros [I1 I2 I3 I4 I5 I6] Hstep.
  destruct c as [|w0|]; cbn [step] in Hstep.
  - unfold main_step in Hstep.
    destruct (main s) as [|a rest] eqn:Em; [discriminate|].
    assert (J1 : script = main_events (tr ++ [EMain a]) ++ rest).
    { rewrite main_events_app, <- app_assoc. exact I1. }
    assert (J6 : reduce s <> RNotStarted -> StartReduce ∉ rest).
    { intros H. specialize (I6 H). intros Hin. apply I6. right. exact Hin. }
    assert (J7 : a = StartReduce -> StartReduce ∉ rest).
    { intros ->. eapply first_start_reduce. exact I1. }
    destruct a; repeat case_match; simplify_eq;
      constructor; cbn [main workers reduce output_queue];
      try exact J1; try exact J6; inv_fields I2 I3 I4 I5.
    + split; [discriminate|]. snoc_simpl. intros H. apply I4 in H.
      exfalso. apply I6; [congruence|left].
    + intros _. apply J7. reflexivity.
    + intros w1. snoc_simpl. rewrite lookup_snoc_exited by discriminate.
      apply I2.
    + intros w1. rewrite elem_of_snoc. snoc_simpl.
      intros [H'|H']; [apply I3; exact H'|].
      injection H' as ->. apply I2. assumption.
    + snoc_simpl. rewrite !elem_of_snoc. intros [[H'|H']|H'].
      * left. apply I5. left. exact H'.
      * right. congruence.
      * left. apply I5. right. exact H'.
  - unfold worker_step, set_worker in Hstep.
    assert (J1 : forall e0, (forall a, e0 <> EMain a) ->
                 script = main_events (tr ++ [e0]) ++ main s).
    { intros e0 He. rewrite main_events_app.
      destruct e0; cbn; rewrite ?app_nil_r; try exact I1.
      exfalso. eapply He. reflexivity. }
    repeat case_match; simplify_eq;
      constructor; cbn [main workers reduce output_queue];
      try (apply J1; discriminate); try exact I6; inv_fields I2 I3 I4 I5.
    + intros w1. snoc_simpl.
      rewrite (lookup_set_exited _ _ _ _ _ ltac:(eassumption)).
      case_decide; [subst w1|apply I2].
      rewrite I2. split; [congruence|discriminate].
    + intros w1. rewrite elem_of_snoc.
      rewrite (lookup_set_exited _ _ _ _ _ ltac:(eassumption)).
      case_decide; [subst w1; split; auto|].
      rewrite <- I2. split; [|auto]. intros [H'|H']; [exact H'|congruence].
    + intros w1. snoc_simpl. rewrite elem_of_snoc. intros H'. left.
      apply I3. exact H'.
    + intros w1. snoc_simpl.
      rewrite (lookup_set_exited _ _ _ _ _ ltac:(eassumption)).
      case_decide; [subst w1|apply I2].
      rewrite I2. split; [congruence|discriminate].
  - unfold reduce_step in Hstep.
    assert (J1 : forall x, script = main_events (tr ++ [EPop x]) ++ main s).
    { intros x. rewrite main_events_app. cbn. rewrite app_nil_r. exact I1. }
    repeat case_match; simplify_eq;
      constructor; cbn [main workers reduce output_queue];
      try apply J1; inv_fields I2 I3 I4 I5.
    + snoc_simpl. intros [H'|H']; apply I5; [left; right; exact H'|].
      right. exact H'.
    + intros _. apply I6. discriminate.
    + split; [intros _; apply elem_of_snoc; right; reflexivity|reflexivity].
    + snoc_simpl. intros _. apply I5. left. left.
    + intros _. apply I6. discriminate.
Qed.

Lemma inv_exec schedule :
  forall tr0 s tr s',
    inv script tr0 s -> exec extract maxsize s schedule = Some (tr, s') ->
    inv script (tr0 ++ tr) s'.
Proof.
  induction schedule as [|c cs IH]; intros tr0 s tr s' Hinv; cbn [exec].
  - intros [= <- <-]. rewrite app_nil_r. exact Hinv.
  - destruct (step extract maxsize s c) as [[e s1]|] eqn:Es; [|discriminate].
    destruct (exec extract maxsize s1 cs) as [[tr1 s2]|] eqn:Ee;
      [|discriminate].
    intros [= <- <-].
    replace (tr0 ++ e :: tr1) with ((tr0 ++ [e]) ++ tr1)
      by (rewrite <- app_assoc; reflexivity).
    eapply IH; [|exact Ee]. eapply inv_step; eassumption.
Qed.

Lemma inv_reachable schedule tr s :
  exec extract maxsize (initial script) schedule = Some (tr, s) ->
  inv script tr s.
Proof. intros H. exact (inv_exec schedule [] _ _ _ inv_initial H). Qed.
End PipelineSafety.

Lemma filter_fmap_none {A} (p : action -> bool) (f : A -> action) l :
  (forall x, p (f x) = false) -> List.filter p (f <$> l) = [].
Proof.
  intros H. induction l as [|x l IH]; [reflexivity|].
  cbn. rewrite H. exact IH.
Qed.

Lemma filter_fmap_all {A} (p : action -> bool) (f : A -> action) l :
  (forall x, p (f x) = true) -> List.filter p (f <$> l) = f <$> l.
Proof.
  intros H. induction l as [|x l IH]; [reflexivity|].
  cbn. rewrite H. f_equal. exact IH.
Qed.

Lemma pipeline_script_job_sentinels ws jobs :
  length (List.filter is_job_sentinel (pipeline_script ws jobs)) = length ws.
Proof.
  unfold pipeline_script. cbn [List.filter is_job_sentinel].
  rewrite !List.filter_app.
  rewrite (filter_fmap_none _ StartWorker), (filter_fmap_none _ JoinWorker),
    (filter_fmap_none _ (fun j => PutJob (Some j))),
    (filter_fmap_all _ (fun _ => PutJob None)) by reflexivity.
  cbn. rewrite app_nil_r, length_fmap. reflexivity.
Qed.

Lemma pipeline_script_output_sentinels ws jobs :
  length (List.filter is_output_sentinel (pipeline_script ws jobs)) = 1%nat.
Proof.
  unfold pipeline_script. cbn [List.filter is_output_sentinel].
  rewrite !List.filter_app.
  rewrite (filter_fmap_none _ StartWorker), (filter_fmap_none _ JoinWorker),
    (filter_fmap_none _ (fun j => PutJob (Some j))),
    (filter_fmap_none _ (fun _ => PutJob None)) by reflexivity.
  reflexivity.
Qed.

Lemma pipeline_script_tail ws jobs :
  exists tail,
    pipeline_script ws jobs = StartReduce :: tail /\ StartReduce ∉ tail.
Proof.
  eexists. split; [reflexivity|].
  rewrite !not_elem_of_app, !list_elem_of_fmap.
  repeat split; try (intros (x & Hx & _); discriminate).
  intros H. apply elem_of_cons in H as [H|H]; [discriminate|].
  apply list_elem_of_singleton in H. discriminate.
Qed.

(** In a list that begins with [pre ++ [x]], a prefix that holds [x], which
    is not in [pre], holds all of [pre]. *)
Lemma prefix_up_to {A} (x : A) (pre post l1 l2 : list A) :
  l1 ++ l2 = pre ++ x :: post -> x ∈ l1 -> x ∉ pre ->
  forall y, y ∈ pre -> y ∈ l1.
Proof.
  revert l1. induction pre as [|p pre IH]; intros l1 E Hx Hn y Hy.
  - inversion Hy.
  - destruct l1 as [|a l1]; [inversion Hx|].
    cbn in E. injection E as -> E.
    apply elem_of_cons in Hy as [->|Hy]; [left|]. right.
    apply (IH l1 E); [|set_solver|exact Hy].
    apply elem_of_cons in Hx as [->|Hx]; [|exact Hx]. set_solver.
Qed.

Lemma dispatch_script g fs urlbase input process_count :
  run_error (dispatch g fs urlbase input process_count) = None ->
  exists jobs,
    run_actions (dispatch g fs urlbase input process_count)
    = pipeline_script (worker_ids process_count) jobs.
Proof.
  unfold dispatch.
  destruct (collect_pages _ _ input) as [pages [st|]]; cbn; [|discriminate].
  intros _. eexists. reflexivity.
Qed.

Lemma process_dump_script g fs input_file template_file process_count ex :
  run_error (process_dump g fs input_file template_file process_count ex)
  = None ->
  exists jobs,
    run_actions (process_dump g fs input_file template_file process_count ex)
    = pipeline_script (worker_ids process_count) jobs.
Proof.
  unfold process_dump.
  repeat case_match; cbn [run_error]; try discriminate;
    apply dispatch_script.
Qed.

(** ** The scanner on lines of a known shape *)

Lemma append_assoc (a b c : string) : (a +:+ b) +:+ c = a +:+ (b +:+ c).
Proof.
  induction a as [|x a IH]; [reflexivity|].
  change (String x ((a +:+ b) +:+ c) = String x (a +:+ (b +:+ c))).
  f_equal. exact IH.
Qed.

Lemma append_nil_r (a : string) : a +:+ EmptyString = a.
Proof.
  induction a as [|x a IH]; [reflexivity|].
  change (String x (a +:+ EmptyString) = String x a). f_equal. exact IH.
Qed.

Lemma append_cons (x : ascii) (a b : string) :
  String x a +:+ b = String x (a +:+ b).
Proof. reflexivity. Qed.

Lemma length_append (a b : string) :
  String.length (a +:+ b) = (String.length a + String.length b)%nat.
Proof.
  induction a as [|x a IH]; [reflexivity|].
  rewrite append_cons. cbn [String.length]. rewrite IH. reflexivity.
Qed.

Lemma take_append (a b : string) : Py.take (String.length a) (a +:+ b) = a.
Proof.
  induction a as [|x a IH]; [destruct b; reflexivity|].
  rewrite append_cons. cbn [String.length Py.take]. f_equal. exact IH.
Qed.

Lemma consumed_append (a b : string) : Re.consumed (a +:+ b) b = a.
Proof.
  unfold Re.consumed. rewrite length_append.
  replace (String.length a + String.length b - String.length b)%nat
    with (String.length a) by lia.
  apply take_append.
Qed.

Lemma consumed_all (a : string) : Re.consumed a EmptyString = a.
Proof.
  rewrite <- (append_nil_r a) at 1. apply consumed_append.
Qed.

Lemma has_char_append c a b :
  Py.has_char c (a +:+ b) = Py.has_char c a || Py.has_char c b.
Proof.
  induction a as [|x a IH]; [reflexivity|].
  rewrite append_cons. cbn [Py.has_char].
  destruct (Ascii.eqb c x); [reflexivity|exact IH].
Qed.

Lemma has_char_all c s :
  Py.has_char c s = false -> all_chars (Re.in_charset (Re.Not c)) s = true.
Proof.
  induction s as [|x s IH]; [reflexivity|].
  cbn [Py.has_char all_chars Re.in_charset].
  rewrite (Ascii.eqb_sym x c).
  destruct (Ascii.eqb c x); [discriminate|]. exact IH.
Qed.

Section MatcherRuns.
Context {A : Type}.
Implicit Types k : string -> option A.

(** A greedy repetition over a run of characters of the class, up to a
    point where the rest of the pattern succeeds. *)
Lemma star_greedy_run cs a rest k r :
  all_chars (Re.in_charset cs) a = true ->
  match rest with
  | EmptyString => True
  | String c _ => Re.in_charset cs c = false
  end ->
  k rest = Some r ->
  Re.star_greedy cs (a +:+ rest) k = Some r.
Proof.
  intros Ha Hstop Hk. induction a as [|x a IH].
  - change (Re.star_greedy cs rest k = Some r).
    destruct rest as [|c t]; cbn [Re.star_greedy].
    + exact Hk.
    + rewrite Hstop. exact Hk.
  - cbn [all_chars] in Ha. apply andb_true_iff in Ha as [Hx Ha].
    rewrite append_cons. cbn [Re.star_greedy]. rewrite Hx, (IH Ha).
    reflexivity.
Qed.

(** A lazy repetition over a run of characters of the class at none of
    which the rest of the pattern can start. *)
Lemma star_lazy_run cs (bad : ascii -> bool) a rest k :
  all_chars (Re.in_charset cs) a = true ->
  all_chars bad a = true ->
  (forall c t, bad c = true -> k (String c t) = None) ->
  Re.star_lazy cs (a +:+ rest) k = Re.star_lazy cs rest k.
Proof.
  intros Ha Hb Hk. induction a as [|x a IH]; [reflexivity|].
  cbn [all_chars] in Ha, Hb.
  apply andb_true_iff in Ha as [Hx Ha]. apply andb_true_iff in Hb as [Hbx Hb].
  rewrite append_cons. cbn [Re.star_lazy].
  rewrite (Hk x _ Hbx), Hx. exact (IH Ha Hb).
Qed.

Lemma star_lazy_here cs s k r :
  k s = Some r -> Re.star_lazy cs s k = Some r.
Proof. intros H. destruct s; cbn [Re.star_lazy]; rewrite H; reflexivity. Qed.
End MatcherRuns.

Lemma search_here r s g :
  Re.match_here r s = Some g -> Re.search r s = Some g.
Proof. intros H. destruct s; cbn [Re.search]; rewrite H; reflexivity. Qed.

Lemma tagRE_parts : tagRE = Re.Seq (Re.Group 1 (Re.StarLazy Re.Dot)) re_tag.
Proof. reflexivity. Qed.


Lemma star_greedy_all {A} cs a (k : string -> option A) r :
  all_chars (Re.in_charset cs) a = true ->
  k EmptyString = Some r ->
  Re.star_greedy cs a k = Some r.
Proof.
  intros Ha Hk. rewrite <- (append_nil_r a).
  apply star_greedy_run; [exact Ha|exact I|exact Hk].
Qed.

Lemma payload_alone payload g :
  Py.has_char "<" payload = false ->
  Re.rmatch re_payload payload g final = Some (Re.set_cap 3 payload g).
Proof.
  intros Hp. unfold re_payload, re_close. cbn [Re.rmatch].
  erewrite star_greedy_all; [reflexivity|apply has_char_all; exact Hp|].
  cbn. rewrite consumed_all. reflexivity.
Qed.

Lemma close_tag_split x y :
  String "<" (x +:+ String ">" y)
  = String "<" (x +:+ String ">" EmptyString) +:+ y.
Proof.
  rewrite append_cons. f_equal. rewrite append_assoc. reflexivity.
Qed.


Lemma dot_is_not_newline s :
  Py.has_char Re.newline s = false -> all_chars (Re.in_charset Re.Dot) s = true.
Proof. apply (has_char_all Re.newline). Qed.

Lemma payload_follow payload x y g :
  Py.has_char "<" payload = false ->
  Py.has_char ">" x = false ->
  Py.has_char Re.newline x = false ->
  Re.rmatch re_payload (payload +:+ String "<" (x +:+ String ">" y)) g final
  = Some (Re.set_cap 4 (String "<" (x +:+ String ">" EmptyString))
            (Re.set_cap 3 payload g)).
Proof.
  intros Hp Hx Hn. unfold re_payload, re_close. cbn [Re.rmatch].
  erewrite star_greedy_run;
    [reflexivity|apply has_char_all; exact Hp|reflexivity|].
  cbv beta iota. rewrite Ascii.eqb_refl.
  rewrite (star_lazy_run Re.Dot (Re.in_charset (Re.Not ">")) x);
    [|apply dot_is_not_newline; exact Hn|apply has_char_all; exact Hx|].
  - erewrite star_lazy_here; [reflexivity|].
    cbv beta iota. rewrite Ascii.eqb_refl. unfold final.
    rewrite consumed_append, close_tag_split, consumed_append. reflexivity.
  - intros c t Hc. cbn [Re.in_charset] in Hc.
    rewrite (Ascii.eqb_sym ">" c).
    destruct (Ascii.eqb c ">"); [discriminate|reflexivity].
Qed.

Section TagShape.
Variable pre : string.
Variable slash : bool.
Variable w0 : ascii.
Variable w attrs payload : string.
Hypothesis pre_angle : Py.has_char "<" pre = false.
Hypothesis pre_newline : Py.has_char Re.newline pre = false.
Hypothesis name_head : Re.is_word w0 = true.
Hypothesis name_rest : all_chars Re.is_word w = true.
Hypothesis attrs_close : Py.has_char ">" attrs = false.
Hypothesis attrs_head :
  match attrs with
  | EmptyString => True
  | String c _ => Re.is_word c = false
  end.
Hypothesis payload_angle : Py.has_char "<" payload = false.


Lemma tag_shape_here tail g4 :
  (forall g, Re.rmatch re_payload (payload +:+ tail) g final
             = Some (match g4 with
                     | Some x => Re.set_cap 4 x (Re.set_cap 3 payload g)
                     | None => Re.set_cap 3 payload g
                     end)) ->
  Re.match_here tagRE (tag_line pre slash w0 w attrs payload tail)
  = Some (tag_caps pre slash w0 w payload g4).
Proof.
  intros Hpay.
  unfold Re.match_here. rewrite tagRE_parts.
  cbn [Re.rmatch]. unfold tag_line.
  rewrite (star_lazy_run Re.Dot (Re.in_charset (Re.Not "<")) pre);
    [|apply dot_is_not_newline; exact pre_newline
     |apply has_char_all; exact pre_angle|].
  2:{ intros c t Hc. cbn [Re.in_charset] in Hc.
      unfold re_tag. cbn [Re.rmatch]. rewrite (Ascii.eqb_sym "<" c).
      destruct (Ascii.eqb c "<"); [discriminate|reflexivity]. }
  erewrite star_lazy_here; [reflexivity|].
  cbv beta. rewrite consumed_append.
  set (X := attrs +:+ String ">" (payload +:+ tail)).
  assert (Hstop : match X with
                  | EmptyString => True
                  | String c _ => Re.in_charset Re.Word c = false
                  end).
  { subst X. destruct attrs; [reflexivity|exact attrs_head]. }
  assert (Hrest : forall name,
             Re.star_greedy (Re.Not ">") X
               (fun s1 =>
                  match s1 with
                  | EmptyString => None
                  | String d s2 =>
                      if Ascii.eqb ">" d
                      then Re.rmatch re_payload s2
                             (Re.set_cap 2 (Re.consumed (name +:+ X) X)
                                (Re.set_cap 1 pre Re.no_caps))
                             (fun _ g => Some g)
                      else None
                  end)
             = Some (match g4 with
                     | Some x =>
                         Re.set_cap 4 x
                           (Re.set_cap 3 payload
                              (Re.set_cap 2 name (Re.set_cap 1 pre Re.no_caps)))
                     | None =>
                         Re.set_cap 3 payload
                           (Re.set_cap 2 name (Re.set_cap 1 pre Re.no_caps))
                     end)).
  { intros name. subst X.
    erewrite star_greedy_run;
      [reflexivity|apply has_char_all; exact attrs_close|reflexivity|].
    cbv beta iota. rewrite Ascii.eqb_refl, consumed_append.
    apply Hpay. }
  unfold tag_caps, tag_name. destruct slash.
  - rewrite !append_cons. unfold re_tag, re_name. cbn [Re.rmatch].
    rewrite !Ascii.eqb_refl. cbn [Re.in_charset]. rewrite name_head.
    erewrite star_greedy_run; [reflexivity|exact name_rest|exact Hstop|].
    cbv beta.
    change (String "/" (String w0 (w +:+ X)))
      with (String "/" (String w0 w) +:+ X).
    apply Hrest.
  - rewrite !append_cons. unfold re_tag, re_name. cbn [Re.rmatch].
    rewrite Ascii.eqb_refl.
    assert (Hs : Ascii.eqb "/" w0 = false).
    { destruct (Ascii.eqb "/" w0) eqn:E; [|reflexivity].
      apply Ascii.eqb_eq in E. subst w0. discriminate name_head. }
    rewrite Hs. cbn [Re.in_charset]. rewrite name_head.
    erewrite star_greedy_run; [reflexivity|exact name_rest|exact Hstop|].
    cbv beta.
    change (String w0 (w +:+ X)) with (String w0 w +:+ X).
    apply Hrest.
Qed.

Lemma tag_shape tail g4 :
  (forall g, Re.rmatch re_payload (payload +:+ tail) g final
             = Some (match g4 with
                     | Some x => Re.set_cap 4 x (Re.set_cap 3 payload g)
                     | None => Re.set_cap 3 payload g
                     end)) ->
  tagRE_search (tag_line pre slash w0 w attrs payload tail)
  = Some (mkMatch pre (tag_name slash w0 w) payload g4).
Proof.
  intros Hpay. unfold tagRE_search.
  rewrite (search_here _ _ _ (tag_shape_here tail g4 Hpay)).
  unfold tag_caps. destruct g4; reflexivity.
Qed.

(** Nothing follows the payload: group 4 takes no part. *)
Lemma scan_tag_alone :
  tagRE_search
    (pre +:+ String "<"
               (tag_name slash w0 w +:+ (attrs +:+ String ">" payload)))
  = Some (mkMatch pre (tag_name slash w0 w) payload None).
Proof.
  rewrite <- (append_nil_r payload) at 1.
  apply (tag_shape EmptyString None). intros g. rewrite append_nil_r.
  apply payload_alone. exact payload_angle.
Qed.

(** A tag closed on the same line follows the payload: it is group 4. *)
Lemma scan_tag_follow x y :
  Py.has_char ">" x = false ->
  Py.has_char Re.newline x = false ->
  tagRE_search
    (tag_line pre slash w0 w attrs payload
       (String "<" (x +:+ String ">" y)))
  = Some (mkMatch pre (tag_name slash w0 w) payload
            (Some (String "<" (x +:+ String ">" EmptyString)))).
Proof.
  intros Hx Hn. apply tag_shape. intros g.
  apply payload_follow; assumption.
Qed.
End TagShape.

(** ** Lines of a text *)

Lemma file_lines_cons_line a b :
  Py.has_char Re.newline a = false ->
  file_lines (a +:+ String Re.newline b) = (a +:+ nl) :: file_lines b.
Proof.
  intros Ha. induction a as [|x a IH].
  - change (file_lines (String Re.newline b) = nl :: file_lines b).
    cbn [file_lines]. rewrite Ascii.eqb_refl. reflexivity.
  - cbn [Py.has_char] in Ha. rewrite (Ascii.eqb_sym Re.newline x) in Ha.
    destruct (Ascii.eqb x Re.newline) eqn:E; [discriminate|].
    rewrite !append_cons. cbn [file_lines]. rewrite E, (IH Ha). reflexivity.
Qed.

Lemma file_lines_line a rest :
  Py.has_char Re.newline a = false ->
  file_lines ((a +:+ nl) +:+ rest) = (a +:+ nl) :: file_lines rest.
Proof.
  intros Ha. rewrite append_assoc. apply file_lines_cons_line. exact Ha.
Qed.

Lemma file_lines_last a :
  Py.has_char Re.newline a = false -> a <> EmptyString -> file_lines a = [a].
Proof.
  induction a as [|x a IH]; [congruence|]. intros Ha _.
  cbn [Py.has_char] in Ha. rewrite (Ascii.eqb_sym Re.newline x) in Ha.
  destruct (Ascii.eqb x Re.newline) eqn:E; [discriminate|].
  cbn [file_lines]. rewrite E. destruct a as [|y a]; [reflexivity|].
  rewrite (IH Ha) by discriminate. reflexivity.
Qed.

Lemma first_line_split s :
  Py.has_char Re.newline s = false
  \/ exists a b,
       s = a +:+ String Re.newline b /\ Py.has_char Re.newline a = false.
Proof.
  induction s as [|x s IH]; [left; reflexivity|].
  cbn [Py.has_char]. destruct (Ascii.eqb Re.newline x) eqn:E.
  - right. apply Ascii.eqb_eq in E as <-. exists EmptyString, s.
    split; reflexivity.
  - destruct IH as [H|(a & b & -> & Ha)]; [left; exact H|].
    right. exists (String x a), b. split; [reflexivity|].
    cbn [Py.has_char]. rewrite E. exact Ha.
Qed.

Lemma join_file_lines s : Py.join (file_lines s) = s.
Proof.
  induction s as [|x s IH]; [reflexivity|].
  cbn [file_lines]. destruct (Ascii.eqb x Re.newline).
  - cbn [Py.join]. rewrite IH. reflexivity.
  - destruct (file_lines s) as [|l ls]; cbn [Py.join] in *.
    + rewrite <- IH. reflexivity.
    + rewrite <- IH. reflexivity.
Qed.

Lemma startswith_take s n : Py.startswith s (Py.take n s) = true.
Proof.
  revert s. induction n as [|n IH]; intros s; [destruct s; reflexivity|].
  destruct s as [|x s]; [reflexivity|].
  cbn [Py.take Py.startswith]. rewrite Ascii.eqb_refl. apply IH.
Qed.

Lemma startswith_slice s i : Py.startswith s (Py.slice_to s i) = true.
Proof. unfold Py.slice_to. apply startswith_take. Qed.

(** ** The scanner never matches a line without an angle bracket *)

Lemma star_lazy_no_angle {A} cs s (k : string -> option A) :
  (forall s', Py.has_char "<" s' = false -> k s' = None) ->
  Py.has_char "<" s = false ->
  Re.star_lazy cs s k = None.
Proof.
  intros Hk. induction s as [|x s IH]; intros Hs.
  - cbn [Re.star_lazy]. rewrite (Hk _ Hs). reflexivity.
  - cbn [Re.star_lazy]. rewrite (Hk _ Hs).
    cbn [Py.has_char] in Hs. destruct (Ascii.eqb "<" x); [discriminate|].
    rewrite (IH Hs). destruct (Re.in_charset cs x); reflexivity.
Qed.

Lemma match_here_no_angle s :
  Py.has_char "<" s = false -> Re.match_here tagRE s = None.
Proof.
  intros Hs. unfold Re.match_here. rewrite tagRE_parts. cbn [Re.rmatch].
  apply star_lazy_no_angle; [|exact Hs].
  intros s' Hs'. unfold re_tag. cbn [Re.rmatch].
  destruct s' as [|d s']; [reflexivity|].
  cbn [Py.has_char] in Hs'. destruct (Ascii.eqb "<" d); [discriminate|].
  reflexivity.
Qed.

Lemma no_angle_no_match line :
  has_angle line = false -> tagRE_search line = None.
Proof.
  unfold has_angle, tagRE_search. intros Hs.
  assert (H : Re.search tagRE line = None); [|rewrite H; reflexivity].
  induction line as [|x line IH].
  - cbn [Re.search]. rewrite (match_here_no_angle _ Hs). reflexivity.
  - cbn [Re.search]. rewrite (match_here_no_angle _ Hs).
    cbn [Py.has_char] in Hs. destruct (Ascii.eqb "<" x); [discriminate|].
    exact (IH Hs).
Qed.

Lemma matched_has_angle line m :
  tagRE_search line = Some m -> has_angle line = true.
Proof.
  intros Hm. destruct (has_angle line) eqn:E; [reflexivity|].
  rewrite (no_angle_no_match _ E) in Hm. discriminate.
Qed.

(** C8. A line with no '<' never reaches the scanner: whatever function
    stands for the pattern match, the loop body of [collect_pages] and of
    [load_templates] yields nothing for the line, appends it to the page
    buffer when [inText] holds and changes nothing otherwise. The pattern
    itself has no match on such a line. *)
Theorem no_angle_line_is_not_scanned (line : string) :
  has_angle line = false ->
  tagRE_search line = None
  /\ (forall acc tn search st,
      CollectPages.step_with acc tn search st line
      = CollectPages.Next
          (if CollectPages.inText st
           then CollectPages.mkC (CollectPages.page st ++ [line])
                  (CollectPages.id st) (CollectPages.revid st)
                  (CollectPages.last_id st) true
                  (CollectPages.redirect st) (CollectPages.title st)
           else st)
          None)
  /\ (forall out search st,
      LoadTemplates.step_with out search st line
      = LoadTemplates.Next
          (if LoadTemplates.inText st
           then LoadTemplates.mkL (LoadTemplates.articles st)
                  (LoadTemplates.templates st)
                  (LoadTemplates.page st ++ [line]) true
                  (LoadTemplates.title st) (LoadTemplates.output st)
                  (LoadTemplates.globals st)
           else st)).
Proof.
  intros H. split; [apply no_angle_no_match; exact H|]. split.
  - intros acc tn search st. rewrite collect_step_no_angle by exact H.
    unfold CollectPages.append_line.
    destruct (CollectPages.inText st); reflexivity.
  - intros out search st. rewrite load_step_no_angle by exact H.
    destruct (LoadTemplates.inText st); reflexivity.
Qed.

Lemma no_angle_line_is_not_scanned_witness :
  has_angle "plain body text" = false
  /\ CollectPages.step ∅ "Template"
       (CollectPages.mkC ["a"] "7" "9" "3" true false (Some "T"))
       "plain body text"
     = CollectPages.Next
         (CollectPages.mkC ["a"; "plain body text"] "7" "9" "3" true false
            (Some "T"))
         None.
Proof.
  split; [reflexivity|].
  exact (proj1 (proj2 (no_angle_line_is_not_scanned "plain body text"
                         eq_refl))
           ∅ "Template" tagRE_search
           (CollectPages.mkC ["a"] "7" "9" "3" true false (Some "T"))).
Defined.

Lemma load_step_matched out st line m :
  tagRE_search line = Some m ->
  LoadTemplates.step out st line = LoadTemplates.on_tag out st line m.
Proof.
  intros Hm. unfold LoadTemplates.step, LoadTemplates.step_with.
  rewrite (matched_has_angle _ _ Hm), Hm. reflexivity.
Qed.

(** ** The lines of the mirror under the scanner *)

Lemma scan_mirror_title t :
  Py.has_char "<" t = false ->
  tagRE_search ("   <title>" +:+ t +:+ "</title>" +:+ nl)
  = Some (mkMatch "   " "title" t (Some "</title>")).
Proof.
  intros Ht.
  exact (scan_tag_follow "   " false "t" "itle" EmptyString t
           eq_refl eq_refl eq_refl eq_refl eq_refl I Ht
           "/title" nl eq_refl eq_refl).
Qed.

Lemma scan_mirror_text_open a :
  Py.has_char "<" a = false ->
  tagRE_search ("   <text>" +:+ a +:+ nl)
  = Some (mkMatch "   " "text" (a +:+ nl) None).
Proof.
  intros Ha.
  assert (Hp : Py.has_char "<" (a +:+ nl) = false).
  { rewrite has_char_append, Ha. reflexivity. }
  exact (scan_tag_alone "   " false "t" "ext" EmptyString (a +:+ nl)
           eq_refl eq_refl eq_refl eq_refl eq_refl I Hp).
Qed.

Lemma scan_mirror_text_full body :
  Py.has_char "<" body = false ->
  tagRE_search ("   <text>" +:+ body +:+ "   </text>" +:+ nl)
  = Some (mkMatch "   " "text" (body +:+ "   ") (Some "</text>")).
Proof.
  intros Hb.
  assert (Hp : Py.has_char "<" (body +:+ "   ") = false).
  { rewrite has_char_append, Hb. reflexivity. }
  pose proof (scan_tag_follow "   " false "t" "ext" EmptyString
                (body +:+ "   ")
                eq_refl eq_refl eq_refl eq_refl eq_refl I Hp
                "/text" nl eq_refl eq_refl) as H.
  unfold tag_line in H. rewrite append_assoc in H. exact H.
Qed.

Lemma scan_mirror_text_close b :
  Py.has_char "<" b = false ->
  Py.has_char Re.newline b = false ->
  tagRE_search (b +:+ "   </text>" +:+ nl)
  = Some (mkMatch (b +:+ "   ") "/text" nl None).
Proof.
  intros Hb Hn.
  assert (Hp : Py.has_char "<" (b +:+ "   ") = false).
  { rewrite has_char_append, Hb. reflexivity. }
  assert (Hq : Py.has_char Re.newline (b +:+ "   ") = false).
  { rewrite has_char_append, Hn. reflexivity. }
  pose proof (scan_tag_alone (b +:+ "   ") true "t" "ext" EmptyString nl
                Hp Hq eq_refl eq_refl eq_refl I eq_refl) as H.
  rewrite append_assoc in H. exact H.
Qed.

(** ** Collecting a page again from its mirror *)

Section Recollect.
Import LoadTemplates.

Lemma close_line_shape b rest :
  b +:+ ("   </text>" +:+ nl) +:+ rest
  = ((b +:+ "   </text>") +:+ nl) +:+ rest.
Proof. rewrite !append_assoc. reflexivity. Qed.

(** Inside an open text element, the lines of a body without angle
    bracket are buffered one by one; the line that carries the closing
    tag of the mirror leaves three blanks in the buffer. *)
Lemma run_body_lines n :
  forall b rest st,
    (String.length b <= n)%nat ->
    Py.has_char "<" b = false ->
    inText st = true ->
    run false st (file_lines (b +:+ ("   </text>" +:+ nl) +:+ rest))
    = run false
        (set_page st (page st ++ file_lines (b +:+ "   ")) false)
        (file_lines rest).
Proof.
  induction n as [|n IH]; intros b rest st Hlen Hb Hin.
  - destruct b; [|cbn in Hlen; lia].
    change (run false st (file_lines (("   </text>" +:+ nl) +:+ rest))
            = run false (set_page st (page st ++ ["   "]) false)
                (file_lines rest)).
    rewrite file_lines_line by reflexivity. cbn [run].
    rewrite (load_step_matched _ _ _ _
               (scan_mirror_text_close EmptyString eq_refl eq_refl)).
    reflexivity.
  - destruct (first_line_split b) as [Hn|(a & b' & -> & Ha)].
    + rewrite close_line_shape, file_lines_line
        by (rewrite has_char_append, Hn; reflexivity).
      cbn [run]. rewrite (append_assoc b).
      rewrite (load_step_matched _ _ _ _ (scan_mirror_text_close b Hb Hn)).
      rewrite (file_lines_last (b +:+ "   "));
        [|rewrite has_char_append, Hn; reflexivity
         |destruct b; discriminate].
      unfold on_tag. cbn [group2 group1].
      replace (Py.truthy (b +:+ "   ")) with true
        by (destruct b; reflexivity).
      reflexivity.
    + rewrite has_char_append in Hb. apply orb_false_iff in Hb as [Hba Hbb].
      cbn [Py.has_char] in Hbb.
      destruct (Ascii.eqb "<" Re.newline) eqn:E; [discriminate|].
      rewrite (append_assoc a), append_cons.
      rewrite file_lines_cons_line by exact Ha. cbn [run].
      assert (Hl : has_angle (a +:+ nl) = false).
      { unfold has_angle. rewrite has_char_append, Hba. reflexivity. }
      unfold step. rewrite load_step_no_angle by exact Hl. rewrite Hin.
      fold (step false).
      rewrite IH; [| |exact Hbb|reflexivity].
      * rewrite (append_assoc a), append_cons.
        rewrite file_lines_cons_line by exact Ha.
        unfold set_page. cbn [page articles templates title output globals].
        rewrite <- app_assoc. reflexivity.
      * rewrite length_append in Hlen. cbn [String.length] in Hlen. lia.
Qed.

Lemma run_text_element body rest st :
  Py.has_char "<" body = false ->
  run false st
    (file_lines ("   <text>" +:+ body +:+ ("   </text>" +:+ nl) +:+ rest))
  = run false
      (set_page st (page st ++ file_lines (body +:+ "   ")) false)
      (file_lines rest).
Proof.
  intros Hb. destruct (first_line_split body) as [Hn|(a & b & -> & Ha)].
  - replace ("   <text>" +:+ body +:+ ("   </text>" +:+ nl) +:+ rest)
      with ((("   <text>" +:+ body +:+ "   </text>") +:+ nl) +:+ rest)
      by (rewrite !append_assoc; reflexivity).
    rewrite file_lines_line
      by (rewrite !has_char_append, Hn; reflexivity).
    cbn [run].
    replace (("   <text>" +:+ body +:+ "   </text>") +:+ nl)
      with ("   <text>" +:+ body +:+ "   </text>" +:+ nl)
      by (rewrite !append_assoc; reflexivity).
    rewrite (load_step_matched _ _ _ _ (scan_mirror_text_full body Hb)).
    rewrite (file_lines_last (body +:+ "   "));
      [|rewrite has_char_append, Hn; reflexivity
       |destruct body; discriminate].
    reflexivity.
  - rewrite has_char_append in Hb. apply orb_false_iff in Hb as [Hba Hbb].
    cbn [Py.has_char] in Hbb.
    destruct (Ascii.eqb "<" Re.newline) eqn:E; [discriminate|].
    replace ("   <text>"
             +:+ (a +:+ String Re.newline b) +:+ ("   </text>" +:+ nl)
             +:+ rest)
      with (("   <text>" +:+ a)
            +:+ String Re.newline (b +:+ ("   </text>" +:+ nl) +:+ rest))
      by (rewrite !append_assoc; reflexivity).
    rewrite file_lines_cons_line
      by (rewrite has_char_append, Ha; reflexivity).
    cbn [run].
    replace (("   <text>" +:+ a) +:+ nl) with ("   <text>" +:+ a +:+ nl)
      by (rewrite !append_assoc; reflexivity).
    rewrite (load_step_matched _ _ _ _ (scan_mirror_text_open a Hba)).
    unfold on_tag. cbn [group2 group3 lastindex group4 String.eqb].
    cbn -[file_lines run String.append nl].
    rewrite (run_body_lines (String.length b) b rest) by auto.
    rewrite (append_assoc a), append_cons.
    rewrite file_lines_cons_line by exact Ha.
    unfold set_page. cbn [page articles templates title output globals].
    rewrite <- app_assoc. reflexivity.
Qed.

Lemma on_title_prefix st t :
  Py.startswith t (templatePrefix (globals st)) = true ->
  Py.startswith t (templatePrefix (globals (on_title false st t))) = true.
Proof.
  intros H. unfold on_title. cbn [globals].
  case_match; [|exact H]. cbn [templatePrefix]. apply startswith_slice.
Qed.

Lemma on_title_store st t :
  template_store (globals (on_title false st t))
  = template_store (globals st).
Proof. unfold on_title. cbn [globals]. case_match; reflexivity. Qed.

Lemma mirror_page_lines t body :
  Py.has_char Re.newline t = false ->
  file_lines (mirror_page t body)
  = ("<page>" +:+ nl)
    :: ("   <title>" +:+ t +:+ "</title>" +:+ nl)
    :: ("   <ns>10</ns>" +:+ nl)
    :: file_lines ("   <text>" +:+ Py.join body +:+ ("   </text>" +:+ nl)
                   +:+ ("</page>" +:+ nl)).
Proof.
  intros Ht. unfold mirror_page.
  rewrite (file_lines_line "<page>") by reflexivity. f_equal.
  replace ("   <title>" +:+ t +:+ "</title>" +:+ nl)
    with (("   <title>" +:+ t +:+ "</title>") +:+ nl)
    by (rewrite !append_assoc; reflexivity).
  rewrite file_lines_line by (rewrite !has_char_append, Ht; reflexivity).
  f_equal.
Qed.

(** Reading the mirror of a page stores, under the same title, the lines
    of the body text followed by three blanks. *)
Lemma recollect_mirror g t body :
  Py.startswith t (templatePrefix g) = true ->
  Py.has_char "<" t = false ->
  Py.has_char Re.newline t = false ->
  Py.has_char "<" (Py.join body) = false ->
  exists st,
    load_templates g (file_lines (mirror_page t body)) None = Returned st
    /\ template_store (globals st)
       = <[t := file_lines (Py.join body +:+ "   ")]> (template_store g).
Proof.
  intros Hpre Hlt Hnl Hbody. unfold load_templates.
  rewrite (mirror_page_lines _ _ Hnl). cbn [truthy_name run].
  rewrite (load_step_matched _ _ _ (mkMatch EmptyString "page" nl None))
    by (vm_compute; reflexivity).
  unfold on_tag at 1. cbn [group2 String.eqb Ascii.eqb Bool.eqb].
  rewrite (load_step_matched _ _ _ _ (scan_mirror_title t Hlt)).
  unfold on_tag at 1. cbn [group2 group3 String.eqb Ascii.eqb Bool.eqb].
  rewrite (load_step_matched _ _ _
             (mkMatch "   " "ns" "10" (Some "</ns>")))
    by (vm_compute; reflexivity).
  unfold on_tag at 1. cbn [group2 String.eqb Ascii.eqb Bool.eqb].
  set (st0 := set_page (init g) [] (inText (init g))).
  set (st1 := on_title false st0 t).
  assert (Hin : inText st1 = false) by reflexivity.
  rewrite Hin. rewrite run_text_element by exact Hbody.
  replace (file_lines ("</page>" +:+ nl)) with ["</page>" +:+ nl]
    by reflexivity.
  cbn [run].
  rewrite (load_step_matched _ _ _ (mkMatch EmptyString "/page" nl None))
    by (vm_compute; reflexivity).
  unfold on_tag. cbn [group2 String.eqb Ascii.eqb Bool.eqb].
  unfold end_page, set_page.
  cbn [inText title page articles templates output globals].
  assert (Ht : title st1 = Some t) by reflexivity. rewrite Ht.
  assert (Hp : Py.startswith t (templatePrefix (globals st1)) = true).
  { apply on_title_prefix. exact Hpre. }
  rewrite Hp. cbn [andb orb].
  eexists. split; [reflexivity|].
  cbn [globals template_store]. unfold define_template.
  subst st1. rewrite on_title_store. reflexivity.
Qed.
End Recollect.

Lemma append_blanks_differs s : s +:+ "   " <> s.
Proof.
  intros H. apply (f_equal String.length) in H.
  rewrite length_append in H. cbn in H. lia.
Qed.

(** What the mirror does to a template page in general: a page stored
    while the mirror is written is stored again, when the mirror text of
    the page is read back, with the lines of its body text followed by
    three blanks. The mirror closes the text element with three blanks
    before the closing tag, and the scanner takes them as body text.
    (Titles and bodies without angle bracket, titles on one line.) *)
Theorem mirror_round_trip_appends_blanks
    (st : LoadTemplates.LState) (t : string) (g2 : Globals) :
  LoadTemplates.title st = Some t ->
  Py.startswith t (templatePrefix (LoadTemplates.globals st)) = true ->
  Py.startswith t (templatePrefix g2) = true ->
  Py.has_char "<" t = false ->
  Py.has_char Re.newline t = false ->
  Py.has_char "<" (Py.join (LoadTemplates.page st)) = false ->
  exists st1 st2,
    LoadTemplates.end_page true st = LoadTemplates.Next st1
    /\ template_store (LoadTemplates.globals st1) !! t
       = Some (LoadTemplates.page st)
    /\ LoadTemplates.output st1
       = LoadTemplates.output st +:+ mirror_page t (LoadTemplates.page st)
    /\ load_templates g2
         (file_lines (mirror_page t (LoadTemplates.page st))) None
       = LoadTemplates.Returned st2
    /\ template_store (LoadTemplates.globals st2) !! t
       = Some (file_lines (Py.join (LoadTemplates.page st) +:+ "   "))
    /\ Py.join (file_lines (Py.join (LoadTemplates.page st) +:+ "   "))
       = Py.join (LoadTemplates.page st) +:+ "   "
    /\ file_lines (Py.join (LoadTemplates.page st) +:+ "   ")
       <> LoadTemplates.page st.
Proof.
  intros Ht Hpre Hpre2 Hlt Hnl Hbody.
  destruct (recollect_mirror g2 t (LoadTemplates.page st) Hpre2 Hlt Hnl Hbody)
    as (st2 & Hrun & Hstore).
  eexists _, st2. split.
  { unfold LoadTemplates.end_page. rewrite Ht, Hpre. reflexivity. }
  cbn [LoadTemplates.globals LoadTemplates.output template_store andb orb].
  split; [unfold define_template; apply lookup_insert_eq|].
  split; [reflexivity|]. split; [exact Hrun|].
  split; [rewrite Hstore; apply lookup_insert_eq|].
  split; [apply join_file_lines|].
  intros E. apply (f_equal Py.join) in E. rewrite join_file_lines in E.
  exact (append_blanks_differs _ E).
Qed.

Lemma mirror_round_trip_appends_blanks_witness :
  let st := LoadTemplates.mkL 0 0 ["line1" +:+ nl; "line2"] false
              (Some "Template:Foo") EmptyString template_globals in
  exists st2,
    load_templates template_globals
      (file_lines (mirror_page "Template:Foo" (LoadTemplates.page st))) None
    = LoadTemplates.Returned st2
    /\ template_store (LoadTemplates.globals st2) !! "Template:Foo"
       = Some (file_lines (Py.join (LoadTemplates.page st) +:+ "   ")).
Proof.
  intros st.
  destruct (mirror_round_trip_appends_blanks st "Template:Foo"
              template_globals eq_refl eq_refl eq_refl eq_refl eq_refl
              eq_refl)
    as (st1 & st2 & _ & _ & _ & H1 & H2 & _).
  exists st2. split; assumption.
Defined.

(** C4. The round trip of the template mirror, run on a dump with the
    one page Template:Foo of body "bar": [load_templates], called with an
    output file, stores the body "bar" and writes the page to the mirror;
    called again on the mirror it has written, it stores under the same
    title "bar" followed by three blanks. The body stored from the mirror
    is not the body stored from the dump: the mirror is written to be
    read back by [load_templates], and the three blanks the code puts
    before the closing text marker are read back as body text. *)
Lemma mirror_round_trip_changes_body :
  let dump := [ "<page>" +:+ nl; "    <title>Template:Foo</title>" +:+ nl;
                "      <text>bar</text>" +:+ nl; "</page>" +:+ nl ] in
  exists st1 st2,
    load_templates template_globals dump (Some "templates.xml")
    = LoadTemplates.Returned st1
    /\ template_store (LoadTemplates.globals st1) !! "Template:Foo"
       = Some ["bar"]
    /\ LoadTemplates.output st1 = mirror_page "Template:Foo" ["bar"]
    /\ load_templates template_globals
         (file_lines (LoadTemplates.output st1)) None
       = LoadTemplates.Returned st2
    /\ template_store (LoadTemplates.globals st2) !! "Template:Foo"
       = Some ["bar   "].
Proof.
  intros dump. eexists _, _.
  split; [vm_compute; reflexivity|].
  split; [vm_compute; reflexivity|].
  split; [vm_compute; reflexivity|].
  split; vm_compute; reflexivity.
Qed.

Example mirror_of_template :
  mirror_page "Template:Foo" ["bar"]
  = "<page>" +:+ nl +:+ "   <title>Template:Foo</title>" +:+ nl
    +:+ "   <ns>10</ns>" +:+ nl +:+ "   <text>bar   </text>" +:+ nl
    +:+ "</page>" +:+ nl.
Proof. vm_compute. reflexivity. Qed.

(** ** Groups 1 to 3 take part in every match *)

Lemma star_greedy_from {A} cs s (k : string -> option A) r :
  Re.star_greedy cs s k = Some r -> exists s', k s' = Some r.
Proof.
  induction s as [|c s IH]; cbn [Re.star_greedy]; [eauto|].
  destruct (Re.in_charset cs c); [|eauto].
  destruct (Re.star_greedy cs s k) eqn:E; [|eauto].
  intros [= <-]. apply IH. reflexivity.
Qed.

Lemma star_lazy_from {A} cs s (k : string -> option A) r :
  Re.star_lazy cs s k = Some r -> exists s', k s' = Some r.
Proof.
  induction s as [|c s IH]; cbn [Re.star_lazy].
  - destruct (k EmptyString) eqn:E; [|discriminate]. intros [= <-]. eauto.
  - destruct (k (String c s)) eqn:E; [intros [= <-]; eauto|].
    destruct (Re.in_charset cs c); [exact IH|discriminate].
Qed.

Lemma star_greedy_total {A} cs s (k : string -> option A) :
  (forall s', is_Some (k s')) -> is_Some (Re.star_greedy cs s k).
Proof.
  intros Hk. induction s as [|c s IH]; cbn [Re.star_greedy]; [apply Hk|].
  destruct (Re.in_charset cs c); [|apply Hk].
  destruct (Re.star_greedy cs s k); [eauto|apply Hk].
Qed.

(** A match is an answer of the continuation, called on captures that
    keep those the match started with. *)
Lemma rmatch_from r :
  forall s g k g',
    Re.rmatch r s g k = Some g' ->
    exists s' g1,
      k s' g1 = Some g' /\ forall n, is_Some (g n) -> is_Some (g1 n).
Proof.
  induction r as [|c|cs|cs|cs|r IH|r1 IH1 r2 IH2|n r IH];
    intros s g k g'; cbn [Re.rmatch].
  - eauto.
  - destruct s as [|d s]; [discriminate|].
    destruct (Ascii.eqb c d); [eauto|discriminate].
  - intros H. apply star_greedy_from in H as (s' & H). eauto.
  - intros H. apply star_lazy_from in H as (s' & H). eauto.
  - destruct s as [|d s]; [discriminate|].
    destruct (Re.in_charset cs d); [|discriminate].
    intros H. apply star_greedy_from in H as (s' & H). eauto.
  - destruct (Re.rmatch r s g k) eqn:E; [|eauto].
    intros [= <-]. eapply IH. exact E.
  - intros H. apply IH1 in H as (s1 & g1 & H & H1).
    apply IH2 in H as (s2 & g2 & H & H2).
    exists s2, g2. split; [exact H|]. intros n Hn. apply H2, H1, Hn.
  - intros H. apply IH in H as (s1 & g1 & H & H1).
    eexists _, _. split; [exact H|]. intros m Hm. unfold Re.set_cap.
    destruct (Nat.eqb m n); eauto.
Qed.

Lemma payload_group g s g' :
  Re.rmatch re_payload s g final = Some g' -> is_Some (g' 3%nat).
Proof.
  unfold re_payload. cbn [Re.rmatch].
  match goal with
  | |- match ?body with _ => _ end = _ -> _ => destruct body as [x|] eqn:E
  end.
  - intros [= <-]. apply star_greedy_from in E as (s' & E).
    match type of E with
    | match ?inner with _ => _ end = _ => destruct inner as [y|] eqn:F
    end.
    + injection E as ->.
      apply (rmatch_from re_close) in F as (s1 & g1 & F & H).
      unfold final in F. injection F as <-.
      unfold Re.set_cap at 1. cbn [Nat.eqb]. apply H.
      unfold Re.set_cap. cbn [Nat.eqb]. eauto.
    + unfold final in E. injection E as <-.
      unfold Re.set_cap. cbn [Nat.eqb]. eauto.
  - exfalso.
    match type of E with
    | ?run = None => assert (H : is_Some run)
    end.
    { apply star_greedy_total. intros s'.
      destruct (Re.rmatch re_close s' _ _); unfold final; eauto. }
    rewrite E in H. destruct H as [x H]. discriminate.
Qed.

Lemma rmatch_seq r1 r2 s g k :
  Re.rmatch (Re.Seq r1 r2) s g k
  = Re.rmatch r1 s g (fun s' g' => Re.rmatch r2 s' g' k).
Proof. reflexivity. Qed.

Lemma rmatch_group_from n r s g k g' :
  Re.rmatch (Re.Group n r) s g k = Some g' ->
  exists s' g1,
    k s' g1 = Some g' /\ is_Some (g1 n)
    /\ forall m, is_Some (g m) -> is_Some (g1 m).
Proof.
  cbn [Re.rmatch]. intros H. apply rmatch_from in H as (s1 & g1 & H & H1).
  eexists _, _. split; [exact H|]. unfold Re.set_cap. split.
  - rewrite Nat.eqb_refl. eauto.
  - intros m Hm. destruct (Nat.eqb m n); eauto.
Qed.

Lemma match_here_groups s g :
  Re.match_here tagRE s = Some g ->
  is_Some (g 1%nat) /\ is_Some (g 2%nat) /\ is_Some (g 3%nat).
Proof.
  unfold Re.match_here. rewrite tagRE_parts, rmatch_seq. intros H.
  destruct (rmatch_group_from _ _ _ _ _ _ H) as (s1 & g1 & H1 & G1 & _).
  cbv beta in H1. unfold re_tag in H1. rewrite rmatch_seq in H1.
  destruct (rmatch_from _ _ _ _ _ H1) as (s2 & g2 & H2 & E2).
  cbv beta in H2. rewrite rmatch_seq in H2.
  destruct (rmatch_group_from _ _ _ _ _ _ H2) as (s3 & g3 & H3 & G3 & E3).
  cbv beta in H3. rewrite rmatch_seq in H3.
  destruct (rmatch_from _ _ _ _ _ H3) as (s4 & g4 & H4 & E4).
  cbv beta in H4. rewrite rmatch_seq in H4.
  destruct (rmatch_from _ _ _ _ _ H4) as (s5 & g5 & H5 & E5).
  cbv beta in H5.
  change (Re.rmatch re_payload s5 g5 final = Some g) in H5.
  split; [|split].
  - destruct (rmatch_from _ _ _ _ _ H5) as (s6 & g6 & [= <-] & E6).
    apply E6, E5, E4, E3, E2, G1.
  - destruct (rmatch_from _ _ _ _ _ H5) as (s6 & g6 & [= <-] & E6).
    apply E6, E5, E4, G3.
  - eapply payload_group. exact H5.
Qed.

Lemma search_groups line g :
  Re.search tagRE line = Some g ->
  is_Some (g 1%nat) /\ is_Some (g 2%nat) /\ is_Some (g 3%nat).
Proof.
  induction line as [|c line IH]; cbn [Re.search].
  - destruct (Re.match_here tagRE EmptyString) eqn:E; [|discriminate].
    intros [= <-]. eapply match_here_groups. exact E.
  - destruct (Re.match_here tagRE (String c line)) eqn:E; [|exact IH].
    intros [= <-]. eapply match_here_groups. exact E.
Qed.

(** In a match of [tagRE], groups 1, 2 and 3 always take part: the
    strings of a [Match] are the captured texts, never a default. *)
Lemma tagRE_groups line m :
  tagRE_search line = Some m ->
  exists g,
    Re.search tagRE line = Some g
    /\ g 1%nat = Some (group1 m) /\ g 2%nat = Some (group2 m)
    /\ g 3%nat = Some (group3 m) /\ g 4%nat = group4 m.
Proof.
  unfold tagRE_search. destruct (Re.search tagRE line) as [g|] eqn:E;
    [|discriminate].
  intros [= <-]. exists g. split; [reflexivity|].
  destruct (search_groups _ _ E) as ([x1 H1] & [x2 H2] & [x3 H3]).
  unfold to_Match. cbn [group1 group2 group3 group4].
  rewrite H1, H2, H3. repeat split; reflexivity.
Qed.

(** ** An execution that completes *)

Section Completion.
Import Pipeline.
Variable extract : Job -> string.
Variable maxsize : Z.

Lemma exec_app s a b :
  exec extract maxsize s (a ++ b)
  = match exec extract maxsize s a with
    | Some (tr, s') =>
        match exec extract maxsize s' b with
        | Some (tr', s'') => Some (tr ++ tr', s'')
        | None => None
        end
    | None => None
    end.
Proof.
  revert s. induction a as [|c a IH]; intros s.
  - cbn. destruct (exec extract maxsize s b) as [[tr s']|]; reflexivity.
  - cbn [app exec]. destruct (step extract maxsize s c) as [[e s1]|];
      [|reflexivity].
    rewrite IH. destruct (exec extract maxsize s1 a) as [[tr s2]|];
      [|reflexivity].
    destruct (exec extract maxsize s2 b) as [[tr' s3]|]; reflexivity.
Qed.

Lemma full_nil {A} : full (A := A) maxsize [] = false.
Proof.
  unfold full. cbn [length]. destruct (0 <? maxsize) eqn:E; [|reflexivity].
  apply Z.ltb_lt in E. cbn. apply Z.leb_gt. lia.
Qed.

Lemma reaches_app s a s1 b s2 :
  reaches extract maxsize s a s1 ->
  reaches extract maxsize s1 b s2 ->
  reaches extract maxsize s (a ++ b) s2.
Proof.
  intros [tr1 H1] [tr2 H2]. exists (tr1 ++ tr2).
  rewrite exec_app, H1, H2. reflexivity.
Qed.

Lemma start_workers ws :
  forall rest jq oq wl r wr,
    reaches extract maxsize (mkSys ((StartWorker <$> ws) ++ rest) jq oq wl r wr)
      (replicate (length ws) CMain)
      (mkSys rest jq oq (wl ++ replicate (length ws) Idle) r wr).
Proof.
  induction ws as [|w ws IH]; intros rest jq oq wl r wr.
  - exists []. cbn. rewrite app_nil_r. reflexivity.
  - apply (reaches_app _ [CMain] (mkSys ((StartWorker <$> ws) ++ rest) jq oq
                                    (wl ++ [Idle]) r wr)).
    + eexists. reflexivity.
    + replace (wl ++ replicate (length (w :: ws)) Idle)
        with ((wl ++ [Idle]) ++ replicate (length ws) Idle)
        by (rewrite <- app_assoc; reflexivity).
      apply IH.
Qed.

Lemma step_put_job j rest jq oq wl r wr :
  full maxsize jq = false ->
  step extract maxsize (mkSys (PutJob j :: rest) jq oq wl r wr) CMain
  = Some (EMain (PutJob j), mkSys rest (jq ++ [j]) oq wl r wr).
Proof.
  intros H.
  unfold step, worker_step, main_step, set_worker.
  cbn [workers jobs_queue output_queue main reduce written].
  rewrite H. reflexivity.
Qed.

Lemma step_get_job w j m q oq wl r wr :
  wl !! w = Some Idle ->
  step extract maxsize (mkSys m (Some j :: q) oq wl r wr) (CWorker w)
  = Some (EGet w (Some j),
          mkSys m q oq (<[w := Busy (result_of extract j)]> wl) r wr).
Proof.
  intros H.
  unfold step, worker_step, main_step, set_worker.
  cbn [workers jobs_queue output_queue main reduce written].
  rewrite H. reflexivity.
Qed.

Lemma step_get_sentinel w m q oq wl r wr :
  wl !! w = Some Idle ->
  step extract maxsize (mkSys m (None :: q) oq wl r wr) (CWorker w)
  = Some (EGet w None, mkSys m q oq (<[w := Exited]> wl) r wr).
Proof.
  intros H.
  unfold step, worker_step, main_step, set_worker.
  cbn [workers jobs_queue output_queue main reduce written].
  rewrite H. reflexivity.
Qed.

Lemma step_put_result w x m jq oq wl r wr :
  wl !! w = Some (Busy x) ->
  full maxsize oq = false ->
  step extract maxsize (mkSys m jq oq wl r wr) (CWorker w)
  = Some (EPut w x, mkSys m jq (oq ++ [Some x]) (<[w := Idle]> wl) r wr).
Proof.
  intros H F.
  unfold step, worker_step, set_worker.
  cbn [workers jobs_queue output_queue main reduce written].
  rewrite H, F. reflexivity.
Qed.

Lemma step_pop_result x m jq q wl wr :
  step extract maxsize (mkSys m jq (Some x :: q) wl RRunning wr) CReduce
  = Some (EPop (Some x),
          mkSys m jq q wl RRunning
            (wr ++ [(res_id x, res_title x, res_text x)])).
Proof. reflexivity. Qed.

Lemma run_jobs jobs :
  forall rest wl wr,
    wl !! 0%nat = Some Idle ->
    reaches extract maxsize
      (mkSys (((fun j => PutJob (Some j)) <$> jobs) ++ rest) [] [] wl
               RRunning wr)
      (concat ((fun _ => job_round) <$> jobs))
      (mkSys rest [] [] wl RRunning (wr ++ (written_of extract <$> jobs))).
Proof.
  induction jobs as [|j jobs IH]; intros rest wl wr Hw.
  - exists []. cbn. rewrite app_nil_r. reflexivity.
  - cbn [fmap list_fmap concat].
    apply (reaches_app _ job_round
             (mkSys (((fun j => PutJob (Some j)) <$> jobs) ++ rest) [] [] wl
                RRunning (wr ++ [written_of extract j]))).
    + eexists. unfold job_round. cbn [exec app].
      rewrite step_put_job by apply full_nil. cbn [app].
      rewrite (step_get_job _ _ _ _ _ _ _ _ Hw).
      rewrite (step_put_result 0 (result_of extract j))
        by (apply full_nil
            || (apply list_lookup_insert_eq; eapply lookup_lt_Some; exact Hw)).
      cbn [app]. rewrite step_pop_result.
      rewrite list_insert_insert_eq, (list_insert_id _ _ _ Hw).
      reflexivity.
    + replace (wr ++ written_of extract j :: (written_of extract <$> jobs))
        with ((wr ++ [written_of extract j]) ++ (written_of extract <$> jobs))
        by (rewrite <- app_assoc; reflexivity).
      apply IH. exact Hw.
Qed.

Lemma run_sentinels n :
  forall i rest r wr,
    reaches extract maxsize
      (mkSys (((fun _ => PutJob None) <$> seq i n) ++ rest) [] []
               (replicate i Exited ++ replicate n Idle) r wr)
      (concat (sentinel_round <$> seq i n))
      (mkSys rest [] [] (replicate (i + n) Exited) r wr).
Proof.
  induction n as [|n IH]; intros i rest r wr.
  - exists []. cbn. rewrite app_nil_r, Nat.add_0_r. reflexivity.
  - cbn [seq fmap list_fmap concat].
    assert (Hw : (replicate i Exited ++ replicate (S n) Idle) !! i = Some Idle).
    { rewrite lookup_app_r by (rewrite length_replicate; lia).
      rewrite length_replicate, Nat.sub_diag. reflexivity. }
    apply (reaches_app _ (sentinel_round i)
             (mkSys (((fun _ => PutJob None) <$> seq (S i) n) ++ rest) [] []
                (replicate (S i) Exited ++ replicate n Idle) r wr)).
    + eexists. unfold sentinel_round. cbn [exec app].
      rewrite step_put_job by apply full_nil. cbn [app].
      rewrite (step_get_sentinel _ _ _ _ _ _ _ Hw).
      do 3 f_equal.
      rewrite insert_app_r_alt by (rewrite length_replicate; lia).
      rewrite length_replicate, Nat.sub_diag.
      change (<[0%nat := Exited]> (replicate (S n) Idle))
        with (Exited :: replicate n Idle).
      rewrite replicate_S_end, <- app_assoc. reflexivity.
    + replace (i + S n)%nat with (S i + n)%nat by lia. apply IH.
Qed.

Lemma run_joins n :
  forall i rest jq oq k r wr,
    (i + n <= k)%nat ->
    reaches extract maxsize (mkSys ((JoinWorker <$> seq i n) ++ rest) jq oq
               (replicate k Exited) r wr)
      (replicate n CMain)
      (mkSys rest jq oq (replicate k Exited) r wr).
Proof.
  induction n as [|n IH]; intros i rest jq oq k r wr Hk.
  - exists []. reflexivity.
  - cbn [seq fmap list_fmap replicate].
    apply (reaches_app _ [CMain]
             (mkSys ((JoinWorker <$> seq (S i) n) ++ rest) jq oq
                (replicate k Exited) r wr)).
    + eexists. cbn [exec app]. unfold step, main_step.
      cbn [main workers]. rewrite lookup_replicate_2 by lia. reflexivity.
    + apply IH. lia.
Qed.

(** With at least one worker, the actions of a run that reaches the end of
    [process_dump] have an execution in which the main line of control does
    all of them, every worker leaves its loop, and the reducer writes the
    result of every job and stops. *)
Lemma pipeline_completes (n : nat) (jobs : list Job) :
  exists schedule,
    reaches extract maxsize (initial (pipeline_script (seq 0 (S n)) jobs))
      schedule
      (mkSys [] [] [] (replicate (S n) Exited) RStopped
         (written_of extract <$> jobs)).
Proof.
  eexists. unfold pipeline_script, initial.
  eapply (reaches_app _ [CMain]); [eexists; reflexivity|].
  eapply reaches_app; [apply start_workers|]. rewrite length_seq.
  eapply reaches_app; [apply run_jobs; reflexivity|].
  eapply reaches_app; [apply (run_sentinels (S n) 0)|].
  eapply reaches_app; [apply (run_joins (S n) 0); lia|].
  exists [EMain (PutOutput None); EPop None; EMain JoinReduce].
  instantiate (1 := [CMain; CReduce; CMain]).
  cbn [exec]. unfold step at 1, main_step. cbn [main output_queue].
  rewrite full_nil. reflexivity.
Qed.
End Completion.

(** C2. A run of [process_dump] that reaches its end has, after the puts
    of the jobs, one sentinel put on the job queue for each worker it
    started, then the joins of all workers, then a single sentinel put on
    the result queue, then the join of the reducer. In every execution of
    the processes the actions of the main line of control occur in that
    order; once the sentinel of the result queue has been put, every worker
    has been joined and has left its loop on a sentinel of the job queue;
    the reducer has stopped exactly when it has popped a sentinel, which is
    the one the main line put; a step of the reducer leaves its loop
    exactly when the item it pops is the sentinel. Some execution does all
    the actions of the main line, ends with every worker out of its loop
    and the reducer stopped, and has written one page for each job. *)
Theorem sentinel_handshake
    (g : Globals) (fs : gmap string string) (input_file : string)
    (template_file : option string) (process_count : Z)
    (expand_templates : bool) (extract : Job -> string) :
  let r := process_dump g fs input_file template_file process_count
             expand_templates in
  let ws := worker_ids process_count in
  run_error r = None ->
  (exists jobs,
      run_actions r = pipeline_script ws jobs
      /\ exists schedule tr,
           Pipeline.exec extract (10 * process_count)
             (Pipeline.initial (run_actions r)) schedule
           = Some (tr, Pipeline.mkSys [] [] []
                         (replicate (length ws) Pipeline.Exited)
                         Pipeline.RStopped (written_of extract <$> jobs)))
  /\ length (List.filter is_job_sentinel (run_actions r)) = length ws
  /\ length (List.filter is_output_sentinel (run_actions r)) = 1%nat
  /\ (forall schedule tr s,
        Pipeline.exec extract (10 * process_count)
          (Pipeline.initial (run_actions r)) schedule = Some (tr, s) ->
        main_events tr ++ Pipeline.main s = run_actions r
        /\ (Pipeline.EMain (PutOutput None) ∈ tr ->
            forall w, w ∈ ws ->
              Pipeline.EMain (JoinWorker w) ∈ tr
              /\ Pipeline.EGet w None ∈ tr
              /\ Pipeline.workers s !! w = Some Pipeline.Exited)
        /\ (Pipeline.reduce s = Pipeline.RStopped
            <-> Pipeline.EPop None ∈ tr)
        /\ (Pipeline.EPop None ∈ tr ->
            Pipeline.EMain (PutOutput None) ∈ tr))
  /\ (forall s x s',
        Pipeline.reduce_step s = Some (Pipeline.EPop x, s') ->
        (Pipeline.reduce s' = Pipeline.RStopped <-> x = None)).
Proof.
  intros r ws Hok.
  destruct (process_dump_script _ _ _ _ _ _ Hok) as (jobs & Hscript).
  fold r ws in Hscript.
  split.
  { exists jobs. split; [exact Hscript|]. rewrite Hscript.
    assert (Hws : exists n, ws = seq 0 (S n)).
    { exists (Nat.pred (Z.to_nat (Z.max 1 process_count))).
      unfold ws, worker_ids. f_equal. lia. }
    destruct Hws as (n & Hn). rewrite Hn, length_seq.
    destruct (pipeline_completes extract (10 * process_count) n jobs)
      as (schedule & tr & Hrun).
    exists schedule, tr. exact Hrun. }
  rewrite Hscript.
  split; [apply pipeline_script_job_sentinels|].
  split; [apply pipeline_script_output_sentinels|].
  split.
  - intros schedule tr s Hexec.
    destruct (pipeline_script_tail ws jobs) as (tail & Hhead & Htail).
    pose proof (inv_reachable extract (10 * process_count) _ tail Hhead Htail
                  schedule tr s Hexec) as [I1 I2 I3 I4 I5 _].
    split; [symmetry; exact I1|].
    split; [|split; [exact I4|intros H; apply I5; right; exact H]].
    intros Hput w Hw.
    assert (Hj : Pipeline.EMain (JoinWorker w) ∈ tr).
    { apply elem_of_main_events.
      apply (prefix_up_to (PutOutput None)
               (StartReduce :: (StartWorker <$> ws)
                ++ ((fun j => PutJob (Some j)) <$> jobs)
                ++ ((fun _ => PutJob None) <$> ws)
                ++ (JoinWorker <$> ws))
               [JoinReduce] (main_events tr) (Pipeline.main s)).
      - rewrite <- I1. unfold pipeline_script. cbn.
        rewrite <- !app_assoc. reflexivity.
      - apply elem_of_main_events. exact Hput.
      - rewrite not_elem_of_cons, !not_elem_of_app, !list_elem_of_fmap.
        repeat split; try discriminate;
          intros (x & Hx & _); discriminate.
      - right. rewrite !elem_of_app, !list_elem_of_fmap.
        do 3 right. eauto. }
    split; [exact Hj|]. pose proof (I3 w Hj) as Hg.
    split; [exact Hg|]. apply I2. exact Hg.
  - intros s x s'. unfold Pipeline.reduce_step.
    repeat case_match; intros Hr; simplify_eq; cbn; split; congruence.
Qed.

Lemma sentinel_handshake_witness :
  let g := initial_globals {[ "Category" ]} EmptyString in
  let fs : gmap string string := {[ "dump.xml" := category_dump ]} in
  let r := process_dump g fs "dump.xml" None 1 false in
  length (List.filter is_job_sentinel (run_actions r))
  = length (worker_ids 1)
  /\ length (List.filter is_output_sentinel (run_actions r)) = 1%nat.
Proof.
  intros g fs r.
  assert (Hok : run_error r = None) by (vm_compute; reflexivity).
  destruct (sentinel_handshake g fs "dump.xml" None 1 false
              (fun j => Py.join (job_page j)) Hok)
    as (_ & H1 & H2 & _).
  split; assumption.
Defined.

(** A complete execution of the run above, with one worker: the page is
    written once, the worker has left its loop, the reducer has stopped
    and the main line of control has nothing left to do. *)
Example one_worker_execution :
  let r := process_dump (initial_globals {[ "Category" ]} EmptyString)
             {[ "dump.xml" := category_dump ]} "dump.xml" None 1 false in
  Pipeline.exec (fun j => Py.join (job_page j)) 10
    (Pipeline.initial (run_actions r))
    [ Pipeline.CMain; Pipeline.CMain; Pipeline.CMain; Pipeline.CMain;
      Pipeline.CWorker 0; Pipeline.CWorker 0; Pipeline.CWorker 0;
      Pipeline.CMain; Pipeline.CMain;
      Pipeline.CReduce; Pipeline.CReduce; Pipeline.CMain ]
  = Some
      ([ Pipeline.EMain StartReduce; Pipeline.EMain (StartWorker 0);
         Pipeline.EMain
           (PutJob (Some (mkJob "1" EmptyString "http://x.org/wiki"
                            "Category:Foo" ["body"] 0)));
         Pipeline.EMain (PutJob None);
         Pipeline.EGet 0
           (Some (mkJob "1" EmptyString "http://x.org/wiki" "Category:Foo"
                    ["body"] 0));
         Pipeline.EPut 0 (mkResult 0 "1" "Category:Foo" "body");
         Pipeline.EGet 0 None;
         Pipeline.EMain (JoinWorker 0); Pipeline.EMain (PutOutput None);
         Pipeline.EPop (Some (mkResult 0 "1" "Category:Foo" "body"));
         Pipeline.EPop None; Pipeline.EMain JoinReduce ],
       Pipeline.mkSys [] [] [] [Pipeline.Exited] Pipeline.RStopped
         [("1", "Category:Foo", "body")]).
Proof. vm_compute. reflexivity. Qed.

(** The sentinel of the result queue cannot be put while a worker is
    alive: the join before it is not enabled. *)
Example join_blocks_on_live_worker :
  let r := process_dump (initial_globals {[ "Category" ]} EmptyString)
             {[ "dump.xml" := category_dump ]} "dump.xml" None 1 false in
  Pipeline.exec (fun j => Py.join (job_page j)) 10
    (Pipeline.initial (run_actions r))
    [ Pipeline.CMain; Pipeline.CMain; Pipeline.CMain; Pipeline.CMain;
      Pipeline.CMain ]
  = None.
Proof. vm_compute. reflexivity. Qed.

(** ** File names of the page writer *)

Lemma sub_class_length p r s :
  String.length (sub_class p r s) = String.length s.
Proof. induction s as [|c s IH]; [reflexivity|]. cbn. by rewrite IH. Qed.

Lemma sub_class_clean p r s c :
  p c = true -> p r = false -> Py.has_char c (sub_class p r s) = false.
Proof.
  intros Hc Hr. induction s as [|d s IH]; [reflexivity|].
  cbn [sub_class Py.has_char]. destruct (p d) eqn:Hd.
  - destruct (Ascii.eqb c r) eqn:E; [|exact IH].
    apply Ascii.eqb_eq in E. congruence.
  - destruct (Ascii.eqb c d) eqn:E; [|exact IH].
    apply Ascii.eqb_eq in E. congruence.
Qed.

Lemma sub_class_take p r n s :
  sub_class p r (Py.take n s) = Py.take n (sub_class p r s).
Proof.
  revert s. induction n as [|n IH]; intros [|c s]; try reflexivity.
  cbn [Py.take sub_class]. by rewrite IH.
Qed.

Lemma sub_class_append p r a b :
  sub_class p r (a +:+ b) = sub_class p r a +:+ sub_class p r b.
Proof.
  induction a as [|c a IH]; [reflexivity|].
  rewrite append_cons. cbn [sub_class]. rewrite IH. reflexivity.
Qed.

Lemma has_char_take c n s :
  Py.has_char c s = false -> Py.has_char c (Py.take n s) = false.
Proof.
  revert s. induction n as [|n IH]; intros [|d s]; try reflexivity.
  cbn [Py.take Py.has_char]. destruct (Ascii.eqb c d); [discriminate|].
  apply IH.
Qed.

Lemma take_length n s :
  String.length (Py.take n s) = Nat.min n (String.length s).
Proof.
  revert s. induction n as [|n IH]; intros [|d s]; try reflexivity.
  cbn [Py.take String.length]. by rewrite IH.
Qed.

Lemma take_take n s : Py.take n (Py.take n s) = Py.take n s.
Proof.
  revert s. induction n as [|n IH]; intros [|d s]; try reflexivity.
  cbn [Py.take]. by rewrite IH.
Qed.

Lemma take_all n s : (String.length s <= n)%nat -> Py.take n s = s.
Proof.
  revert s. induction n as [|n IH]; intros [|d s]; cbn [String.length];
    try reflexivity; try lia.
  intros H. cbn [Py.take]. rewrite IH by lia. reflexivity.
Qed.

(** The name before the extension: the title with its unsafe characters
    replaced, cut after 200 characters. *)
Lemma safe_filename_stem title :
  get_safe_filename title
  = Py.take 200 (sub_class unsafe_char "_" title) +:+ ".md".
Proof.
  unfold get_safe_filename. f_equal.
  destruct (200 <? _) eqn:E; [reflexivity|].
  apply Z.ltb_ge in E. symmetry. apply take_all. lia.
Qed.

Lemma unsafe_not_in_extension c :
  unsafe_char c = true -> Py.has_char c ".md" = false.
Proof.
  destruct c as [[] [] [] [] [] [] [] []]; vm_compute; congruence.
Qed.

Lemma safe_filename_clean title c :
  unsafe_char c = true -> Py.has_char c (get_safe_filename title) = false.
Proof.
  intros Hc. rewrite safe_filename_stem, has_char_append.
  rewrite has_char_take by (apply sub_class_clean; [exact Hc|reflexivity]).
  apply unsafe_not_in_extension. exact Hc.
Qed.

(** X1. The file name [get_safe_filename] returns holds none of the
    characters its pattern names, whatever the title is: no slash,
    backslash, question mark, percent, star, colon, bar, double quote,
    angle bracket or white space. *)
Theorem safe_filename_has_no_unsafe_character (title : string) (c : ascii) :
  unsafe_char c = true ->
  Py.has_char c (get_safe_filename title) = false.
Proof. apply safe_filename_clean. Qed.

Lemma safe_filename_has_no_unsafe_character_witness :
  unsafe_char "/" = true
  /\ Py.has_char "/" (get_safe_filename "AC/DC: Live") = false.
Proof.
  split; [reflexivity|].
  apply (safe_filename_has_no_unsafe_character "AC/DC: Live" "/").
  reflexivity.
Defined.

(** X2. The file name is the title's length, at most 200, plus the three
    characters of the extension: it is never longer than 203 characters,
    and it ends with the extension. *)
Theorem safe_filename_length (title : string) :
  String.length (get_safe_filename title)
  = (Nat.min 200 (String.length title) + 3)%nat
  /\ exists stem, get_safe_filename title = stem +:+ ".md".
Proof.
  rewrite safe_filename_stem. split; [|eauto].
  rewrite length_append, take_length, sub_class_length. reflexivity.
Qed.

(** X3. Only the first 200 characters of a title reach the file name:
    titles that agree on them get the same name. *)
Theorem safe_filename_reads_200_characters (title : string) :
  get_safe_filename title = get_safe_filename (Py.take 200 title).
Proof.
  rewrite !safe_filename_stem, sub_class_take, take_take. reflexivity.
Qed.

Lemma safe_filename_unsafe_char a b c1 c2 :
  unsafe_char c1 = true -> unsafe_char c2 = true ->
  get_safe_filename (a +:+ String c1 b)
  = get_safe_filename (a +:+ String c2 b).
Proof.
  intros H1 H2. rewrite !safe_filename_stem, !sub_class_append.
  cbn [sub_class]. rewrite H1, H2. reflexivity.
Qed.

(** X4. Two titles that differ in one unsafe character have the same file:
    when the reducer writes both pages, the text of the first is replaced
    by that of the second, as if only the second had been written. (When
    the file cannot be opened, the first call raises in the one case and
    the only call in the other, and nothing is written in either.) *)
Theorem colliding_titles_overwrite
    (self : PageWriter) (can_open : string -> bool)
    (fs : gmap string string)
    (a b : string) (c1 c2 : ascii) (id1 id2 text1 text2 : string) :
  unsafe_char c1 = true -> unsafe_char c2 = true ->
  write_pages self can_open fs
    [ (id1, a +:+ String c1 b, text1); (id2, a +:+ String c2 b, text2) ]
  = write_pages self can_open fs [ (id2, a +:+ String c2 b, text2) ].
Proof.
  intros H1 H2. cbn [write_pages]. unfold write_page.
  rewrite (safe_filename_unsafe_char a b c1 c2 H1 H2).
  destruct (can_open _); [|reflexivity].
  rewrite insert_insert_eq. reflexivity.
Qed.

Lemma colliding_titles_overwrite_witness :
  write_pages (mkPageWriter "text") (name_limit 255) ∅
    [ ("1", "AC" +:+ String "/" "DC", "one");
      ("2", "AC" +:+ String ":" "DC", "two") ]
  = write_pages (mkPageWriter "text") (name_limit 255) ∅
      [ ("2", "AC" +:+ String ":" "DC", "two") ].
Proof.
  apply (colliding_titles_overwrite (mkPageWriter "text") (name_limit 255) ∅
           "AC" "DC" "/" ":" "1" "2" "one" "two"); reflexivity.
Defined.

Example colliding_titles_file :
  write_pages (mkPageWriter "text") (name_limit 255) ∅
    [ ("1", "AC/DC", "one"); ("2", "AC:DC", "two") ]
  = ({[ "text/AC_DC.md" := "two" ]}, true).
Proof. vm_compute. reflexivity. Qed.



(** A title of 130 accented letters has 130 characters, which is under
    the cut at 200, and a file name of 263 bytes: on a file system that
    takes names of at most 255 bytes the open raises and nothing is
    written. The same number of unaccented letters is written. *)
Example long_accented_title_is_not_written :
  String.length (get_safe_filename accented_title) = 133%nat
  /\ utf8_length (get_safe_filename accented_title) = 263%nat
  /\ write_page (mkPageWriter "text") (name_limit 255) ∅ "1" accented_title
       "body" = None
  /\ write_pages (mkPageWriter "text") (name_limit 255) ∅
       [ ("1", accented_title, "body"); ("2", "Hello", "more") ]
     = (∅, false)
  /\ is_Some (write_page (mkPageWriter "text") (name_limit 255) ∅ "1"
                (repeated 130 "e") "body").
Proof. vm_compute. repeat split; eauto. Qed.

(** ** The version of the package *)

Section Version.
Import Setup.

Lemma digits_spec s :
  s = (digits s).1 +:+ (digits s).2
  /\ all_chars is_digit (digits s).1 = true
  /\ no_digit_ahead (digits s).2.
Proof.
  induction s as [|c s (IH1 & IH2 & IH3)]; [by repeat split|].
  cbn [digits]. destruct (is_digit c) eqn:E.
  - destruct (digits s) as [a r]. cbn [fst snd] in *.
    rewrite append_cons, <- IH1. cbn [all_chars]. rewrite E, IH2. done.
  - cbn [fst snd no_digit_ahead all_chars]. done.
Qed.

Lemma digits_run a r :
  all_chars is_digit a = true -> no_digit_ahead r ->
  digits (a +:+ r) = (a, r).
Proof.
  intros Ha Hr. induction a as [|c a IH].
  - destruct r as [|c r]; [reflexivity|].
    cbn [no_digit_ahead] in Hr.
    change (digits (String c r) = (EmptyString, String c r)).
    cbn [digits]. rewrite Hr. reflexivity.
  - cbn [all_chars] in Ha. apply andb_true_iff in Ha as [Hc Ha].
    rewrite append_cons. cbn [digits]. rewrite Hc, (IH Ha). reflexivity.
Qed.

Lemma version_re_run a b tail :
  a <> EmptyString -> b <> EmptyString ->
  all_chars is_digit a = true -> all_chars is_digit b = true ->
  no_digit_ahead tail ->
  version_re (a +:+ String "." (b +:+ tail))
  = String.eqb tail EmptyString || String.eqb tail nl.
Proof.
  intros Ha Hb Da Db Ht. unfold version_re.
  rewrite (digits_run a) by done.
  destruct a as [|a0 a]; [done|].
  rewrite (digits_run b) by done.
  destruct b as [|b0 b]; [done|]. reflexivity.
Qed.

Lemma version_re_two_numbers v : version_re v = true <-> two_numbers v.
Proof.
  split.
  - unfold version_re. intros H.
    destruct (digits_spec v) as (E1 & D1 & _).
    destruct (digits v) as [a r]. cbn [fst snd] in *.
    destruct a as [|a0 a]; [discriminate|].
    destruct r as [|c r]; [discriminate|].
    destruct (Ascii.eqb_spec c ".") as [->|Hc].
    2:{ exfalso. revert H Hc.
        destruct c as [[] [] [] [] [] [] [] []]; congruence. }
    destruct (digits_spec r) as (E2 & D2 & _).
    destruct (digits r) as [b r']. cbn [fst snd] in *.
    destruct b as [|b0 b]; [discriminate|].
    exists (String a0 a), (String b0 b).
    repeat split; try done.
    apply orb_true_iff in H as [H|H]; apply String.eqb_eq in H; subst r'.
    + left. rewrite E1, E2, append_nil_r. reflexivity.
    + right. rewrite E1, E2. reflexivity.
  - intros (a & b & Ha & Hb & Da & Db & [->| ->]).
    + rewrite <- (append_nil_r b). by rewrite version_re_run.
    + by rewrite version_re_run.
Qed.

Lemma version_re_patched v :
  version_re v = true -> version_re (v +:+ ".0") = false.
Proof.
  intros H. apply version_re_two_numbers in H
    as (a & b & Ha & Hb & Da & Db & [->| ->]).
  - rewrite append_assoc, append_cons. by rewrite version_re_run.
  - rewrite append_assoc, append_cons, append_assoc.
    by rewrite version_re_run.
Qed.
End Version.

(** X6. [get_version] appends [.0] exactly to the strings made of two runs
    of digits with a dot between them, followed by nothing or by one
    newline (after which the [.0] is put); every other string is returned
    as it is. *)
Theorem get_version_adds_patch_number (version : string) :
  (two_numbers version -> Setup.get_version version = version +:+ ".0")
  /\ (~ two_numbers version -> Setup.get_version version = version).
Proof.
  unfold Setup.get_version. split; intros H.
  - apply version_re_two_numbers in H. rewrite H. reflexivity.
  - destruct (Setup.version_re version) eqn:E; [|reflexivity].
    exfalso. apply H, version_re_two_numbers. exact E.
Qed.

Example get_version_after_newline :
  Setup.get_version ("1.2" +:+ nl) = "1.2" +:+ nl +:+ ".0".
Proof. reflexivity. Qed.

(** X7. [get_version] is idempotent: a version it has completed has three
    parts and is left alone by a second call. *)
Theorem get_version_idempotent (version : string) :
  Setup.get_version (Setup.get_version version) = Setup.get_version version.
Proof.
  unfold Setup.get_version.
  destruct (Setup.version_re version) eqn:E;
    [rewrite (version_re_patched _ E)|rewrite E]; reflexivity.
Qed.

(** ** More on the page collector *)

Section CollectMore.
Import CollectPages.
Variable acc : gset string.
Variable tn : string.

Lemma yield_test_same_id st t :
  id st = last_id st -> yield_test acc tn st t = false.
Proof.
  intros H. rewrite yield_test_split, H, String.eqb_refl.
  apply andb_false_r.
Qed.

(** Without a line of tag [id], [id] and [last_id] stay empty and nothing
    is yielded. *)
Lemma step_no_id st line st' y :
  tag_of line <> Some "id" ->
  id st = EmptyString -> last_id st = EmptyString ->
  step acc tn st line = Next st' y ->
  id st' = EmptyString /\ last_id st' = EmptyString /\ y = None.
Proof.
  intros Hn Hi Hl. unfold step, step_with.
  destruct (has_angle line) eqn:Ha; cbn [negb].
  2:{ intros [= <- <-]. by destruct (inText st). }
  destruct (tagRE_search line) as [m|] eqn:Hm; [|by intros [= <- <-]].
  assert (Ht : group2 m <> "id").
  { intros E. apply Hn. rewrite (tag_of_matched _ _ Ha Hm). by rewrite E. }
  apply String.eqb_neq in Ht. unfold on_tag. rewrite Ht. cbn [andb].
  unfold end_page. destruct (title st) as [t|].
  - rewrite (yield_test_same_id st) by congruence.
    intros H. repeat case_match; simplify_eq; cbn; done.
  - intros H. repeat case_match; simplify_eq; cbn; done.
Qed.

Lemma run_no_id st text :
  Forall (fun line => tag_of line <> Some "id") text ->
  id st = EmptyString -> last_id st = EmptyString ->
  fst (run acc tn st text) = [].
Proof.
  intros H. revert st. induction H as [|x text Hx _ IH]; intros st Hi Hl;
    [reflexivity|].
  cbn [run]. destruct (step acc tn st x) as [st' y|] eqn:E; [|reflexivity].
  destruct (step_no_id _ _ _ _ Hx Hi Hl E) as (Hi' & Hl' & ->).
  cbn [fst]. apply IH; assumption.
Qed.

(** A line that is passed over, read outside a text element, changes
    nothing. *)
Lemma step_passed_over st line :
  passed_over line = true -> inText st = false ->
  step acc tn st line = Next st None.
Proof.
  unfold passed_over, tag_of, step, step_with. intros Hp Hi.
  destruct (has_angle line); cbn [negb]; [|by rewrite Hi].
  destruct (tagRE_search line) as [m|]; [|reflexivity].
  cbn [fmap option_fmap option_map] in Hp. unfold collector_tag in Hp.
  apply negb_true_iff in Hp. repeat apply orb_false_iff in Hp as [Hp ?].
  unfold on_tag.
  repeat match goal with
    | E : String.eqb _ _ = false |- _ => rewrite E; clear E
    end.
  rewrite Hi. reflexivity.
Qed.

Lemma run_passed_over st skipped rest :
  inText st = false -> forallb passed_over skipped = true ->
  run acc tn st (skipped ++ rest) = run acc tn st rest.
Proof.
  intros Hi. induction skipped as [|x skipped IH]; [reflexivity|].
  cbn [forallb app]. intros [Hx Hs]%andb_true_iff.
  cbn [run]. rewrite (step_passed_over _ _ Hx Hi).
  rewrite (IH Hs). by destruct (run acc tn st rest).
Qed.

(** Once set, [redirect] stays until a line of tag [page] or the end of
    the page, and nothing is yielded before. *)
Lemma step_keeps_redirect st line st' y :
  tag_of line <> Some "page" -> tag_of line <> Some "/page" ->
  redirect st = true ->
  step acc tn st line = Next st' y -> redirect st' = true /\ y = None.
Proof.
  intros Hp He Hr. unfold step, step_with.
  destruct (has_angle line) eqn:Ha; cbn [negb].
  2:{ intros [= <- <-]. by destruct (inText st). }
  destruct (tagRE_search line) as [m|] eqn:Hm; [|by intros [= <- <-]].
  rewrite (tag_of_matched _ _ Ha Hm) in Hp, He.
  assert (H1 : String.eqb (group2 m) "page" = false)
    by (apply String.eqb_neq; congruence).
  assert (H2 : String.eqb (group2 m) "/page" = false)
    by (apply String.eqb_neq; congruence).
  unfold on_tag. rewrite H1, H2.
  intros H. repeat case_match; simplify_eq; cbn; done.
Qed.

Lemma step_redirect st line :
  tag_of line = Some "redirect" ->
  exists st', step acc tn st line = Next st' None /\ redirect st' = true.
Proof.
  intros Ht. apply tag_of_Some in Ht as (Ha & m & Hm & Hg).
  unfold step, step_with, on_tag. rewrite Ha, Hm, Hg. cbn.
  destruct (Py.truthy (id st)); eexists; (split; [reflexivity|]); done.
Qed.

Lemma run_keeps_redirect st mid :
  Forall (fun x => tag_of x <> Some "page" /\ tag_of x <> Some "/page") mid ->
  redirect st = true ->
  exists st', run acc tn st mid = ([], Exhausted st') /\ redirect st' = true.
Proof.
  intros H. revert st. induction H as [|x mid [Hp He] _ IH]; intros st Hr.
  - cbn. eauto.
  - cbn [run]. destruct (step acc tn st x) as [s1 y|] eqn:E.
    + destruct (step_keeps_redirect _ _ _ _ Hp He Hr E) as (Hr1 & ->).
      destruct (IH s1 Hr1) as (s2 & -> & Hr2). cbn. eauto.
    + apply collect_step_unbound in E as (E & _). contradiction.
Qed.

(** Records yielded before the next line of tag [title] carry the title
    read last. *)
Lemma run_same_title st mid t p :
  Forall (fun x => tag_of x <> Some "title") mid ->
  title st = Some t ->
  p ∈ fst (run acc tn st mid) -> rec_title p = t.
Proof.
  intros H. revert st. induction H as [|x mid Hx _ IH]; intros st Ht.
  - cbn. by intros ?%elem_of_nil.
  - cbn [run]. destruct (step acc tn st x) as [s1 y|] eqn:E;
      [|by intros ?%elem_of_nil].
    assert (Ht1 : title s1 = Some t)
      by (rewrite (collect_step_other _ _ _ _ _ _ Hx E); exact Ht).
    destruct y as [q|]; cbn [fst]; [|by apply IH].
    intros [->|Hp]%elem_of_cons; [|by apply (IH s1)].
    apply step_with_yield_inv in E as (t' & Ht' & _ & _ & -> & _).
    cbn. congruence.
Qed.
End CollectMore.

(** X8. A text in which no line has the tag [id] yields no record: the id
    of every page is the empty string, which is also the initial value of
    the last yielded id, so the comparison of the two fails at every
    [/page]. *)
Theorem no_id_line_yields_nothing
    (acceptedNamespaces : gset string) (templateNamespace : string)
    (text : list string) :
  Forall (fun line => tag_of line <> Some "id") text ->
  fst (collect_pages acceptedNamespaces templateNamespace text) = [].
Proof. intros H. apply run_no_id; [exact H|reflexivity|reflexivity]. Qed.

Lemma no_id_line_yields_nothing_witness :
  fst (collect_pages ∅ "Template"
         [ "<page>" +:+ nl; "<title>Hello</title>" +:+ nl;
           "<text>body</text>" +:+ nl; "</page>" +:+ nl ]) = [].
Proof.
  apply (no_id_line_yields_nothing ∅ "Template").
  repeat constructor; vm_compute; discriminate.
Defined.

(** X9. Lines without a tag, or with a tag the collector has no branch
    for, are passed over when they are read outside a text element: the
    records yielded and the ending are those of the text without these
    lines. This holds of the header of a dump, which [process_dump] makes
    [collect_pages] read again after it has written the mirror of the
    templates, and of the lines of a page around its title, ids and
    text. *)
Theorem lines_outside_text_are_passed_over
    (acceptedNamespaces : gset string) (templateNamespace : string)
    (st : CollectPages.CState) (skipped rest : list string) :
  CollectPages.inText st = false ->
  forallb passed_over skipped = true ->
  CollectPages.run acceptedNamespaces templateNamespace st (skipped ++ rest)
  = CollectPages.run acceptedNamespaces templateNamespace st rest.
Proof. apply run_passed_over. Qed.

Lemma lines_outside_text_are_passed_over_witness :
  CollectPages.run ∅ "Template" CollectPages.init
    ([ "<mediawiki>" +:+ nl; "<siteinfo>" +:+ nl;
       "<base>http://x.org/wiki/Main_Page</base>" +:+ nl;
       namespace_line "10" "Template"; "no tag" +:+ nl;
       "</siteinfo>" +:+ nl ]
     ++ [ "<page>" +:+ nl; "<title>Hello</title>" +:+ nl;
          "<id>1</id>" +:+ nl; "<text>body</text>" +:+ nl;
          "</page>" +:+ nl ])
  = CollectPages.run ∅ "Template" CollectPages.init
      [ "<page>" +:+ nl; "<title>Hello</title>" +:+ nl;
        "<id>1</id>" +:+ nl; "<text>body</text>" +:+ nl; "</page>" +:+ nl ].
Proof.
  apply (lines_outside_text_are_passed_over ∅ "Template" CollectPages.init);
    vm_compute; reflexivity.
Defined.

(** X10. After a line of tag [redirect], nothing is yielded up to and
    including the next line of tag [/page], as long as no line of tag
    [page] comes between them: a page that carries a redirect line is
    dropped, whatever its title, id and text are. *)
Theorem redirect_page_is_not_yielded
    (acceptedNamespaces : gset string) (templateNamespace : string)
    (st : CollectPages.CState) (line : string) (mid : list string)
    (close : string) :
  tag_of line = Some "redirect" ->
  Forall (fun x => tag_of x <> Some "page" /\ tag_of x <> Some "/page") mid ->
  fst (CollectPages.run acceptedNamespaces templateNamespace st
         (line :: mid ++ [close])) = [].
Proof.
  intros Hl Hmid. cbn [CollectPages.run].
  destruct (step_redirect acceptedNamespaces templateNamespace st line Hl)
    as (s1 & -> & Hr1).
  rewrite run_app.
  destruct (run_keeps_redirect acceptedNamespaces templateNamespace s1 mid
              Hmid Hr1) as (s2 & -> & Hr2).
  cbn [CollectPages.run fst app].
  destruct (CollectPages.step _ _ s2 close) as [s3 [p|]|] eqn:E;
    try reflexivity.
  apply step_with_yield_inv in E as (t & _ & Hy & _).
  unfold CollectPages.yield_test in Hy. rewrite Hr2 in Hy.
  cbn in Hy. rewrite andb_false_r in Hy. discriminate.
Qed.

Lemma redirect_page_is_not_yielded_witness :
  fst (CollectPages.run ∅ "Template"
         (CollectPages.mkC [] "7" EmptyString EmptyString false false
            (Some "Hello"))
         (("<redirect title=" +:+ String Header.dquote "World"
           +:+ String Header.dquote " />" +:+ nl)
          :: [ "<text>body</text>" +:+ nl ] ++ [ "</page>" +:+ nl ])) = [].
Proof.
  apply (redirect_page_is_not_yielded ∅ "Template").
  - vm_compute. reflexivity.
  - repeat constructor; vm_compute; discriminate.
Defined.

(** X11. The title is not reset at the end of a page: every record yielded
    before the next line of tag [title] carries the title read last, so a
    page without a title line is yielded under the title of the page
    before it. *)
Theorem title_outlives_its_page
    (acceptedNamespaces : gset string) (templateNamespace : string)
    (st : CollectPages.CState) (t : string) (mid : list string)
    (p : PageRecord) :
  CollectPages.title st = Some t ->
  Forall (fun x => tag_of x <> Some "title") mid ->
  p ∈ fst (CollectPages.run acceptedNamespaces templateNamespace st mid) ->
  rec_title p = t.
Proof. intros Ht Hmid. by apply run_same_title. Qed.

Lemma title_outlives_its_page_witness :
  rec_title (mkPage "2" EmptyString "First" ["more"]) = "First".
Proof.
  apply (title_outlives_its_page ∅ "Template"
           (CollectPages.mkC [] EmptyString EmptyString "1" false false
              (Some "First"))
           "First"
           [ "<page>" +:+ nl; "<id>2</id>" +:+ nl; "<text>more</text>" +:+ nl;
             "</page>" +:+ nl ]).
  - reflexivity.
  - repeat constructor; vm_compute; discriminate.
  - vm_compute. constructor.
Defined.

(** Two pages, the second without a title line: both records carry the
    title of the first. *)
Example second_page_without_title :
  fst (collect_pages ∅ "Template"
         [ "<page>" +:+ nl; "<title>First</title>" +:+ nl;
           "<id>1</id>" +:+ nl; "<text>body</text>" +:+ nl; "</page>" +:+ nl;
           "<page>" +:+ nl; "<id>2</id>" +:+ nl; "<text>more</text>" +:+ nl;
           "</page>" +:+ nl ])
  = [ mkPage "1" EmptyString "First" ["body"];
      mkPage "2" EmptyString "First" ["more"] ].
Proof. vm_compute. reflexivity. Qed.

(** ** A page in the layout of a dump *)

Section WellFormedPage.
Import CollectPages.
Variable acc : gset string.
Variable tn : string.

Lemma step_scanned st line m :
  scans line m -> step acc tn st line = on_tag acc tn st line m.
Proof. intros [Ha Hm]. unfold step, step_with. by rewrite Ha, Hm. Qed.

(** Lines without an angle bracket inside a text element are appended. *)
Lemma run_text_body pg i r l rd t body :
  Forall (fun x => has_angle x = false) body ->
  run acc tn (mkC pg i r l true rd t) body
  = ([], Exhausted (mkC (pg ++ body) i r l true rd t)).
Proof.
  intros H. revert pg. induction H as [|x body Hx _ IH]; intros pg.
  - cbn. by rewrite app_nil_r.
  - cbn [run]. unfold step. rewrite collect_step_no_angle by exact Hx.
    unfold append_line. cbn [inText page id revid last_id redirect title].
    rewrite IH, <- app_assoc. reflexivity.
Qed.

Lemma run_cons_quiet st line st' rest :
  step acc tn st line = Next st' None ->
  run acc tn st (line :: rest) = run acc tn st' rest.
Proof. intros H. cbn [run]. rewrite H. by destruct (run acc tn st' rest). Qed.

Lemma yield_test_title pg i r l t :
  yield_test acc tn (mkC pg i r l false false (Some t)) t
  = title_accepted acc tn t && negb (String.eqb i l).
Proof.
  unfold yield_test, title_accepted. cbn [id last_id redirect negb].
  rewrite andb_true_r.
  destruct (_ || _), (negb (String.eqb i l)), (negb (Py.startswith t tn));
    reflexivity.
Qed.

Variable st : CState.
Variables l_page l_title l_id l_rev l_open l_close l_end : string.
Variables m_page m_title m_id m_rev m_open m_close m_end : Match.
Variables skip1 skip2 skip3 skip4 skip5 body : list string.

Hypothesis outside_text : inText st = false.
Hypothesis scan_page : scans l_page m_page /\ group2 m_page = "page".
Hypothesis scan_title : scans l_title m_title /\ group2 m_title = "title".
Hypothesis scan_id :
  scans l_id m_id /\ group2 m_id = "id" /\ Py.truthy (group3 m_id) = true.
Hypothesis scan_rev : scans l_rev m_rev /\ group2 m_rev = "id".
Hypothesis scan_open :
  scans l_open m_open /\ group2 m_open = "text" /\ group4 m_open = None.
Hypothesis scan_close : scans l_close m_close /\ group2 m_close = "/text".
Hypothesis scan_end : scans l_end m_end /\ group2 m_end = "/page".
Hypothesis no_id_yet : id st = EmptyString.
Hypothesis skipped :
  forallb passed_over (skip1 ++ skip2 ++ skip3 ++ skip4 ++ skip5) = true.
Hypothesis body_plain : Forall (fun x => has_angle x = false) body.

Lemma run_page_layout :
  fst (run acc tn st
         (l_page :: skip1 ++ l_title :: skip2 ++ l_id :: skip3 ++ l_rev
          :: skip4 ++ l_open :: body ++ l_close :: skip5 ++ [l_end]))
  = if title_accepted acc tn (group3 m_title)
       && negb (String.eqb (group3 m_id) (last_id st))
    then [ mkPage (group3 m_id) (group3 m_rev) (group3 m_title)
             (text_lines (group3 m_open) body (group1 m_close)) ]
    else [].
Proof.
  destruct scan_page as (S1 & T1), scan_title as (S2 & T2),
    scan_id as (S3 & T3 & V3), scan_rev as (S4 & T4),
    scan_open as (S5 & T5 & G5), scan_close as (S6 & T6),
    scan_end as (S7 & T7).
  rewrite !forallb_app in skipped.
  destruct (andb_prop _ _ skipped) as [K1 K].
  destruct (andb_prop _ _ K) as [K2 K'].
  destruct (andb_prop _ _ K') as [K3 K''].
  destruct (andb_prop _ _ K'') as [K4 K5].
  destruct st as [pg0 i0 r0 l0 it0 rd0 t0]. cbn in outside_text, no_id_yet.
  subst it0 i0. cbn [last_id].
  erewrite run_cons_quiet
    by (rewrite (step_scanned _ _ _ S1); unfold on_tag; rewrite T1;
        reflexivity).
  cbn [id revid last_id inText title].
  rewrite run_passed_over by done.
  erewrite run_cons_quiet
    by (rewrite (step_scanned _ _ _ S2); unfold on_tag; rewrite T2;
        reflexivity).
  cbn [page id revid last_id inText redirect title].
  rewrite run_passed_over by done.
  erewrite run_cons_quiet
    by (rewrite (step_scanned _ _ _ S3); unfold on_tag; rewrite T3;
        reflexivity).
  cbn [page id revid last_id inText redirect title].
  rewrite run_passed_over by done.
  erewrite run_cons_quiet
    by (rewrite (step_scanned _ _ _ S4); unfold on_tag; rewrite T4;
        cbn [id String.eqb Ascii.eqb Bool.eqb andb]; rewrite V3; reflexivity).
  cbn [page id revid last_id inText redirect title].
  rewrite run_passed_over by done.
  erewrite run_cons_quiet
    by (rewrite (step_scanned _ _ _ S5); unfold on_tag, lastindex;
        rewrite T5, G5; reflexivity).
  cbn [page id revid last_id inText redirect title app Z.eqb negb].
  rewrite run_app, run_text_body by exact body_plain.
  erewrite run_cons_quiet
    by (rewrite (step_scanned _ _ _ S6); unfold on_tag; rewrite T6;
        reflexivity).
  cbn [page id revid last_id inText redirect title app fst snd].
  rewrite run_passed_over by done.
  cbn [run]. rewrite (step_scanned _ _ _ S7). unfold on_tag. rewrite T7.
  cbn [inText String.eqb Ascii.eqb Bool.eqb andb]. unfold end_page.
  cbn [title]. 
  replace (if Py.truthy (group1 m_close)
           then group3 m_open :: body ++ [group1 m_close]
           else group3 m_open :: body)
    with (text_lines (group3 m_open) body (group1 m_close))
    by (unfold text_lines; destruct (Py.truthy (group1 m_close));
        [reflexivity|by rewrite app_nil_r]).
  rewrite yield_test_title.
  destruct (title_accepted acc tn (group3 m_title)
            && negb (String.eqb (group3 m_id) l0)); reflexivity.
Qed.
End WellFormedPage.

(** X12. A page in the layout of a dump, read outside a text element with
    no id pending: an opening line, a title line, a line with the id of
    the page (not empty), a second id line, a text element that opens on
    one line and closes on a later one with lines free of angle brackets
    between, and the closing line, with passed-over lines anywhere between
    them. [collect_pages] yields at most one record for it: the first id,
    the second id as revision id, the title, and as text the rest of the
    opening line, the lines between, and what stands before the closing
    tag. It is yielded exactly when the title is accepted and the id is
    not the last yielded one. *)
Theorem page_layout_is_collected
    (acceptedNamespaces : gset string) (templateNamespace : string)
    (st : CollectPages.CState)
    (l_page l_title l_id l_rev l_open l_close l_end : string)
    (m_page m_title m_id m_rev m_open m_close m_end : Match)
    (skip1 skip2 skip3 skip4 skip5 body : list string) :
  CollectPages.inText st = false ->
  CollectPages.id st = EmptyString ->
  scans l_page m_page /\ group2 m_page = "page" ->
  scans l_title m_title /\ group2 m_title = "title" ->
  scans l_id m_id /\ group2 m_id = "id" /\ Py.truthy (group3 m_id) = true ->
  scans l_rev m_rev /\ group2 m_rev = "id" ->
  scans l_open m_open /\ group2 m_open = "text" /\ group4 m_open = None ->
  scans l_close m_close /\ group2 m_close = "/text" ->
  scans l_end m_end /\ group2 m_end = "/page" ->
  forallb passed_over (skip1 ++ skip2 ++ skip3 ++ skip4 ++ skip5) = true ->
  Forall (fun x => has_angle x = false) body ->
  fst (CollectPages.run acceptedNamespaces templateNamespace st
         (page_layout l_page l_title l_id l_rev l_open l_close l_end
            skip1 skip2 skip3 skip4 skip5 body))
  = if title_accepted acceptedNamespaces templateNamespace (group3 m_title)
       && negb (String.eqb (group3 m_id) (CollectPages.last_id st))
    then [ mkPage (group3 m_id) (group3 m_rev) (group3 m_title)
             (text_lines (group3 m_open) body (group1 m_close)) ]
    else [].
Proof.
  intros. unfold page_layout. eapply run_page_layout; eassumption.
Qed.

Lemma page_layout_is_collected_witness :
  fst (CollectPages.run ∅ "Template" CollectPages.init
         (page_layout
            ("  <page>" +:+ nl) ("    <title>Hello</title>" +:+ nl)
            ("    <id>12</id>" +:+ nl) ("      <id>345</id>" +:+ nl)
            ("      <text>first" +:+ nl) ("third</text>" +:+ nl)
            ("  </page>" +:+ nl)
            [] [ "    <ns>0</ns>" +:+ nl ] [ "    <revision>" +:+ nl ]
            [ "      <timestamp>2020</timestamp>" +:+ nl ]
            [ "      <sha1>x</sha1>" +:+ nl; "    </revision>" +:+ nl ]
            [ "second" +:+ nl ]))
  = if title_accepted ∅ "Template"
         (group3 (mkMatch "    " "title" "Hello" (Some "</title>")))
       && negb (String.eqb
                  (group3 (mkMatch "    " "id" "12" (Some "</id>")))
                  (CollectPages.last_id CollectPages.init))
    then [ mkPage (group3 (mkMatch "    " "id" "12" (Some "</id>")))
             (group3 (mkMatch "      " "id" "345" (Some "</id>")))
             (group3 (mkMatch "    " "title" "Hello" (Some "</title>")))
             (text_lines
                (group3 (mkMatch "      " "text" ("first" +:+ nl) None))
                [ "second" +:+ nl ]
                (group1 (mkMatch "third" "/text" nl None))) ]
    else [].
Proof.
  refine (page_layout_is_collected ∅ "Template" CollectPages.init
            _ _ _ _ _ _ _
            (mkMatch "  " "page" nl None)
            (mkMatch "    " "title" "Hello" (Some "</title>"))
            (mkMatch "    " "id" "12" (Some "</id>"))
            (mkMatch "      " "id" "345" (Some "</id>"))
            (mkMatch "      " "text" ("first" +:+ nl) None)
            (mkMatch "third" "/text" nl None)
            (mkMatch "  " "/page" nl None)
            _ _ _ _ _ _ _ _ _ _ _ _ _ _ _ _ _).
  - reflexivity.
  - reflexivity.
  - repeat split; vm_compute; reflexivity.
  - repeat split; vm_compute; reflexivity.
  - repeat split; vm_compute; reflexivity.
  - repeat split; vm_compute; reflexivity.
  - repeat split; vm_compute; reflexivity.
  - repeat split; vm_compute; reflexivity.
  - repeat split; vm_compute; reflexivity.
  - vm_compute. reflexivity.
  - repeat constructor.
Defined.

(** The same page, with the record spelled out. *)
Example page_layout_record :
  fst (collect_pages ∅ "Template"
         [ "  <page>" +:+ nl; "    <title>Hello</title>" +:+ nl;
           "    <ns>0</ns>" +:+ nl; "    <id>12</id>" +:+ nl;
           "    <revision>" +:+ nl; "      <id>345</id>" +:+ nl;
           "      <timestamp>2020</timestamp>" +:+ nl;
           "      <text>first" +:+ nl; "second" +:+ nl;
           "third</text>" +:+ nl; "      <sha1>x</sha1>" +:+ nl;
           "    </revision>" +:+ nl; "  </page>" +:+ nl ])
  = [ mkPage "12" "345" "Hello"
        [ "first" +:+ nl; "second" +:+ nl; "third" ] ].
Proof. vm_compute. reflexivity. Qed.

(** ** The end of the header *)

Lemma tag_of_search line : tag_of line = group2 <$> tagRE_search line.
Proof.
  unfold tag_of. destruct (has_angle line) eqn:E; [reflexivity|].
  by rewrite (no_angle_no_match _ E).
Qed.

Lemma on_line_stop h line :
  (Header.on_line h line).2 = true <-> tag_of line = Some "/siteinfo".
Proof.
  rewrite tag_of_search. unfold Header.on_line.
  destruct (tagRE_search line) as [m|]; cbn; [|split; discriminate].
  repeat case_match; tag_cases; cbn; split; try discriminate; try congruence.
Qed.

Lemma on_line_stop_state h line :
  tag_of line = Some "/siteinfo" -> Header.on_line h line = (h, true).
Proof.
  rewrite tag_of_search. unfold Header.on_line.
  destruct (tagRE_search line) as [m|]; cbn; [|discriminate].
  intros [= ->]. reflexivity.
Qed.

Lemma read_no_stop h input :
  Forall (fun x => tag_of x <> Some "/siteinfo") input ->
  (Header.read h input).2 = [].
Proof.
  intros H. revert h. induction H as [|x input Hx _ IH]; intros h;
    [reflexivity|].
  cbn [Header.read]. pose proof (on_line_stop h x) as Hs.
  destruct (Header.on_line h x) as [h' stop]. cbn [snd] in Hs.
  destruct stop; [|apply IH]. exfalso. apply Hx, Hs. reflexivity.
Qed.

Lemma read_app_stop h pre l post :
  Forall (fun x => tag_of x <> Some "/siteinfo") pre ->
  tag_of l = Some "/siteinfo" ->
  Header.read h (pre ++ l :: post) = ((Header.read h pre).1, post).
Proof.
  intros H Hl. revert h. induction H as [|x pre Hx _ IH]; intros h.
  - cbn [app Header.read]. rewrite (on_line_stop_state _ _ Hl). reflexivity.
  - cbn [app Header.read]. pose proof (on_line_stop h x) as Hs.
    destruct (Header.on_line h x) as [h' stop]. cbn [snd] in Hs.
    destruct stop; [|apply IH]. exfalso. apply Hx, Hs. reflexivity.
Qed.

(** X13. The header reader stops at the first line of tag [/siteinfo]:
    the lines after it are left in the input for the collectors, and they
    have no part in the base URL and the globals the reader ends with,
    which are those after the lines before it. *)
Theorem header_ends_at_siteinfo
    (h : Header.HState) (pre : list string) (line : string)
    (post : list string) :
  Forall (fun x => tag_of x <> Some "/siteinfo") pre ->
  tag_of line = Some "/siteinfo" ->
  Header.read h (pre ++ line :: post) = ((Header.read h pre).1, post).
Proof. apply read_app_stop. Qed.

Lemma header_ends_at_siteinfo_witness :
  Header.read (Header.mkH EmptyString (initial_globals ∅ EmptyString))
    ([ "<siteinfo>" +:+ nl; namespace_line "10" "Template" ]
     ++ ("</siteinfo>" +:+ nl)
     :: [ namespace_line "10" "Other"; "<page>" +:+ nl ])
  = ((Header.read (Header.mkH EmptyString (initial_globals ∅ EmptyString))
        [ "<siteinfo>" +:+ nl; namespace_line "10" "Template" ]).1,
     [ namespace_line "10" "Other"; "<page>" +:+ nl ]).
Proof.
  apply (header_ends_at_siteinfo
           (Header.mkH EmptyString (initial_globals ∅ EmptyString))).
  - repeat constructor; vm_compute; discriminate.
  - vm_compute. reflexivity.
Defined.

(** X14. A dump in which no line has the tag [/siteinfo] is read to its
    end by the header reader. When templates are not expanded the same
    stream is then handed to [collect_pages], which finds it exhausted:
    [process_dump] starts the processes, dispatches no job and shuts the
    pipeline down. *)
Theorem dump_without_siteinfo_end_dispatches_nothing
    (g : Globals) (fs : gmap string string) (input_file text : string)
    (template_file : option string) (process_count : Z) :
  fs !! input_file = Some text ->
  Forall (fun x => tag_of x <> Some "/siteinfo") (file_lines text) ->
  let r := process_dump g fs input_file template_file process_count false in
  run_actions r = pipeline_script (worker_ids process_count) []
  /\ run_error r = None.
Proof.
  intros Hf Hn r. unfold r, process_dump, decode_open. rewrite Hf.
  cbn [fmap option_fmap option_map].
  pose proof (read_no_stop (Header.mkH EmptyString g) _ Hn) as Hr.
  destruct (Header.read _ (file_lines text)) as [h rest]. cbn [snd] in Hr.
  subst rest. split; reflexivity.
Qed.

Lemma dump_without_siteinfo_end_dispatches_nothing_witness :
  let fs : gmap string string :=
    {[ "pages.xml" :=
         ("<page>" +:+ nl) +:+ ("<title>Hello</title>" +:+ nl)
         +:+ ("<id>1</id>" +:+ nl) +:+ ("<text>body</text>" +:+ nl)
         +:+ ("</page>" +:+ nl) ]} in
  let r := process_dump (initial_globals ∅ "Template:") fs "pages.xml" None 2
             false in
  run_actions r = pipeline_script (worker_ids 2) []
  /\ run_error r = None.
Proof.
  intros fs.
  refine (dump_without_siteinfo_end_dispatches_nothing
            (initial_globals ∅ "Template:") fs "pages.xml"
            (("<page>" +:+ nl) +:+ ("<title>Hello</title>" +:+ nl)
             +:+ ("<id>1</id>" +:+ nl) +:+ ("<text>body</text>" +:+ nl)
             +:+ ("</page>" +:+ nl))
            None 2 _ _).
  - vm_compute. reflexivity.
  - assert (E : file_lines
                  (("<page>" +:+ nl) +:+ ("<title>Hello</title>" +:+ nl)
                   +:+ ("<id>1</id>" +:+ nl) +:+ ("<text>body</text>" +:+ nl)
                   +:+ ("</page>" +:+ nl))
                = [ "<page>" +:+ nl; "<title>Hello</title>" +:+ nl;
                    "<id>1</id>" +:+ nl; "<text>body</text>" +:+ nl;
                    "</page>" +:+ nl ]) by (vm_compute; reflexivity).
    rewrite E. repeat constructor; vm_compute; discriminate.
Defined.

(** ** The template namespace and the template prefix *)

Lemma find_bound c s : Py.find c s < Z.of_nat (String.length s).
Proof.
  induction s as [|d s IH]; cbn [Py.find String.length]; [lia|].
  destruct (Ascii.eqb c d); [lia|].
  destruct (Py.find c s <? 0) eqn:E; lia.
Qed.

Lemma take_find c s :
  0 <= Py.find c s ->
  Py.take (Z.to_nat (Py.find c s + 1)) s
  = Py.take (Z.to_nat (Py.find c s)) s +:+ String c EmptyString.
Proof.
  induction s as [|d s IH]; cbn [Py.find]; [lia|].
  destruct (Ascii.eqb_spec c d) as [->|Hcd]; [reflexivity|].
  destruct (Py.find c s <? 0) eqn:E; [lia|]. apply Z.ltb_ge in E.
  intros _.
  replace (Z.to_nat (Py.find c s + 1 + 1))
    with (S (Z.to_nat (Py.find c s + 1))) by lia.
  replace (Z.to_nat (Py.find c s + 1)) with (S (Z.to_nat (Py.find c s)))
    at 2 by lia.
  cbn [Py.take]. rewrite append_cons. f_equal. apply IH. exact E.
Qed.

Lemma slice_find c s :
  0 <= Py.find c s ->
  Py.slice_to s (Py.find c s + 1)
  = Py.slice_to s (Py.find c s) +:+ String c EmptyString.
Proof.
  intros H. unfold Py.slice_to.
  destruct (Py.find c s + 1 <? 0) eqn:E1; [lia|].
  destruct (Py.find c s <? 0) eqn:E2; [lia|].
  apply take_find. exact H.
Qed.

Lemma slice_truthy s i :
  0 < i -> i <= Z.of_nat (String.length s) ->
  Py.truthy (Py.slice_to s i) = true.
Proof.
  intros H1 H2. unfold Py.slice_to.
  destruct (i <? 0) eqn:E; [lia|].
  destruct s as [|d s]; [cbn in H2; lia|].
  replace (Z.to_nat i) with (S (Z.to_nat (i - 1))) by lia. reflexivity.
Qed.

Lemma on_namespace_prefix g line name :
  prefix_agrees g -> prefix_agrees (Header.on_namespace g line name).
Proof.
  unfold prefix_agrees, Header.on_namespace.
  repeat case_match; cbn; auto.
Qed.

Lemma header_read_prefix h input :
  prefix_agrees (Header.globals h) ->
  prefix_agrees (Header.globals (Header.read h input).1).
Proof.
  revert h. induction input as [|line rest IH]; intros h Hg; [exact Hg|].
  cbn [Header.read].
  assert (H1 : prefix_agrees (Header.globals (Header.on_line h line).1)).
  { unfold Header.on_line. repeat case_match; cbn; try exact Hg.
    apply on_namespace_prefix. exact Hg. }
  destruct (Header.on_line h line) as [h' stop]. cbn [fst] in H1.
  destruct stop; [exact H1|]. apply IH. exact H1.
Qed.

Section LoadGlobals.
Import LoadTemplates.
Variable out : bool.

Lemma on_title_prefix_agrees st t :
  prefix_agrees (globals st) -> prefix_agrees (globals (on_title out st t)).
Proof.
  unfold on_title. intros Hg. cbn [globals].
  destruct (negb out && _ && _) eqn:E; [|exact Hg].
  apply andb_true_iff in E as [_ E]. apply Z.gtb_lt in E.
  intros _. cbn. apply slice_find. lia.
Qed.

Lemma load_step_prefix st line st' :
  step out st line = Next st' ->
  prefix_agrees (globals st) -> prefix_agrees (globals st').
Proof.
  unfold step, step_with, on_tag, end_page, set_page. intros H Hg.
  repeat case_match; simplify_eq; cbn [globals]; try exact Hg.
  apply on_title_prefix_agrees. exact Hg.
Qed.

Lemma load_run_prefix st file :
  prefix_agrees (globals st) ->
  prefix_agrees (globals (ending_state (run out st file))).
Proof.
  revert st. induction file as [|line rest IH]; intros st Hg; [exact Hg|].
  cbn [run]. destruct (step out st line) as [st'|] eqn:E; [|exact Hg].
  apply IH. eapply load_step_prefix; eassumption.
Qed.

(** A step leaves a namespace that is known, or any namespace when a
    mirror is written, as it is. *)
Lemma load_step_frozen st line st' :
  out = true \/ Py.truthy (templateNamespace (globals st)) = true ->
  step out st line = Next st' ->
  templateNamespace (globals st') = templateNamespace (globals st)
  /\ templatePrefix (globals st') = templatePrefix (globals st).
Proof.
  unfold step, step_with, on_tag, end_page, set_page, on_title.
  intros Hk H.
  repeat case_match; simplify_eq; cbn [globals templateNamespace
    templatePrefix]; try done.
  exfalso.
  match goal with
  | E : negb out && _ && _ = true |- _ =>
      apply andb_true_iff in E as [[E1 E2]%andb_true_iff _]
  end.
  destruct Hk as [Hk|Hk]; rewrite Hk in *; discriminate.
Qed.

Lemma load_run_frozen st file :
  out = true \/ Py.truthy (templateNamespace (globals st)) = true ->
  templateNamespace (globals (ending_state (run out st file)))
  = templateNamespace (globals st)
  /\ templatePrefix (globals (ending_state (run out st file)))
     = templatePrefix (globals st).
Proof.
  revert st. induction file as [|line rest IH]; intros st Hk; [done|].
  cbn [run]. destruct (step out st line) as [st'|] eqn:E; [|done].
  destruct (load_step_frozen _ _ _ Hk E) as [E1 E2].
  rewrite <- E1, <- E2. apply IH.
  destruct Hk as [Hk|Hk]; [left; exact Hk|right]. by rewrite E1.
Qed.
End LoadGlobals.

Lemma dispatch_globals g fs urlbase input process_count :
  run_globals (dispatch g fs urlbase input process_count) = g.
Proof.
  unfold dispatch.
  destruct (collect_pages _ _ input) as [pages [st|]]; reflexivity.
Qed.

Lemma init_prefix_agrees g :
  prefix_agrees g ->
  prefix_agrees (LoadTemplates.globals (LoadTemplates.init g)).
Proof. intros H. exact H. Qed.

Lemma load_templates_prefix g file out :
  prefix_agrees g ->
  prefix_agrees
    (LoadTemplates.globals (ending_state (load_templates g file out))).
Proof.
  intros H. unfold load_templates. apply load_run_prefix.
  apply init_prefix_agrees. exact H.
Qed.

(** X15. Whenever the template namespace has a name, the template prefix
    is that name followed by a colon: the header reader and
    [load_templates] assign the two together, so the property holds of the
    globals [process_dump] leaves, on every path through it, when it holds
    of the globals it starts with (as it does when the module is loaded,
    the name being empty). *)
Theorem template_prefix_follows_namespace
    (g : Globals) (fs : gmap string string) (input_file : string)
    (template_file : option string) (process_count : Z)
    (expand_templates : bool) :
  prefix_agrees g ->
  prefix_agrees
    (run_globals (process_dump g fs input_file template_file process_count
                    expand_templates)).
Proof.
  intros Hg. unfold process_dump.
  destruct (decode_open fs input_file) as [input|]; [|exact Hg].
  pose proof (header_read_prefix (Header.mkH EmptyString g) input Hg) as H1.
  destruct (Header.read _ input) as [h rest]. cbn [fst] in H1.
  destruct expand_templates; [|by rewrite dispatch_globals].
  destruct (usable_template fs template_file).
  - destruct (template_file ≫= decode_open fs) as [file|]; [|exact H1].
    pose proof (load_templates_prefix _ file None H1) as H2.
    destruct (load_templates _ file None) as [st|st]; cbn in H2;
      [|exact H2].
    by rewrite dispatch_globals.
  - destruct (String.eqb input_file "-"); [exact H1|].
    pose proof (load_templates_prefix _ rest template_file H1) as H2.
    destruct (load_templates _ rest template_file) as [st|st]; cbn in H2;
      [|exact H2].
    destruct (decode_open _ input_file); [|exact H2].
    by rewrite dispatch_globals.
Qed.

Lemma template_prefix_follows_namespace_witness :
  prefix_agrees
    (run_globals
       (process_dump (initial_globals ∅ EmptyString)
          {[ "dump.xml" := category_dump ]} "dump.xml" None 1 true)).
Proof.
  apply (template_prefix_follows_namespace (initial_globals ∅ EmptyString)
           {[ "dump.xml" := category_dump ]} "dump.xml" None 1 true).
  intros H. vm_compute in H. discriminate.
Defined.

(** X16. [load_templates] takes the template namespace from a title only
    when it writes no mirror and the namespace has no name yet: called
    with an output file, or with a namespace that is known, it returns (or
    fails) with the namespace and the prefix it was called with, whatever
    the file holds. The accepted, the known and the module namespace are
    never changed by it. *)
Theorem load_templates_keeps_known_namespace
    (g : Globals) (file : list string) (output_file : option string) :
  let g' := LoadTemplates.globals
              (ending_state (load_templates g file output_file)) in
  (truthy_name output_file = true \/ Py.truthy (templateNamespace g) = true ->
   templateNamespace g' = templateNamespace g
   /\ templatePrefix g' = templatePrefix g)
  /\ acceptedNamespaces g' = acceptedNamespaces g
  /\ knownNamespaces g' = knownNamespaces g
  /\ moduleNamespace g' = moduleNamespace g.
Proof.
  intros g'. split.
  - intros Hk. unfold g', load_templates.
    apply (load_run_frozen (truthy_name output_file) (LoadTemplates.init g)).
    exact Hk.
  - unfold g', load_templates.
    generalize (truthy_name output_file). intros out.
    change (acceptedNamespaces g)
      with (acceptedNamespaces (LoadTemplates.globals (LoadTemplates.init g))).
    change (knownNamespaces g)
      with (knownNamespaces (LoadTemplates.globals (LoadTemplates.init g))).
    change (moduleNamespace g)
      with (moduleNamespace (LoadTemplates.globals (LoadTemplates.init g))).
    generalize (LoadTemplates.init g). intros st. revert st.
    induction file as [|line rest IH]; intros st; [done|].
    cbn [LoadTemplates.run].
    destruct (LoadTemplates.step out st line) as [st'|] eqn:E; [|done].
    assert (H : acceptedNamespaces (LoadTemplates.globals st')
                = acceptedNamespaces (LoadTemplates.globals st)
                /\ knownNamespaces (LoadTemplates.globals st')
                   = knownNamespaces (LoadTemplates.globals st)
                /\ moduleNamespace (LoadTemplates.globals st')
                   = moduleNamespace (LoadTemplates.globals st)).
    { revert E.
      unfold LoadTemplates.step, LoadTemplates.step_with, LoadTemplates.on_tag,
        LoadTemplates.end_page, LoadTemplates.set_page, LoadTemplates.on_title.
      intros E. repeat case_match; simplify_eq; done. }
    destruct H as (<- & <- & <-). apply IH.
Qed.

Lemma load_templates_keeps_known_namespace_witness :
  templateNamespace
    (LoadTemplates.globals
       (ending_state
          (load_templates template_globals
             [ "<page>" +:+ nl; "<title>Other:T</title>" +:+ nl;
               "<text>x</text>" +:+ nl; "</page>" +:+ nl ] None)))
  = templateNamespace template_globals
  /\ templatePrefix
       (LoadTemplates.globals
          (ending_state
             (load_templates template_globals
                [ "<page>" +:+ nl; "<title>Other:T</title>" +:+ nl;
                  "<text>x</text>" +:+ nl; "</page>" +:+ nl ] None)))
     = templatePrefix template_globals.
Proof.
  refine (proj1 (load_templates_keeps_known_namespace template_globals
                   [ "<page>" +:+ nl; "<title>Other:T</title>" +:+ nl;
                     "<text>x</text>" +:+ nl; "</page>" +:+ nl ] None) _).
  right. reflexivity.
Defined.

Section LoadFirstTitle.
Import LoadTemplates.
Variable out : bool.

Lemma load_step_other_globals st line st' :
  tag_of line <> Some "title" -> tag_of line <> Some "/page" ->
  step out st line = Next st' -> globals st' = globals st.
Proof.
  intros Ht Hp. unfold step, step_with.
  destruct (has_angle line) eqn:Ha; cbn [negb].
  2:{ intros [= <-]. by destruct (inText st). }
  destruct (tagRE_search line) as [m|] eqn:Hm; [|by intros [= <-]].
  rewrite (tag_of_matched _ _ Ha Hm) in Ht, Hp.
  assert (H1 : String.eqb (group2 m) "title" = false)
    by (apply String.eqb_neq; congruence).
  assert (H2 : String.eqb (group2 m) "/page" = false)
    by (apply String.eqb_neq; congruence).
  unfold on_tag, set_page. rewrite H1, H2.
  intros H. repeat case_match; simplify_eq; reflexivity.
Qed.

Lemma load_run_other_globals st pre :
  Forall (fun x => tag_of x <> Some "title" /\ tag_of x <> Some "/page") pre ->
  exists st', run out st pre = Returned st' /\ globals st' = globals st.
Proof.
  intros H. revert st. induction H as [|x pre [Ht Hp] _ IH]; intros st.
  - cbn. eauto.
  - cbn [run]. destruct (step out st x) as [s1|] eqn:E.
    + destruct (IH s1) as (s2 & -> & E2). exists s2. split; [done|].
      rewrite E2. eapply load_step_other_globals; eassumption.
    + apply load_step_unbound in E as (E & _). contradiction.
Qed.

Lemma load_step_title_line st line m :
  scans line m -> group2 m = "title" ->
  step out st line = Next (on_title out st (group3 m)).
Proof.
  intros [Ha Hm] Hg. unfold step, step_with, on_tag.
  rewrite Ha, Hm, Hg. reflexivity.
Qed.

Lemma load_first_title st pre line m post :
  out = false ->
  Py.truthy (templateNamespace (globals st)) = false ->
  Forall (fun x => tag_of x <> Some "title" /\ tag_of x <> Some "/page") pre ->
  scans line m -> group2 m = "title" ->
  1 < Py.find ":" (group3 m) ->
  let g' := globals (ending_state (run out st (pre ++ line :: post))) in
  templateNamespace g' = Py.slice_to (group3 m) (Py.find ":" (group3 m))
  /\ templatePrefix g'
     = Py.slice_to (group3 m) (Py.find ":" (group3 m)) +:+ ":".
Proof.
  intros Ho Hn Hpre Hs Hg Hc g'. unfold g'. rewrite load_run_app.
  destruct (load_run_other_globals st pre Hpre) as (s1 & -> & E1).
  cbn [run]. rewrite (load_step_title_line _ _ _ Hs Hg).
  set (s2 := on_title out s1 (group3 m)).
  assert (E2 : templateNamespace (globals s2)
               = Py.slice_to (group3 m) (Py.find ":" (group3 m))
               /\ templatePrefix (globals s2)
                  = Py.slice_to (group3 m) (Py.find ":" (group3 m)) +:+ ":").
  { unfold s2, on_title. cbn [globals]. rewrite E1, Ho, Hn.
    apply Z.gtb_lt in Hc. rewrite Hc. cbn.
    split; [reflexivity|]. apply slice_find. apply Z.gtb_lt in Hc. lia. }
  destruct E2 as [E2 E3]. rewrite <- E3, <- E2.
  apply load_run_frozen. right. rewrite E2.
  apply slice_truthy; [lia|]. pose proof (find_bound ":" (group3 m)). lia.
Qed.
End LoadFirstTitle.

(** X17. Called without an output file while the template namespace has
    no name, [load_templates] takes the namespace from the first title
    line whose title has its first colon after at least two characters:
    the namespace becomes the text before that colon and the prefix that
    text with the colon, whether or not the page is a template, and no
    later title changes them. (The lines before it hold no title line
    and no line of tag [/page].) *)
Theorem namespace_is_taken_from_first_title
    (g : Globals) (pre : list string) (line : string) (m : Match)
    (post : list string) (output_file : option string) :
  truthy_name output_file = false ->
  Py.truthy (templateNamespace g) = false ->
  Forall (fun x => tag_of x <> Some "title" /\ tag_of x <> Some "/page") pre ->
  scans line m -> group2 m = "title" ->
  1 < Py.find ":" (group3 m) ->
  let g' := LoadTemplates.globals
              (ending_state
                 (load_templates g (pre ++ line :: post) output_file)) in
  templateNamespace g' = Py.slice_to (group3 m) (Py.find ":" (group3 m))
  /\ templatePrefix g'
     = Py.slice_to (group3 m) (Py.find ":" (group3 m)) +:+ ":".
Proof.
  intros Ho Hn Hpre Hs Hg Hc. unfold load_templates.
  apply load_first_title; assumption.
Qed.

Lemma namespace_is_taken_from_first_title_witness :
  let g' := LoadTemplates.globals
              (ending_state
                 (load_templates (initial_globals ∅ "Template:")
                    ([ "<page>" +:+ nl ]
                     ++ ("<title>2001: A Space Odyssey</title>" +:+ nl)
                     :: [ "<text>x</text>" +:+ nl; "</page>" +:+ nl;
                          "<page>" +:+ nl;
                          "<title>Template:Foo</title>" +:+ nl;
                          "<text>y</text>" +:+ nl; "</page>" +:+ nl ])
                    None)) in
  templateNamespace g'
  = Py.slice_to
      (group3 (mkMatch EmptyString "title" "2001: A Space Odyssey"
                 (Some "</title>")))
      (Py.find ":"
         (group3 (mkMatch EmptyString "title" "2001: A Space Odyssey"
                    (Some "</title>"))))
  /\ templatePrefix g'
     = Py.slice_to
         (group3 (mkMatch EmptyString "title" "2001: A Space Odyssey"
                    (Some "</title>")))
         (Py.find ":"
            (group3 (mkMatch EmptyString "title" "2001: A Space Odyssey"
                       (Some "</title>"))))
       +:+ ":".
Proof.
  refine (namespace_is_taken_from_first_title
            (initial_globals ∅ "Template:") [ "<page>" +:+ nl ]
            ("<title>2001: A Space Odyssey</title>" +:+ nl)
            (mkMatch EmptyString "title" "2001: A Space Odyssey"
               (Some "</title>"))
            _ None _ _ _ _ _ _).
  - reflexivity.
  - reflexivity.
  - repeat constructor; vm_compute; discriminate.
  - split; vm_compute; reflexivity.
  - reflexivity.
  - vm_compute. reflexivity.
Defined.

(** The namespace an article gives when its title comes first: the
    article is then counted as the one template, the template page is
    not. *)
Example namespace_from_article_title :
  let st := ending_state
              (load_templates (initial_globals ∅ "Template:")
                 [ "<page>" +:+ nl;
                   "<title>2001: A Space Odyssey</title>" +:+ nl;
                   "<text>x</text>" +:+ nl; "</page>" +:+ nl;
                   "<page>" +:+ nl; "<title>Template:Foo</title>" +:+ nl;
                   "<text>y</text>" +:+ nl; "</page>" +:+ nl ] None) in
  templateNamespace (LoadTemplates.globals st) = "2001"
  /\ templatePrefix (LoadTemplates.globals st) = "2001:"
  /\ LoadTemplates.templates st = 1
  /\ LoadTemplates.articles st = 2.
Proof. vm_compute. repeat split; reflexivity. Qed.

(** ** The files [process_dump] writes before the pages *)

Lemma dispatch_fs g fs urlbase input process_count :
  run_fs (dispatch g fs urlbase input process_count) = fs.
Proof.
  unfold dispatch.
  destruct (collect_pages _ _ input) as [pages [st|]]; reflexivity.
Qed.

Lemma write_mirror_falsy fs tf text :
  truthy_name tf = false -> write_mirror fs tf text = fs.
Proof.
  unfold truthy_name, write_mirror. destruct tf as [p|]; [|done].
  by intros ->.
Qed.

(** X18. Before the pages are written, [process_dump] changes at most one
    file, the template file, and only to create it: when templates are not
    expanded, when no template file is named, or when the named file
    exists, the files are left as they were, so that a template file that
    is there is read and never overwritten. Otherwise the only file
    written is the one named, with the mirror of the templates. *)
Theorem template_file_is_written_only_when_missing
    (g : Globals) (fs : gmap string string) (input_file : string)
    (template_file : option string) (process_count : Z)
    (expand_templates : bool) :
  let r := process_dump g fs input_file template_file process_count
             expand_templates in
  (expand_templates = false \/ truthy_name template_file = false
   \/ usable_template fs template_file = true ->
   run_fs r = fs)
  /\ (run_fs r = fs
      \/ exists tf text,
           template_file = Some tf /\ fs !! tf = None
           /\ run_fs r = <[tf := text]> fs).
Proof.
  intros r.
  assert (H : run_fs r = fs
              \/ expand_templates = true
                 /\ usable_template fs template_file = false
                 /\ exists tf text,
                      template_file = Some tf /\ Py.truthy tf = true
                      /\ run_fs r = <[tf := text]> fs).
  { unfold r, process_dump.
    destruct (decode_open fs input_file) as [input|]; [|by left].
    destruct (Header.read _ input) as [h rest].
    destruct expand_templates; [|left; apply dispatch_fs].
    destruct (usable_template fs template_file) eqn:U.
    { destruct (template_file ≫= decode_open fs) as [file|]; [|by left].
      destruct (load_templates _ file None) as [st|st]; [|by left].
      left. apply dispatch_fs. }
    destruct (String.eqb input_file "-"); [by left|].
    destruct template_file as [tf|].
    2:{ left. destruct (load_templates _ rest None) as [st|st]; [|done].
        cbn [write_mirror].
        destruct (decode_open fs input_file); [apply dispatch_fs|done]. }
    destruct (Py.truthy tf) eqn:T.
    2:{ left.
        destruct (load_templates _ rest (Some tf)) as [st|st];
          cbn [write_mirror]; rewrite T; [|done].
        destruct (decode_open fs input_file); [apply dispatch_fs|done]. }
    right. split; [done|]. split; [done|].
    destruct (load_templates _ rest (Some tf)) as [st|st];
      cbn [write_mirror]; rewrite T.
    - exists tf, (LoadTemplates.output st). split; [done|]. split; [done|].
      destruct (decode_open _ input_file); [apply dispatch_fs|done].
    - by exists tf, (LoadTemplates.output st). }
  split.
  - intros Hc. destruct H as [H|(He & Hu & tf & text & -> & Ht & _)];
      [exact H|].
    destruct Hc as [Hc|[Hc|Hc]]; [congruence| |congruence].
    cbn in Hc. congruence.
  - destruct H as [H|(_ & Hu & tf & text & -> & Ht & H)]; [by left|].
    right. exists tf, text. split; [done|]. split; [|exact H].
    unfold usable_template, exists_file in Hu. rewrite Ht in Hu.
    cbn in Hu. apply bool_decide_eq_false in Hu.
    destruct (fs !! tf) eqn:E; [|done]. exfalso. apply Hu. eauto.
Qed.

Lemma template_file_is_written_only_when_missing_witness :
  run_fs (process_dump (initial_globals ∅ "Template:")
            {[ "dump.xml" := category_dump;
               "templates.xml" := mirror_page "Template:Foo" ["bar"] ]}
            "dump.xml" (Some "templates.xml") 1 true)
  = {[ "dump.xml" := category_dump;
       "templates.xml" := mirror_page "Template:Foo" ["bar"] ]}.
Proof.
  refine (proj1 (template_file_is_written_only_when_missing
                   (initial_globals ∅ "Template:")
                   {[ "dump.xml" := category_dump;
                      "templates.xml" := mirror_page "Template:Foo" ["bar"] ]}
                   "dump.xml" (Some "templates.xml") 1 true) _).
  right. right. vm_compute. reflexivity.
Defined.

(** ** Every interleaving of the pipeline *)

Section Transitions.
Import Pipeline.
Variable extract : Job -> string.
Variable maxsize : Z.

Lemma step_trans s c e s' :
  step extract maxsize s c = Some (e, s') -> trans extract maxsize s s'.
Proof.
  destruct s as [m jq oq ws r wr].
  destruct c as [|w|]; unfold step, main_step, worker_step, reduce_step,
    set_worker; cbn [main jobs_queue output_queue workers reduce written];
    intros H; repeat case_match; simplify_eq; try (by constructor).
Qed.
End Transitions.

(** ** Counting *)

Lemma count_nil {A} (p : A -> bool) : count p [] = 0%nat.
Proof. reflexivity. Qed.

Lemma count_cons {A} (p : A -> bool) x l :
  count p (x :: l) = (Nat.b2n (p x) + count p l)%nat.
Proof. unfold count. cbn [List.filter]. by destruct (p x). Qed.

Lemma count_app {A} (p : A -> bool) l1 l2 :
  count p (l1 ++ l2) = (count p l1 + count p l2)%nat.
Proof.
  induction l1 as [|x l1 IH]; [reflexivity|].
  cbn [app]. rewrite !count_cons, IH. lia.
Qed.

Lemma count_snoc {A} (p : A -> bool) l x :
  count p (l ++ [x]) = (count p l + Nat.b2n (p x))%nat.
Proof. rewrite count_app, count_cons, count_nil. lia. Qed.


Lemma count_insert {A} (p : A -> bool) l i x y :
  l !! i = Some x ->
  (count p (<[i := y]> l) + Nat.b2n (p x)
   = count p l + Nat.b2n (p y))%nat.
Proof.
  revert i. induction l as [|z l IH]; intros [|i] H; try discriminate H.
  - injection H as ->. change (<[0%nat := y]> (x :: l)) with (y :: l).
    rewrite !count_cons. lia.
  - change (<[S i := y]> (z :: l)) with (z :: <[i := y]> l).
    rewrite !count_cons. specialize (IH i H). lia.
Qed.

Lemma count_fmap_const {A B} (p : B -> bool) (f : A -> B) b l :
  (forall x, p (f x) = b) ->
  count p (f <$> l) = if b then length l else 0%nat.
Proof.
  intros H. induction l as [|x l IH]; [by destruct b|].
  rewrite fmap_cons, count_cons, H, IH. destruct b; reflexivity.
Qed.



(** ** The steps a run can take *)

Section Measure.
Import Pipeline.
Variable extract : Job -> string.
Variable maxsize : Z.


End Measure.


(** ** The pages in the system *)

Section Pages.
Import Pipeline.
Variable extract : Job -> string.
Variable maxsize : Z.

Lemma ready_snoc oq x :
  ready (oq ++ [x])
  = ready oq ++ match x with Some r => [write_of r] | None => [] end.
Proof. unfold ready. rewrite omap_app. by destruct x. Qed.

Lemma queued_snoc jq x :
  queued extract (jq ++ [x])
  = queued extract jq
    ++ match x with Some j => [written_of extract j] | None => [] end.
Proof. unfold queued. rewrite omap_app. by destruct x. Qed.

Lemma in_hand_snoc_idle ws : in_hand (ws ++ [Idle]) = in_hand ws.
Proof. unfold in_hand. rewrite omap_app. cbn. by rewrite app_nil_r. Qed.

Lemma in_hand_split ws w x :
  ws !! w = Some x ->
  forall y,
    in_hand (<[w := y]> ws)
    = in_hand (take w ws) ++ in_hand [y] ++ in_hand (drop (S w) ws).
Proof.
  intros H y. rewrite insert_take_drop by (eapply lookup_lt_Some; exact H).
  unfold in_hand. rewrite omap_app.
  change (y :: drop (S w) ws) with ([y] ++ drop (S w) ws).
  rewrite omap_app. reflexivity.
Qed.

Lemma in_hand_parts ws w x :
  ws !! w = Some x ->
  in_hand ws = in_hand (take w ws) ++ in_hand [x] ++ in_hand (drop (S w) ws).
Proof.
  intros H. rewrite <- (in_hand_split ws w x H x).
  by rewrite list_insert_id.
Qed.

Lemma pages_trans_perm s s' :
  trans extract maxsize s s' -> Forall script_action (main s) ->
  pages extract s' ≡ₚ pages extract s.
Proof.
  intros H Hs. destruct H; unfold pages;
    cbn [main jobs_queue output_queue workers reduce written];
    rewrite ?ready_snoc, ?queued_snoc, ?in_hand_snoc_idle;
    try reflexivity.
  - destruct j; cbn; rewrite <- ?app_assoc, ?app_nil_r; reflexivity.
  - destruct x as [r0|].
    + apply Forall_cons in Hs as [[] _].
    + cbn. by rewrite app_nil_r.
  - rewrite (in_hand_split ws w _ H), (in_hand_parts ws w _ H). cbn.
    change (written_of extract j) with (write_of (result_of extract j)).
    solve_Permutation.
  - rewrite (in_hand_split ws w _ H), (in_hand_parts ws w _ H). cbn.
    reflexivity.
  - rewrite (in_hand_split ws w _ H), (in_hand_parts ws w _ H). cbn.
    rewrite <- !app_assoc. cbn. solve_Permutation.
  - cbn. rewrite <- !app_assoc. reflexivity.
Qed.

Lemma pages_trans_eq s s' :
  trans extract maxsize s s' -> Forall script_action (main s) ->
  (length (workers s) <= 1)%nat ->
  pages extract s' = pages extract s.
Proof.
  intros H Hs Hl. destruct H; unfold pages;
    cbn [main jobs_queue output_queue workers reduce written] in *;
    rewrite ?ready_snoc, ?queued_snoc, ?in_hand_snoc_idle;
    try reflexivity.
  - destruct j; cbn; rewrite <- ?app_assoc, ?app_nil_r; reflexivity.
  - destruct x as [r0|].
    + apply Forall_cons in Hs as [[] _].
    + cbn. by rewrite app_nil_r.
  - destruct ws as [|x [|y ws]]; [done| |cbn in Hl; lia].
    destruct w; [|done]. injection H as ->. reflexivity.
  - destruct ws as [|x [|y ws]]; [done| |cbn in Hl; lia].
    destruct w; [|done]. injection H as ->. reflexivity.
  - destruct ws as [|z [|y ws]]; [done| |cbn in Hl; lia].
    destruct w; [|done]. injection H as ->. cbn.
    rewrite <- !app_assoc. reflexivity.
  - cbn. rewrite <- !app_assoc. reflexivity.
Qed.

Lemma pages_initial ws jobs :
  pages extract (initial (pipeline_script ws jobs))
  = written_of extract <$> jobs.
Proof.
  unfold pages, initial, pipeline_script, to_put.
  cbn [main jobs_queue output_queue workers reduce written app ready in_hand
       queued omap list_omap].
  rewrite !omap_app.
  assert (E1 : forall l : list nat,
             omap (fun a => match a with
                            | PutJob (Some j) => Some (written_of extract j)
                            | _ => None
                            end) (StartWorker <$> l) = []).
  { induction l; [done|]. by rewrite fmap_cons. }
  assert (E2 : forall l : list nat,
             omap (fun a => match a with
                            | PutJob (Some j) => Some (written_of extract j)
                            | _ => None
                            end) ((fun _ => PutJob None) <$> l) = []).
  { induction l; [done|]. by rewrite fmap_cons. }
  assert (E3 : forall l : list nat,
             omap (fun a => match a with
                            | PutJob (Some j) => Some (written_of extract j)
                            | _ => None
                            end) (JoinWorker <$> l) = []).
  { induction l; [done|]. by rewrite fmap_cons. }
  rewrite E1, E2, E3. cbn. rewrite app_nil_r.
  induction jobs as [|j jobs IH]; [done|].
  rewrite !fmap_cons. cbn. by rewrite IH.
Qed.
End Pages.

(** ** The order of the main line's actions *)

Lemma in_order_app l1 l2 :
  in_order l1 -> in_order l2 ->
  (forall a b, a ∈ l1 -> b ∈ l2 -> follows a b) ->
  in_order (l1 ++ l2).
Proof.
  induction l1 as [|x l1 IH]; intros H1 H2 H; [exact H2|].
  destruct H1 as [Hx H1]. cbn [app in_order]. split.
  - apply Forall_app. split; [exact Hx|].
    apply Forall_forall. intros b Hb. apply H; [left|exact Hb].
  - apply IH; [exact H1|exact H2|]. intros a b Ha Hb.
    apply H; [right; exact Ha|exact Hb].
Qed.

Lemma in_order_fmap {A} (f : A -> action) l :
  (forall x y, follows (f x) (f y)) -> in_order (f <$> l).
Proof.
  intros H. induction l as [|x l IH]; [exact I|].
  rewrite fmap_cons. split; [|exact IH].
  apply Forall_fmap, Forall_forall. intros y _. apply H.
Qed.

Lemma in_order_script ws jobs : in_order (pipeline_script ws jobs).
Proof.
  unfold pipeline_script. split.
  - rewrite !Forall_app, !Forall_fmap. repeat split.
    + apply Forall_forall. intros; split; cbn; lia.
    + apply Forall_forall. intros; split; cbn; lia.
    + apply Forall_forall. intros; split; cbn; lia.
    + apply Forall_forall. intros; split; cbn; lia.
    + repeat constructor; cbn; lia.
  - repeat apply in_order_app;
      try (apply in_order_fmap; intros; split; cbn; lia).
    + cbn. repeat constructor; cbn; lia.
    + intros a b (x & -> & _)%list_elem_of_fmap Hb.
      repeat apply elem_of_cons in Hb as [->|Hb];
        [split; cbn; lia..|by apply elem_of_nil in Hb].
    + intros a b (x & -> & _)%list_elem_of_fmap Hb.
      apply elem_of_app in Hb as [(y & -> & _)%list_elem_of_fmap|Hb];
        [split; cbn; lia|].
      repeat apply elem_of_cons in Hb as [->|Hb];
        [split; cbn; lia..|by apply elem_of_nil in Hb].
    + intros a b (x & -> & _)%list_elem_of_fmap Hb.
      apply elem_of_app in Hb as [(y & -> & _)%list_elem_of_fmap|Hb];
        [split; cbn; lia|].
      apply elem_of_app in Hb as [(y & -> & _)%list_elem_of_fmap|Hb];
        [split; cbn; lia|].
      repeat apply elem_of_cons in Hb as [->|Hb];
        [split; cbn; lia..|by apply elem_of_nil in Hb].
    + intros a b (x & -> & _)%list_elem_of_fmap Hb.
      apply elem_of_app in Hb as [(y & -> & _)%list_elem_of_fmap|Hb];
        [split; cbn; lia|].
      apply elem_of_app in Hb as [(y & -> & _)%list_elem_of_fmap|Hb];
        [split; cbn; lia|].
      apply elem_of_app in Hb as [(y & -> & _)%list_elem_of_fmap|Hb];
        [split; cbn; lia|].
      repeat apply elem_of_cons in Hb as [->|Hb];
        [split; cbn; lia..|by apply elem_of_nil in Hb].
Qed.

Lemma script_actions ws jobs :
  Forall script_action (pipeline_script ws jobs).
Proof.
  unfold pipeline_script. constructor; [exact I|].
  rewrite !Forall_app, !Forall_fmap. repeat split;
    try (apply Forall_forall; intros; exact I).
  repeat constructor.
Qed.

Lemma follows_job_sentinel m :
  Forall (follows (PutJob None)) m -> no_job_left m.
Proof.
  intros H j Hj. rewrite Forall_forall in H.
  destruct (H _ Hj) as [H1 _]. cbn in H1. lia.
Qed.

Lemma follows_output x m :
  Forall (follows (PutOutput x)) m -> Forall (eq JoinReduce) m.
Proof.
  intros H0. eapply Forall_impl; [exact H0|]. cbn beta.
  intros a [_ H]. specialize (H eq_refl).
  destruct a as [| |[]| |[]|]; cbn in H; try lia; reflexivity.
Qed.



Lemma join_reduce_only m :
  Forall (eq JoinReduce) m ->
  (PutOutput None ∉ m) /\ no_job_left m /\ (forall w, JoinWorker w ∉ m)
  /\ count is_job_sentinel m = 0%nat /\ count is_start_worker m = 0%nat.
Proof.
  intros H. rewrite Forall_forall in H. repeat split.
  - intros Hx. by specialize (H _ Hx).
  - intros j Hx. by specialize (H _ Hx).
  - intros w Hx. by specialize (H _ Hx).
  - induction m as [|a m IH]; [done|]. rewrite count_cons, IH.
    + by rewrite <- (H a) by left.
    + intros x Hx. apply H. by right.
  - induction m as [|a m IH]; [done|]. rewrite count_cons, IH.
    + by rewrite <- (H a) by left.
    + intros x Hx. apply H. by right.
Qed.

(** ** The job queue *)

Lemma jobs_first_tail x q : jobs_first (x :: q) -> jobs_first q.
Proof.
  destruct x; [done|]. cbn. intros H. destruct q as [|[j|] q]; [done| |].
  - by apply Forall_cons in H as [? _].
  - cbn. by apply Forall_cons in H as [_ ?].
Qed.

Lemma jobs_first_snoc_none q : jobs_first q -> jobs_first (q ++ [None]).
Proof.
  induction q as [|[j|] q IH]; cbn; [by constructor|exact IH|].
  intros H. apply Forall_app. split; [exact H|by constructor].
Qed.

Lemma jobs_first_snoc_job q j : None ∉ q -> jobs_first (q ++ [Some j]).
Proof.
  induction q as [|[i|] q IH]; cbn; [done| |].
  - intros H. apply IH. intros Hq. apply H. by right.
  - intros H. exfalso. apply H. by left.
Qed.

Lemma all_sentinels_snoc (q : list (option Job)) :
  Forall (eq None) q -> Forall (eq None) (q ++ [None]).
Proof. intros H. apply Forall_app. split; [exact H|by constructor]. Qed.

Lemma no_sentinel_all_results {A} (l : list (option A)) :
  None ∉ l -> exists rs, l = Some <$> rs.
Proof.
  induction l as [|[x|] l IH]; intros H.
  - by exists [].
  - destruct IH as (rs & ->); [intros Hl; apply H; by right|].
    by exists (x :: rs).
  - exfalso. apply H. by left.
Qed.

Lemma results_then_sentinel_head {A} (x : option A) q (rs : list A) :
  x :: q = (Some <$> rs) ++ [None] ->
  match x with
  | Some _ => exists rs', q = (Some <$> rs') ++ [None]
  | None => q = []
  end.
Proof.
  destruct rs as [|r rs]; cbn; intros [= -> ->]; [done|]. by exists rs.
Qed.

(** ** What every reachable state satisfies *)

Lemma pipe_inv_initial n jobs :
  pipe_inv n (Pipeline.initial (pipeline_script (seq 0 n) jobs)).
Proof.
  constructor; unfold Pipeline.initial;
    cbn [Pipeline.main Pipeline.jobs_queue Pipeline.output_queue
         Pipeline.workers Pipeline.reduce].
  - apply in_order_script.
  - apply script_actions.
  - intros w Hw. right. unfold pipeline_script.
    right. rewrite !elem_of_app. do 3 right. left.
    apply list_elem_of_fmap. exists w. split; [done|].
    apply elem_of_seq. lia.
  - intros w Hw. unfold pipeline_script in Hw.
    apply elem_of_cons in Hw as [Hw|Hw]; [discriminate|].
    rewrite !elem_of_app, !list_elem_of_fmap in Hw.
    destruct Hw as [(x & ? & _)|[(x & ? & _)|[(x & ? & _)|[(x & E & Hx)|Hw]]]];
      try discriminate.
    + injection E as ->. apply elem_of_seq in Hx. lia.
    + repeat apply elem_of_cons in Hw as [Hw|Hw]; try discriminate.
      by apply elem_of_nil in Hw.
  - unfold pipeline_script. rewrite count_cons, !count_app, !count_cons.
    rewrite (count_fmap_const is_start_worker StartWorker true) by done.
    rewrite (count_fmap_const is_start_worker (fun j => PutJob (Some j)) false)
      by done.
    rewrite (count_fmap_const is_start_worker (fun _ : nat => PutJob None)
               false) by done.
    rewrite (count_fmap_const is_start_worker JoinWorker false) by done.
    rewrite length_seq. cbn. lia.
  - constructor.
  - unfold pipeline_script. rewrite count_cons, !count_app, !count_cons.
    rewrite (count_fmap_const is_job_sentinel StartWorker false) by done.
    rewrite (count_fmap_const is_job_sentinel (fun j => PutJob (Some j)) false)
      by done.
    rewrite (count_fmap_const is_job_sentinel (fun _ : nat => PutJob None)
               true) by done.
    rewrite (count_fmap_const is_job_sentinel JoinWorker false) by done.
    rewrite length_seq. cbn. lia.
  - exact I.
  - by intros ?%elem_of_nil.
  - intros (w & Hw). by rewrite lookup_nil in Hw.
  - intros [?|?%elem_of_nil]; done.
  - left. unfold pipeline_script. right. rewrite !elem_of_app.
    do 4 right. left.
  - intros H. exfalso. apply H. unfold pipeline_script. right.
    rewrite !elem_of_app. do 4 right. left.
  - intros _. eexists. reflexivity.
  - left. unfold pipeline_script. right. rewrite !elem_of_app.
    do 4 right. right. left.
Qed.

Section Preservation.
Import Pipeline.
Variable extract : Job -> string.
Variable maxsize : Z.
Variable n : nat.

Lemma lookup_exited_insert (ws : list worker) w0 w x y :
  ws !! w0 = Some x -> x <> Exited ->
  ws !! w = Some Exited -> <[w0 := y]> ws !! w = Some Exited.
Proof.
  intros H0 Hx Hw. rewrite list_lookup_insert_ne; [exact Hw|].
  intros ->. congruence.
Qed.

Lemma lookup_insert_exited (ws : list worker) w0 w y :
  y <> Exited ->
  <[w0 := y]> ws !! w = Some Exited -> ws !! w = Some Exited.
Proof.
  intros Hy H. destruct (decide (w0 = w)) as [->|Hne].
  - destruct (decide (w < length ws)%nat) as [Hl|Hl].
    + rewrite list_lookup_insert_eq in H by exact Hl. congruence.
    + rewrite lookup_ge_None_2 in H by (rewrite length_insert; lia).
      discriminate.
  - by rewrite list_lookup_insert_ne in H.
Qed.

Lemma not_elem_of_tail {A} (x a : A) m : x ∉ a :: m -> x ∉ m.
Proof. intros H Hx. apply H. by right. Qed.

Lemma no_job_left_tail a m : no_job_left (a :: m) -> no_job_left m.
Proof. intros H j. eapply not_elem_of_tail, H. Qed.

Lemma elem_of_tail {A} (x a : A) m : x ∈ a :: m -> x <> a -> x ∈ m.
Proof. intros [->|H]%elem_of_cons Hn; [done|exact H]. Qed.

Ltac simpl_counts :=
  cbn [Nat.b2n is_start_worker is_job_sentinel is_sentinel exited busy] in *.

Ltac fields :=
  constructor; cbn [main jobs_queue output_queue workers reduce written].

Ltac tail_goal :=
  match goal with
  | |- _ ∉ _ => eapply not_elem_of_tail
  | |- no_job_left _ => eapply no_job_left_tail
  end.

Lemma pipe_inv_start_reduce m jq oq ws r wr :
  pipe_inv n (mkSys (StartReduce :: m) jq oq ws r wr) ->
  pipe_inv n (mkSys m jq oq ws RRunning wr).
Proof.
  intros [I1 I2 I3 I4 I5 I6 I7 I8 I9 I10 I11 I12 I13 I14 I15].
  cbn [main jobs_queue output_queue workers reduce written] in *.
  destruct I1 as [Ihead I1]. apply Forall_cons in I2 as [Iact I2].
  rewrite count_cons in I5, I7. simpl_counts.
  assert (Hput : PutOutput None ∈ m).
  { destruct I12 as [H|H]; [by apply elem_of_tail in H|].
    by apply Forall_cons in H as [? _]. }
  fields; try done.
  - intros w Hw. destruct (I3 w Hw) as [H|H]; [by left|right].
    by apply elem_of_tail in H.
  - intros w Hw. apply I4. by right.
  - intros H. tail_goal. by apply I9.
  - intros H. destruct (I10 H) as [H1 H2]. split; [done|]. by tail_goal.
  - intros [H|H]; [done|]. tail_goal. apply I11. by right.
  - by left.
  - left. destruct I15 as [H|H]; [by apply elem_of_tail in H|].
    exfalso. eapply I11; [by left|by right].
Qed.

Ltac open_inv H :=
  destruct H as [I1 I2 I3 I4 I5 I6 I7 I8 I9 I10 I11 I12 I13 I14 I15];
  cbn [main jobs_queue output_queue workers reduce written] in *.

Ltac open_main :=
  match goal with
  | I1 : in_order (_ :: _), I2 : Forall script_action (_ :: _) |- _ =>
      destruct I1 as [Ihead I1]; apply Forall_cons in I2 as [Iact I2]
  end.

(** Before the put on the result queue, that put is still to come. *)
Lemma output_put_left a m :
  PutOutput None ∈ a :: m \/ Forall (eq JoinReduce) (a :: m) ->
  a <> JoinReduce -> a <> PutOutput None -> PutOutput None ∈ m.
Proof.
  intros [H|H] H1 H2; [by apply elem_of_tail in H|].
  apply Forall_cons in H as [? _]. congruence.
Qed.

Lemma pipe_inv_start_worker w0 m jq oq ws r wr :
  pipe_inv n (mkSys (StartWorker w0 :: m) jq oq ws r wr) ->
  pipe_inv n (mkSys m jq oq (ws ++ [Idle]) r wr).
Proof.
  intros H. open_inv H. open_main.
  rewrite count_cons in I5, I7. simpl_counts.
  pose proof (output_put_left _ _ I12 ltac:(done) ltac:(done)) as Hput.
  fields; try done.
  - intros w Hw. destruct (I3 w Hw) as [H|H]; [left|right].
    + by apply lookup_app_l_Some.
    + by apply elem_of_tail in H.
  - intros w Hw. apply I4. by right.
  - rewrite length_app. cbn [length]. lia.
  - apply Forall_app. split; [done|]. by repeat constructor.
  - rewrite count_snoc. simpl_counts. lia.
  - intros H. tail_goal. by apply I9.
  - intros (w & Hw). apply lookup_app_Some in Hw as [Hw|[_ Hw]].
    + destruct (I10 (ex_intro _ w Hw)) as [H1 H2]. split; [done|].
      by tail_goal.
    + by destruct (w - length ws)%nat.
  - intros H. tail_goal. by apply I11.
  - by left.
  - intros H. destruct (I14 H) as (rest & ?). done.
  - destruct I15 as [H|H]; [left|by right]. by apply elem_of_tail in H.
Qed.

Lemma pipe_inv_put_job j m jq oq ws r wr :
  pipe_inv n (mkSys (PutJob j :: m) jq oq ws r wr) ->
  pipe_inv n (mkSys m (jq ++ [j]) oq ws r wr).
Proof.
  intros H. open_inv H. open_main.
  rewrite count_cons in I5, I7.
  pose proof (output_put_left _ _ I12 ltac:(done) ltac:(done)) as Hput.
  fields; try done.
  - intros w Hw. destruct (I3 w Hw) as [H|H]; [by left|right].
    by apply elem_of_tail in H.
  - intros w Hw. apply I4. by right.
  - rewrite count_snoc. destruct j; simpl_counts; lia.
  - destruct j as [j|]; [|by apply jobs_first_snoc_none].
    apply jobs_first_snoc_job. intros H. eapply (I9 H). by left.
  - intros H. destruct j as [j|]; [|by apply follows_job_sentinel].
    tail_goal. apply I9. apply elem_of_app in H as [H|H]; [done|].
    by apply list_elem_of_singleton in H.
  - intros H. destruct (I10 H) as [H1 H2]. destruct j as [j|].
    + exfalso. eapply H2. by left.
    + split; [by apply all_sentinels_snoc|by tail_goal].
  - intros H. tail_goal. by apply I11.
  - by left.
  - intros H. destruct (I14 H) as (rest & ?). done.
  - destruct I15 as [H|H]; [left|by right]. by apply elem_of_tail in H.
Qed.

Lemma pipe_inv_join_worker w0 m jq oq ws r wr :
  ws !! w0 = Some Exited ->
  pipe_inv n (mkSys (JoinWorker w0 :: m) jq oq ws r wr) ->
  pipe_inv n (mkSys m jq oq ws r wr).
Proof.
  intros Hw0 H. open_inv H. open_main.
  rewrite count_cons in I5, I7. simpl_counts.
  pose proof (output_put_left _ _ I12 ltac:(done) ltac:(done)) as Hput.
  fields; try done.
  - intros w Hw. destruct (I3 w Hw) as [H|H]; [by left|].
    apply elem_of_cons in H as [[= ->]|H]; [by left|by right].
  - intros w Hw. apply I4. by right.
  - intros H. tail_goal. by apply I9.
  - intros H. destruct (I10 H) as [H1 H2]. split; [done|]. by tail_goal.
  - intros H. tail_goal. by apply I11.
  - by left.
  - intros H. destruct (I14 H) as (rest & ?). done.
  - destruct I15 as [H|H]; [left|by right]. by apply elem_of_tail in H.
Qed.

Lemma pipe_inv_put_output x m jq oq ws r wr :
  pipe_inv n (mkSys (PutOutput x :: m) jq oq ws r wr) ->
  pipe_inv n (mkSys m jq (oq ++ [x]) ws r wr).
Proof.
  intros H. open_inv H. open_main.
  destruct x as [x|]; [done|].
  rewrite count_cons in I5, I7. simpl_counts.
  pose proof (follows_output _ _ Ihead) as Hjr.
  destruct (join_reduce_only _ Hjr) as (J1 & J2 & J3 & J4 & J5).
  fields; try done.
  - intros w Hw. destruct (I3 w Hw) as [H|H]; [by left|right].
    by apply elem_of_tail in H.
  - intros w Hw. apply I4. by right.
  - intros H. destruct (I10 H) as [H1 H2]. done.
  - by right.
  - intros _. right.
    assert (Hr : r <> RStopped).
    { intros ->. eapply I11; [by left|by left]. }
    split; [done|].
    destruct (no_sentinel_all_results oq) as (rs & ->); [|by exists rs].
    intros H. eapply I11; [by right|by left].
  - intros H. destruct (I14 H) as (rest & ?). done.
  - destruct I15 as [H|H]; [left|by right]. by apply elem_of_tail in H.
Qed.

Lemma pipe_inv_join_reduce m jq oq ws wr :
  pipe_inv n (mkSys (JoinReduce :: m) jq oq ws RStopped wr) ->
  pipe_inv n (mkSys m jq oq ws RStopped wr).
Proof.
  intros H. open_inv H. open_main.
  rewrite count_cons in I5, I7. simpl_counts.
  fields; try done.
  - intros w Hw. destruct (I3 w Hw) as [H|H]; [by left|right].
    by apply elem_of_tail in H.
  - intros w Hw. apply I4. by right.
  - intros H. tail_goal. by apply I9.
  - intros H. destruct (I10 H) as [H1 H2]. split; [done|]. by tail_goal.
  - intros H. tail_goal. by apply I11.
  - destruct I12 as [H|H]; [left; by apply elem_of_tail in H|right].
    by apply Forall_cons in H as [_ ?].
  - intros H. apply I13. intros H'. apply elem_of_tail in H'; done.
  - by right.
Qed.

Lemma pipe_inv_get_job w0 j m jq oq ws r wr :
  ws !! w0 = Some Idle ->
  pipe_inv n (mkSys m (Some j :: jq) oq ws r wr) ->
  pipe_inv n (mkSys m jq oq (<[w0 := Busy (result_of extract j)]> ws) r wr).
Proof.
  intros Hw0 H. open_inv H.
  rewrite count_cons in I7.
  pose proof (count_insert exited ws w0 _ (Busy (result_of extract j)) Hw0)
    as Hc. simpl_counts.
  fields; try done.
  - intros w Hw. destruct (I3 w Hw) as [H|H]; [left|by right].
    by apply (lookup_exited_insert _ _ _ _ _ Hw0).
  - by rewrite length_insert.
  - by apply Forall_insert.
  - lia.
  - intros H. apply I9. by right.
  - intros (w & Hw). apply lookup_insert_exited in Hw; [|done].
    destruct (I10 (ex_intro _ w Hw)) as [H1 H2].
    by apply Forall_cons in H1 as [? _].
Qed.

Lemma pipe_inv_get_sentinel w0 m jq oq ws r wr :
  ws !! w0 = Some Idle ->
  pipe_inv n (mkSys m (None :: jq) oq ws r wr) ->
  pipe_inv n (mkSys m jq oq (<[w0 := Exited]> ws) r wr).
Proof.
  intros Hw0 H. open_inv H.
  rewrite count_cons in I7.
  pose proof (count_insert exited ws w0 _ Exited Hw0) as Hc. simpl_counts.
  fields; try done.
  - intros w Hw. destruct (I3 w Hw) as [H|H]; [left|by right].
    by apply (lookup_exited_insert _ _ _ _ _ Hw0).
  - by rewrite length_insert.
  - by apply Forall_insert.
  - lia.
  - by apply jobs_first_tail in I8.
  - intros H. apply I9. by right.
  - intros _. split; [exact I8|]. apply I9. by left.
Qed.

Lemma pipe_inv_put_result w0 x m jq oq ws r wr :
  ws !! w0 = Some (Busy x) ->
  pipe_inv n (mkSys m jq oq ws r wr) ->
  pipe_inv n (mkSys m jq (oq ++ [Some x]) (<[w0 := Idle]> ws) r wr).
Proof.
  intros Hw0 H. open_inv H.
  pose proof (count_insert exited ws w0 _ Idle Hw0) as Hc. simpl_counts.
  fields; try done.
  - intros w Hw. destruct (I3 w Hw) as [H|H]; [left|by right].
    by apply (lookup_exited_insert _ _ _ _ _ Hw0).
  - by rewrite length_insert.
  - by apply Forall_insert.
  - lia.
  - intros (w & Hw). apply lookup_insert_exited in Hw; [|done].
    by apply I10; exists w.
  - intros [H|H]; apply I11; [by left|right].
    apply elem_of_app in H as [H|H]; [done|].
    by apply list_elem_of_singleton in H.
  - intros H. exfalso.
    destruct I12 as [H'|Hjr]; [done|].
    destruct (join_reduce_only _ Hjr) as (_ & _ & J3 & _ & _).
    assert (Hlt : (w0 < n)%nat).
    { apply lookup_lt_Some in Hw0. lia. }
    destruct (I3 w0 Hlt) as [H'|H']; [congruence|by apply J3 in H'].
Qed.

Lemma pipe_inv_pop_result x m jq oq ws wr :
  pipe_inv n (mkSys m jq (Some x :: oq) ws RRunning wr) ->
  pipe_inv n (mkSys m jq oq ws RRunning (wr ++ [write_of x])).
Proof.
  intros H. open_inv H.
  fields; try done.
  - intros [H|H]; [done|]. apply I11. right. by right.
  - intros H. right. split; [done|].
    destruct (I13 H) as [[? _]|[_ (rs & Hrs)]]; [done|].
    by apply results_then_sentinel_head in Hrs.
Qed.

Lemma pipe_inv_pop_sentinel m jq oq ws wr :
  pipe_inv n (mkSys m jq (None :: oq) ws RRunning wr) ->
  pipe_inv n (mkSys m jq oq ws RStopped wr).
Proof.
  intros H. open_inv H.
  fields; try done.
  - intros _. apply I11. right. by left.
  - intros H. left. split; [done|].
    destruct (I13 H) as [[? _]|[_ (rs & Hrs)]]; [done|].
    by apply results_then_sentinel_head in Hrs.
  - by right.
Qed.

Lemma pipe_inv_trans s s' :
  trans extract maxsize s s' -> pipe_inv n s -> pipe_inv n s'.
Proof.
  intros H. destruct H.
  - apply pipe_inv_start_reduce.
  - apply pipe_inv_start_worker.
  - apply pipe_inv_put_job.
  - by apply pipe_inv_join_worker.
  - apply pipe_inv_put_output.
  - apply pipe_inv_join_reduce.
  - by apply pipe_inv_get_job.
  - by apply pipe_inv_get_sentinel.
  - by apply pipe_inv_put_result.
  - apply pipe_inv_pop_result.
  - apply pipe_inv_pop_sentinel.
Qed.

Lemma pipe_inv_exec schedule :
  forall s tr s',
    exec extract maxsize s schedule = Some (tr, s') ->
    pipe_inv n s -> pipe_inv n s'.
Proof.
  induction schedule as [|c cs IH]; intros s tr s'.
  - cbn. by intros [= _ ->].
  - cbn [exec]. destruct (step extract maxsize s c) as [[e s1]|] eqn:E;
      [|discriminate].
    destruct (exec extract maxsize s1 cs) as [[tr1 s2]|] eqn:E2;
      [|discriminate].
    intros [= _ ->] Hs. eapply IH; [exact E2|].
    eapply pipe_inv_trans; [|exact Hs]. eapply step_trans. exact E.
Qed.
End Preservation.

(** ** Where a run can stop *)

Section Reachable.
Import Pipeline.
Variable extract : Job -> string.
Variable maxsize : Z.
Variable n : nat.
Hypothesis some_worker : (1 <= n)%nat.







(** When the reducer has stopped nothing is left anywhere. *)
Lemma stopped_state s :
  pipe_inv n s -> reduce s = RStopped ->
  output_queue s = [] /\ Forall (eq Exited) (workers s)
  /\ length (workers s) = n
  /\ Forall (eq None) (jobs_queue s) /\ Forall (eq JoinReduce) (main s).
Proof.
  intros [I1 I2 I3 I4 I5 I6 I7 I8 I9 I10 I11 I12 I13 I14 I15] Hr.
  assert (Hn : PutOutput None ∉ main s) by (apply I11; by left).
  destruct I12 as [?|Hjr]; [done|].
  destruct (join_reduce_only _ Hjr) as (_ & J2 & J3 & J4 & J5).
  assert (Hl : length (workers s) = n) by lia.
  assert (Hex : forall w, (w < n)%nat -> workers s !! w = Some Exited).
  { intros w Hw. destruct (I3 w Hw) as [H|H]; [done|by apply J3 in H]. }
  repeat split; try done.
  - destruct (I13 Hn) as [[_ ?]|[? _]]; done.
  - apply Forall_lookup. intros w x Hx.
    pose proof (lookup_lt_Some _ _ _ Hx) as Hlt.
    rewrite Hex in Hx by lia. congruence.
  - apply I10. exists 0%nat. apply Hex. lia.
Qed.

Lemma in_hand_exited ws : Forall (eq Exited) ws -> in_hand ws = [].
Proof. induction 1 as [|x ws <- _ IH]; [done|exact IH]. Qed.

Lemma queued_sentinels jq : Forall (eq None) jq -> queued extract jq = [].
Proof. induction 1 as [|x jq <- _ IH]; [done|exact IH]. Qed.

Lemma to_put_joins m : Forall (eq JoinReduce) m -> to_put extract m = [].
Proof. induction 1 as [|x m <- _ IH]; [done|exact IH]. Qed.

Lemma stopped_pages s :
  pipe_inv n s -> reduce s = RStopped -> pages extract s = written s.
Proof.
  intros Hinv Hr.
  destruct (stopped_state s Hinv Hr) as (H1 & H2 & _ & H3 & H4).
  unfold pages. rewrite H1, (in_hand_exited _ H2), (queued_sentinels _ H3),
    (to_put_joins _ H4). cbn. by rewrite app_nil_r.
Qed.



Lemma pages_exec_perm schedule :
  forall s tr s',
    exec extract maxsize s schedule = Some (tr, s') ->
    pipe_inv n s -> pages extract s' ≡ₚ pages extract s.
Proof.
  induction schedule as [|c cs IH]; intros s tr s'.
  - cbn. by intros [= _ ->].
  - cbn [exec]. destruct (step extract maxsize s c) as [[e s1]|] eqn:E;
      [|discriminate].
    destruct (exec extract maxsize s1 cs) as [[tr1 s2]|] eqn:E2;
      [|discriminate].
    intros [= _ ->] Hs. apply step_trans in E.
    rewrite (IH _ _ _ E2 (pipe_inv_trans _ _ _ _ _ E Hs)).
    apply (pages_trans_perm _ _ _ _ E), Hs.
Qed.

Lemma pages_exec_eq schedule :
  forall s tr s',
    exec extract maxsize s schedule = Some (tr, s') ->
    pipe_inv n s -> n = 1%nat -> pages extract s' = pages extract s.
Proof.
  induction schedule as [|c cs IH]; intros s tr s'.
  - cbn. by intros [= _ ->].
  - cbn [exec]. destruct (step extract maxsize s c) as [[e s1]|] eqn:E;
      [|discriminate].
    destruct (exec extract maxsize s1 cs) as [[tr1 s2]|] eqn:E2;
      [|discriminate].
    intros [= _ ->] Hs Hn. apply step_trans in E.
    rewrite (IH _ _ _ E2 (pipe_inv_trans _ _ _ _ _ E Hs) Hn).
    apply (pages_trans_eq _ _ _ _ E); [apply Hs|].
    pose proof (pi_workers _ _ Hs). clear some_worker. lia.
Qed.
End Reachable.

(** ** The pipeline under every schedule *)

Lemma worker_ids_seq process_count :
  exists n, (1 <= n)%nat /\ worker_ids process_count = seq 0 n
            /\ (process_count <= 1 -> n = 1%nat).
Proof.
  exists (Z.to_nat (Z.max 1 process_count)). repeat split; lia.
Qed.

Example sample_execution :
  Pipeline.exec sample_extract 10
    (Pipeline.initial (pipeline_script (worker_ids 1) [sample_job]))
    sample_schedule = Some (sample_trace, sample_final).
Proof. vm_compute. reflexivity. Qed.

(** X19. In every execution of the pipeline, under any schedule and any
    bound of the queues, the pages written so far are among the pages of
    the dispatched jobs, each at most as often as its job was dispatched:
    no page is invented and none is written twice. Once the reducer has
    stopped, the pages written are those of all the jobs, in some order:
    none is lost. *)
Theorem no_page_is_lost_or_repeated
    (extract : Job -> string) (maxsize process_count : Z) (jobs : list Job)
    (schedule : list Pipeline.choice) (tr : list Pipeline.event)
    (s : Pipeline.Sys) :
  Pipeline.exec extract maxsize
    (Pipeline.initial (pipeline_script (worker_ids process_count) jobs))
    schedule = Some (tr, s) ->
  Pipeline.written s ⊆+ (written_of extract <$> jobs)
  /\ (Pipeline.reduce s = Pipeline.RStopped ->
      Pipeline.written s ≡ₚ written_of extract <$> jobs).
Proof.
  intros Hexec. destruct (worker_ids_seq process_count) as (n & Hn & Hws & _).
  rewrite Hws in Hexec.
  pose proof (pipe_inv_initial n jobs) as H0.
  pose proof (pipe_inv_exec extract maxsize n _ _ _ _ Hexec H0) as Hs.
  pose proof (pages_exec_perm extract maxsize n _ _ _ _ Hexec H0) as Hp.
  rewrite pages_initial in Hp. split.
  - rewrite <- Hp. unfold pages. apply submseteq_inserts_r. reflexivity.
  - intros Hr. rewrite <- Hp.
    by rewrite (stopped_pages extract n Hn s Hs Hr).
Qed.

Lemma no_page_is_lost_or_repeated_witness :
  Pipeline.written sample_final
  ⊆+ (written_of sample_extract <$> [sample_job])
  /\ (Pipeline.reduce sample_final = Pipeline.RStopped ->
      Pipeline.written sample_final
      ≡ₚ written_of sample_extract <$> [sample_job]).
Proof.
  refine (no_page_is_lost_or_repeated sample_extract 10 1 [sample_job]
            sample_schedule sample_trace sample_final _).
  vm_compute. reflexivity.
Defined.

(** X20. With one worker (a process count of at most 1) the pages are
    written in the order of the dump: in every execution the pages written
    so far are the pages of the first jobs, in the order of the jobs, and
    once the reducer has stopped they are the pages of all the jobs in
    that order. *)
Theorem one_worker_writes_in_dump_order
    (extract : Job -> string) (maxsize process_count : Z) (jobs : list Job)
    (schedule : list Pipeline.choice) (tr : list Pipeline.event)
    (s : Pipeline.Sys) :
  process_count <= 1 ->
  Pipeline.exec extract maxsize
    (Pipeline.initial (pipeline_script (worker_ids process_count) jobs))
    schedule = Some (tr, s) ->
  Pipeline.written s `prefix_of` (written_of extract <$> jobs)
  /\ (Pipeline.reduce s = Pipeline.RStopped ->
      Pipeline.written s = written_of extract <$> jobs).
Proof.
  intros Hone Hexec.
  destruct (worker_ids_seq process_count) as (n & Hn & Hws & H1).
  rewrite Hws in Hexec. specialize (H1 Hone).
  pose proof (pipe_inv_initial n jobs) as H0.
  pose proof (pipe_inv_exec extract maxsize n _ _ _ _ Hexec H0) as Hs.
  pose proof (pages_exec_eq extract maxsize n _ _ _ _ Hexec H0 H1) as Hp.
  rewrite pages_initial in Hp. split.
  - rewrite <- Hp. unfold pages. by eexists.
  - intros Hr. rewrite <- Hp.
    by rewrite (stopped_pages extract n Hn s Hs Hr).
Qed.

Lemma one_worker_writes_in_dump_order_witness :
  Pipeline.written sample_final
  `prefix_of` (written_of sample_extract <$> [sample_job])
  /\ (Pipeline.reduce sample_final = Pipeline.RStopped ->
      Pipeline.written sample_final
      = written_of sample_extract <$> [sample_job]).
Proof.
  refine (one_worker_writes_in_dump_order sample_extract 10 1 [sample_job]
            sample_schedule sample_trace sample_final _ _).
  - vm_compute. discriminate.
  - vm_compute. reflexivity.
Defined.

(** X21. With two workers the order of the dump is not kept: for any two
    jobs there is a complete execution, with the queue bound of
    [process_dump], in which the page of the second job is written before
    the page of the first. *)
Theorem two_workers_may_swap_pages
    (extract : Job -> string) (j1 j2 : Job) :
  exists tr s,
    Pipeline.exec extract (10 * 2)
      (Pipeline.initial (pipeline_script (worker_ids 2) [j1; j2]))
      overtaking = Some (tr, s)
    /\ Pipeline.main s = [] /\ Pipeline.reduce s = Pipeline.RStopped
    /\ Pipeline.written s = [written_of extract j2; written_of extract j1].
Proof. eexists _, _. split; [vm_compute; reflexivity|]. repeat split. Qed.





Section Bound.
Import Pipeline.
Variable extract : Job -> string.
Variable maxsize : Z.
Hypothesis bounded : 0 < maxsize.

Lemma not_full_snoc {A} (q : list A) x :
  full maxsize q = false -> Z.of_nat (length (q ++ [x])) <= maxsize.
Proof.
  unfold full. intros H. apply andb_false_iff in H as [H|H].
  - apply Z.ltb_ge in H. lia.
  - apply Z.leb_gt in H. rewrite length_app. cbn. lia.
Qed.

Lemma within_bound_trans s s' :
  trans extract maxsize s s' ->
  within_bound maxsize s -> within_bound maxsize s'.
Proof.
  intros H [H1 H2]. destruct H; unfold within_bound;
    cbn [jobs_queue output_queue length] in *;
    split; try done; try (by apply not_full_snoc); lia.
Qed.

Lemma within_bound_exec schedule :
  forall s tr s',
    exec extract maxsize s schedule = Some (tr, s') ->
    within_bound maxsize s -> within_bound maxsize s'.
Proof.
  induction schedule as [|c cs IH]; intros s tr s'.
  - cbn. by intros [= _ ->].
  - cbn [exec]. destruct (step extract maxsize s c) as [[e s1]|] eqn:E;
      [|discriminate].
    destruct (exec extract maxsize s1 cs) as [[tr1 s2]|] eqn:E2;
      [|discriminate].
    intros [= _ ->] Hs. eapply IH; [exact E2|].
    eapply within_bound_trans; [|exact Hs]. eapply step_trans. exact E.
Qed.
End Bound.

(** X24. With a process count of at least 1 the queues are bounded: in
    every execution neither the job queue nor the result queue ever holds
    more than [maxsize = 10 * process_count] items, however many jobs the
    dump gives. *)
Theorem queues_stay_bounded
    (extract : Job -> string) (process_count : Z) (jobs : list Job)
    (schedule : list Pipeline.choice) (tr : list Pipeline.event)
    (s : Pipeline.Sys) :
  1 <= process_count ->
  Pipeline.exec extract (10 * process_count)
    (Pipeline.initial (pipeline_script (worker_ids process_count) jobs))
    schedule = Some (tr, s) ->
  Z.of_nat (length (Pipeline.jobs_queue s)) <= 10 * process_count
  /\ Z.of_nat (length (Pipeline.output_queue s)) <= 10 * process_count.
Proof.
  intros Hp Hexec.
  apply (within_bound_exec extract (10 * process_count) ltac:(lia)
           _ _ _ _ Hexec).
  split; cbn; lia.
Qed.

Lemma queues_stay_bounded_witness :
  Z.of_nat (length (Pipeline.jobs_queue sample_final)) <= 10 * 1
  /\ Z.of_nat (length (Pipeline.output_queue sample_final)) <= 10 * 1.
Proof.
  refine (queues_stay_bounded sample_extract 1 [sample_job]
            sample_schedule sample_trace sample_final _ _).
  - vm_compute. discriminate.
  - vm_compute. reflexivity.
Defined.

(** ** The files a run leaves *)

Lemma written_files_snoc self fs calls c :
  written_files self fs (calls ++ [c])
  = <[call_path self c := c.2]> (written_files self fs calls).
Proof. unfold written_files. rewrite foldl_app. reflexivity. Qed.

Lemma dom_written_files self fs calls :
  dom (written_files self fs calls)
  = dom fs ∪ list_to_set (call_path self <$> calls).
Proof.
  induction calls as [|c calls IH] using rev_ind.
  - cbn. set_solver.
  - rewrite written_files_snoc, dom_insert_L, IH, fmap_app,
      list_to_set_app_L.
    cbn. set_solver.
Qed.

(** A file that was written holds the text of a call that wrote it. *)
Lemma lookup_written_files self fs calls p :
  p ∈ call_path self <$> calls ->
  exists c, c ∈ calls /\ call_path self c = p
            /\ written_files self fs calls !! p = Some c.2.
Proof.
  induction calls as [|c calls IH] using rev_ind.
  - by intros ?%elem_of_nil.
  - rewrite fmap_app, written_files_snoc. intros Hp.
    destruct (decide (call_path self c = p)) as [E|E].
    + exists c. split; [set_solver|]. split; [done|].
      rewrite <- E. apply lookup_insert_eq.
    + apply elem_of_app in Hp as [Hp|Hp].
      * destruct (IH Hp) as (c' & H1 & H2 & H3). exists c'.
        split; [set_solver|]. split; [done|].
        by rewrite lookup_insert_ne.
      * apply list_elem_of_singleton in Hp. congruence.
Qed.

Lemma lookup_written_files_other self fs calls p :
  p ∉ call_path self <$> calls -> written_files self fs calls !! p = fs !! p.
Proof.
  induction calls as [|c calls IH] using rev_ind; [done|].
  rewrite fmap_app, written_files_snoc. intros Hp.
  rewrite lookup_insert_ne by set_solver. apply IH. set_solver.
Qed.

Lemma call_path_written extract self j :
  call_path self (written_of extract j) = page_path self (job_title j).
Proof. reflexivity. Qed.

(** Every call returns exactly when the file of every call can be
    opened, and the files are then those of the calls. *)
Lemma write_pages_returned self can_open fs calls :
  (write_pages self can_open fs calls).2 = true
  <-> Forall (fun c => can_open (call_path self c) = true) calls.
Proof.
  revert fs. induction calls as [|[[i t] x] calls IH]; intros fs.
  - split; [constructor|reflexivity].
  - cbn [write_pages]. unfold write_page.
    fold (page_path self t).
    change (page_path self t) with (call_path self (i, t, x)).
    destruct (can_open (call_path self (i, t, x))) eqn:E.
    + rewrite IH. split; [by constructor|].
      by intros [_ ?]%Forall_cons.
    + cbn [snd]. split; [discriminate|].
      intros [? _]%Forall_cons. congruence.
Qed.

Lemma write_pages_files self can_open fs calls :
  Forall (fun c => can_open (call_path self c) = true) calls ->
  write_pages self can_open fs calls = (written_files self fs calls, true).
Proof.
  intros H. revert fs. induction H as [|[[i t] x] calls Hc _ IH]; intros fs.
  - reflexivity.
  - cbn [write_pages]. unfold write_page.
    fold (page_path self t).
    change (page_path self t) with (call_path self (i, t, x)).
    rewrite Hc, IH. reflexivity.
Qed.

(** X25. The files a complete run leaves, under any schedule. Every call
    of [write_page] the reducer made returned exactly when the file of
    every dispatched title can be opened. The files are then the files
    there were and one file for each file name the titles of the
    dispatched pages give, so that pages whose titles give the same name
    share a file; such a file holds the converted text of one of the
    pages of that name, and the other files are as they were. (In the
    code the reducer reaches the sentinel only when every call
    returned.) *)
Theorem files_of_a_complete_run
    (self : PageWriter) (can_open : string -> bool)
    (fs : gmap string string)
    (extract : Job -> string) (maxsize process_count : Z) (jobs : list Job)
    (schedule : list Pipeline.choice) (tr : list Pipeline.event)
    (s : Pipeline.Sys) :
  Pipeline.exec extract maxsize
    (Pipeline.initial (pipeline_script (worker_ids process_count) jobs))
    schedule = Some (tr, s) ->
  Pipeline.reduce s = Pipeline.RStopped ->
  let r := write_pages self can_open fs (Pipeline.written s) in
  (r.2 = true
   <-> forall j, j ∈ jobs -> can_open (page_path self (job_title j)) = true)
  /\ (r.2 = true ->
      dom r.1
      = dom fs
        ∪ list_to_set ((fun j => page_path self (job_title j)) <$> jobs)
      /\ (forall j, j ∈ jobs ->
            exists j', j' ∈ jobs
              /\ page_path self (job_title j') = page_path self (job_title j)
              /\ r.1 !! page_path self (job_title j) = Some (extract j'))
      /\ (forall p,
            (forall j, j ∈ jobs -> page_path self (job_title j) <> p) ->
            r.1 !! p = fs !! p)).
Proof.
  intros Hexec Hr r.
  destruct (worker_ids_seq process_count) as (n & Hn & Hws & _).
  rewrite Hws in Hexec.
  pose proof (pipe_inv_initial n jobs) as H0.
  pose proof (pipe_inv_exec extract maxsize n _ _ _ _ Hexec H0) as Hs.
  pose proof (pages_exec_perm extract maxsize n _ _ _ _ Hexec H0) as Hp.
  rewrite pages_initial, (stopped_pages extract n Hn s Hs Hr) in Hp.
  assert (Hpaths : call_path self <$> Pipeline.written s
                   ≡ₚ (fun j => page_path self (job_title j)) <$> jobs).
  { rewrite Hp, <- list_fmap_compose. reflexivity. }
  assert (Hopen :
            Forall (fun c => can_open (call_path self c) = true)
              (Pipeline.written s)
            <-> forall j, j ∈ jobs ->
                  can_open (page_path self (job_title j)) = true).
  { rewrite Hp, Forall_fmap, Forall_forall. reflexivity. }
  split.
  - unfold r. rewrite write_pages_returned. exact Hopen.
  - intros Hok. unfold r in *. apply write_pages_returned in Hok.
    rewrite (write_pages_files _ _ _ _ Hok). cbn [fst].
    split; [|split].
    + rewrite dom_written_files. by rewrite Hpaths.
    + intros j Hj.
      destruct (lookup_written_files self fs (Pipeline.written s)
                  (page_path self (job_title j))) as (c & H1 & H2 & H3).
      { rewrite Hpaths. apply list_elem_of_fmap. by exists j. }
      rewrite Hp in H1. apply list_elem_of_fmap in H1 as (j' & -> & Hj').
      exists j'. split; [done|]. split; [exact H2|exact H3].
    + intros p Hp'. apply lookup_written_files_other. rewrite Hpaths.
      intros (j & -> & Hj)%list_elem_of_fmap. by apply (Hp' j).
Qed.

Lemma files_of_a_complete_run_witness :
  let r := write_pages (mkPageWriter "text") (name_limit 255) ∅
             (Pipeline.written sample_final) in
  (r.2 = true
   <-> forall j, j ∈ [sample_job] ->
         name_limit 255 (page_path (mkPageWriter "text") (job_title j))
         = true)
  /\ (r.2 = true ->
      dom r.1
      = dom (∅ : gmap string string)
        ∪ list_to_set
            ((fun j => page_path (mkPageWriter "text") (job_title j))
             <$> [sample_job])
      /\ (forall j, j ∈ [sample_job] ->
            exists j', j' ∈ [sample_job]
              /\ page_path (mkPageWriter "text") (job_title j')
                 = page_path (mkPageWriter "text") (job_title j)
              /\ r.1 !! page_path (mkPageWriter "text") (job_title j)
                 = Some (sample_extract j'))
      /\ (forall p,
            (forall j, j ∈ [sample_job] ->
               page_path (mkPageWriter "text") (job_title j) <> p) ->
            r.1 !! p = (∅ : gmap string string) !! p)).
Proof.
  refine (files_of_a_complete_run (mkPageWriter "text") (name_limit 255) ∅
            sample_extract 10 1 [sample_job] sample_schedule sample_trace
            sample_final _ _).
  - vm_compute. reflexivity.
  - reflexivity.
Defined.

Example sample_files :
  write_pages (mkPageWriter "text") (name_limit 255) ∅
    (Pipeline.written sample_final)
  = ({[ "text/Hello.md" := "body" ]}, true).
Proof. vm_compute. reflexivity. Qed.

(** ** The mirror file *)

Lemma join_app a b : Py.join (a ++ b) = Py.join a +:+ Py.join b.
Proof.
  induction a as [|x a IH]; [reflexivity|].
  cbn [app Py.join]. rewrite IH, append_assoc. reflexivity.
Qed.

Lemma mirror_of_app a b : mirror_of (a ++ b) = mirror_of a +:+ mirror_of b.
Proof. unfold mirror_of. by rewrite fmap_app, join_app. Qed.

Lemma mirror_of_one t p : mirror_of [(t, p)] = mirror_page t p.
Proof. unfold mirror_of. cbn. apply append_nil_r. Qed.

Section Mirror.
Import LoadTemplates.
(** The two prefixes while the mirror is written. *)
Variable tp mp : string.

(** What a step adds: a closed page adds one to the pages and, when its
    title starts with the template prefix, one to the templates; when it
    is mirrored its block is added to the mirror. The prefixes stay. *)
Lemma mirror_step st line st' :
  step true st line = Next st' ->
  templatePrefix (globals st) = tp -> modulePrefix (globals st) = mp ->
  templatePrefix (globals st') = tp /\ modulePrefix (globals st') = mp
  /\ output st'
     = output st
       +:+ mirror_of (List.filter (mirrored tp mp)
                        (option_list (closed_page st line)))
  /\ templates st'
     = templates st
       + Z.of_nat (count (fun b => Py.startswith b.1 tp)
                     (option_list (closed_page st line)))
  /\ articles st'
     = articles st + Z.of_nat (length (option_list (closed_page st line))).
Proof.
  intros Hstep H1 H2. revert Hstep.
  unfold step, step_with, closed_page, tag_of.
  destruct (has_angle line); cbn [negb].
  2:{ intros [= <-]. cbn. rewrite append_nil_r.
      destruct (inText st); repeat split; cbn; try done; lia. }
  destruct (tagRE_search line) as [m|]; cbn [fmap option_fmap option_map].
  2:{ intros [= <-]. cbn. rewrite append_nil_r. repeat split; try done; lia. }
  unfold on_tag.
  destruct (String.eqb (group2 m) "page") eqn:E1.
  { apply String.eqb_eq in E1. rewrite E1. intros [= <-]. cbn.
    rewrite append_nil_r. repeat split; try done; lia. }
  destruct (String.eqb (group2 m) "title") eqn:E2.
  { apply String.eqb_eq in E2. rewrite E2. intros [= <-]. cbn.
    rewrite append_nil_r. repeat split; try done; lia. }
  destruct (String.eqb (group2 m) "text") eqn:E3.
  { apply String.eqb_eq in E3. rewrite E3. intros [= <-]. cbn.
    rewrite append_nil_r. repeat split; try done; lia. }
  destruct (String.eqb (group2 m) "/text") eqn:E4.
  { apply String.eqb_eq in E4. rewrite E4. intros [= <-]. cbn.
    rewrite append_nil_r. repeat split; try done; lia. }
  destruct (inText st) eqn:Ei.
  { intros [= <-]. rewrite andb_false_r. cbn. rewrite append_nil_r.
    repeat split; try done; lia. }
  destruct (String.eqb (group2 m) "/page") eqn:E5.
  2:{ intros [= <-]. cbn. rewrite append_nil_r.
      repeat split; try done; lia. }
  unfold end_page. destruct (title st) as [t|]; [|discriminate].
  intros [= <-].
  cbn [globals templates output articles andb negb fmap option_fmap
       option_map].
  change (option_list (Some (t, page st))) with [(t, page st)].
  rewrite count_cons, count_nil. unfold mirrored.
  cbn [List.filter length fst snd].
  rewrite H1, H2.
  destruct (Py.startswith t tp) eqn:Et; cbn [orb].
  - cbn [templatePrefix modulePrefix Nat.b2n]. rewrite mirror_of_one.
    repeat split; try done; lia.
  - destruct (Py.startswith t mp) eqn:Em; cbn [Nat.b2n].
    + rewrite mirror_of_one. repeat split; try done; lia.
    + change (mirror_of []) with EmptyString. rewrite append_nil_r.
      repeat split; try done; lia.
Qed.

Lemma mirror_run file :
  forall st,
    templatePrefix (globals st) = tp -> modulePrefix (globals st) = mp ->
    let st' := ending_state (run true st file) in
    output st'
    = output st
      +:+ mirror_of (List.filter (mirrored tp mp) (closed_pages true st file))
    /\ templates st'
       = templates st
         + Z.of_nat (count (fun b => Py.startswith b.1 tp)
                       (closed_pages true st file))
    /\ articles st'
       = articles st + Z.of_nat (length (closed_pages true st file)).
Proof.
  induction file as [|line rest IH]; intros st H1 H2.
  - cbn. rewrite append_nil_r. repeat split; lia.
  - cbn [run closed_pages].
    destruct (step true st line) as [s1|] eqn:E.
    2:{ cbn. rewrite append_nil_r. repeat split; lia. }
    destruct (mirror_step _ _ _ E H1 H2) as (K1 & K2 & K3 & K4 & K5).
    destruct (IH s1 K1 K2) as (J1 & J2 & J3). cbn zeta in *.
    rewrite J1, J2, J3, K3, K4, K5.
    rewrite List.filter_app, mirror_of_app, count_app, length_app,
      append_assoc.
    repeat split; lia.
Qed.
End Mirror.

(** X26. Called with an output file, [load_templates] writes as mirror
    the blocks of the pages it closes whose title starts with the template
    prefix or with the module prefix (the module namespace of the call
    followed by a colon): one block for each of these pages, in the order
    in which their closing lines stand in the file, and nothing else. The
    count it returns is the number of the closed pages whose title starts
    with the template prefix, and its count of articles the number of all
    of them. This holds also of what has been written when the call
    fails. *)
Theorem mirror_is_made_of_page_blocks
    (g : Globals) (file : list string) (output_file : option string) :
  truthy_name output_file = true ->
  let st := ending_state (load_templates g file output_file) in
  let closed := closed_pages true (LoadTemplates.init g) file in
  LoadTemplates.output st
  = mirror_of
      (List.filter (mirrored (templatePrefix g) (moduleNamespace g +:+ ":"))
         closed)
  /\ LoadTemplates.templates st
     = Z.of_nat (count (fun b => Py.startswith b.1 (templatePrefix g)) closed)
  /\ LoadTemplates.articles st = Z.of_nat (length closed).
Proof.
  intros Ho st closed. unfold st, closed, load_templates. rewrite Ho.
  destruct (mirror_run (templatePrefix g) (moduleNamespace g +:+ ":") file
              (LoadTemplates.init g) eq_refl eq_refl) as (H1 & H2 & H3).
  rewrite H1, H2, H3. repeat split; reflexivity.
Qed.

Lemma mirror_is_made_of_page_blocks_witness :
  let file := [ "<page>" +:+ nl; "<title>Module:Bar</title>" +:+ nl;
                "<text>baz</text>" +:+ nl; "</page>" +:+ nl;
                "<page>" +:+ nl; "<title>Hello</title>" +:+ nl;
                "<text>body</text>" +:+ nl; "</page>" +:+ nl;
                "<page>" +:+ nl; "<title>Template:Foo</title>" +:+ nl;
                "<text>bar</text>" +:+ nl; "</page>" +:+ nl ] in
  let g := mkG ∅ {[ "Template" ]} "Template" "Module" EmptyString
             "Template:" ∅ in
  let st := ending_state (load_templates g file (Some "templates.xml")) in
  let closed := closed_pages true (LoadTemplates.init g) file in
  LoadTemplates.output st
  = mirror_of
      (List.filter (mirrored (templatePrefix g) (moduleNamespace g +:+ ":"))
         closed)
  /\ LoadTemplates.templates st
     = Z.of_nat (count (fun b => Py.startswith b.1 (templatePrefix g)) closed)
  /\ LoadTemplates.articles st = Z.of_nat (length closed).
Proof.
  intros file g.
  refine (mirror_is_made_of_page_blocks g file (Some "templates.xml") _).
  reflexivity.
Defined.

(** Three pages, a module, an article and a template: the pages closed,
    and the mirror with the blocks of the module and of the template in
    the order of the file. *)
Example mirror_of_three_pages :
  let file := [ "<page>" +:+ nl; "<title>Module:Bar</title>" +:+ nl;
                "<text>baz</text>" +:+ nl; "</page>" +:+ nl;
                "<page>" +:+ nl; "<title>Hello</title>" +:+ nl;
                "<text>body</text>" +:+ nl; "</page>" +:+ nl;
                "<page>" +:+ nl; "<title>Template:Foo</title>" +:+ nl;
                "<text>bar</text>" +:+ nl; "</page>" +:+ nl ] in
  let g := mkG ∅ {[ "Template" ]} "Template" "Module" EmptyString
             "Template:" ∅ in
  let st := ending_state (load_templates g file (Some "templates.xml")) in
  closed_pages true (LoadTemplates.init g) file
  = [ ("Module:Bar", ["baz"]); ("Hello", ["body"]);
      ("Template:Foo", ["bar"]) ]
  /\ LoadTemplates.output st
     = mirror_page "Module:Bar" ["baz"] +:+ mirror_page "Template:Foo" ["bar"]
  /\ LoadTemplates.templates st = 1 /\ LoadTemplates.articles st = 3.
Proof. vm_compute. repeat split; reflexivity. Qed.

(** ** What every yielded record satisfies *)

Lemma startswith_append s a b :
  Py.startswith s (a +:+ b) = true -> Py.startswith s a = true.
Proof.
  revert s. induction a as [|c a IH]; intros s; [by destruct s|].
  rewrite append_cons. destruct s as [|d s]; [done|].
  cbn [Py.startswith]. destruct (Ascii.eqb c d); [apply IH|done].
Qed.

Lemma run_yield_inv acc tn st text p :
  p ∈ fst (CollectPages.run acc tn st text) ->
  exists st0 t,
    CollectPages.yield_test acc tn st0 t = true
    /\ p = mkPage (CollectPages.id st0) (CollectPages.revid st0) t
             (CollectPages.page st0).
Proof.
  revert st. induction text as [|x text IH]; intros st.
  - cbn. by intros ?%elem_of_nil.
  - cbn [CollectPages.run].
    destruct (CollectPages.step acc tn st x) as [s1 y|] eqn:E;
      [|by intros ?%elem_of_nil].
    destruct y as [q|]; cbn [fst]; [|apply IH].
    intros [->|Hp]%elem_of_cons; [|by apply (IH s1)].
    apply step_with_yield_inv in E as (t & _ & Hy & _ & -> & _).
    by exists st, t.
Qed.

(** X27. Every record [collect_pages] yields passes the test on titles:
    its title has no colon, or the text before its first colon is an
    accepted namespace, and the title does not start with the template
    namespace name, hence not with that name followed by a colon. No page
    that [load_templates] would take as a template is dispatched as an
    article. *)
Theorem yielded_titles_are_accepted
    (acceptedNamespaces : gset string) (templateNamespace : string)
    (text : list string) (p : PageRecord) :
  p ∈ fst (collect_pages acceptedNamespaces templateNamespace text) ->
  title_accepted acceptedNamespaces templateNamespace (rec_title p) = true
  /\ Py.startswith (rec_title p) (templateNamespace +:+ ":") = false.
Proof.
  intros Hp. apply run_yield_inv in Hp as (st0 & t & Hy & ->).
  cbn [rec_title]. unfold CollectPages.yield_test in Hy.
  apply andb_true_iff in Hy as [Hy H4].
  apply andb_true_iff in Hy as [Hy _].
  apply andb_true_iff in Hy as [H1 _].
  split; [unfold title_accepted; by rewrite H1, H4|].
  destruct (Py.startswith t (templateNamespace +:+ ":")) eqn:E; [|done].
  apply startswith_append in E. rewrite E in H4. discriminate.
Qed.

Lemma yielded_titles_are_accepted_witness :
  title_accepted ∅ "Template"
    (rec_title (mkPage "1" EmptyString "Hello" ["body"])) = true
  /\ Py.startswith (rec_title (mkPage "1" EmptyString "Hello" ["body"]))
       ("Template" +:+ ":") = false.
Proof.
  apply (yielded_titles_are_accepted ∅ "Template"
           [ "<page>" +:+ nl; "<title>Hello</title>" +:+ nl;
             "<id>1</id>" +:+ nl; "<text>body</text>" +:+ nl;
             "</page>" +:+ nl ]).
  vm_compute. constructor.
Defined.

(** X28. No two records that [collect_pages] yields one after the other
    have the same id, and the first record it yields does not have the
    empty id, whatever the text is. *)
Theorem consecutive_records_differ_in_id
    (acceptedNamespaces : gset string) (templateNamespace : string)
    (text : list string) :
  no_repeat EmptyString
    (rec_id <$> fst (collect_pages acceptedNamespaces templateNamespace text)).
Proof.
  apply (yielded_ids_no_repeat acceptedNamespaces templateNamespace
           CollectPages.init text).
Qed.
